(** * AAYURCURE clinic site: the behaviour layer of [src/main.ts]

    A shallow embedding of the form validators, the submission handler, the
    FAQ accordion and the DOM-guarded controllers of [src/main.ts], with the
    properties the specification states about them.

    JavaScript strings are sequences of UTF-16 code units; a code unit is
    modelled as an [N] below [2^16] and a string as a list of them, so that
    [.length], regular expressions without the [u] flag and
    [encodeURIComponent] see the units the source sees. *)

From Stdlib Require Import ZArith NArith Lia Bool Ascii String.
From stdpp Require Import base list.

Local Open Scope N_scope.

(** ** JavaScript strings *)

Abbreviation jsstring := (list N).

(** A string literal of the source (ASCII only), as code units. *)
Definition js (s : string) : jsstring :=
  List.map N_of_ascii (list_ascii_of_string s).

(** [s.length] *)
Definition jslength (s : jsstring) : Z := Z.of_nat (length s).

(** [\d] : the ten ASCII digits. *)
Definition isDigit (c : N) : bool := (48 <=? c) && (c <=? 57).

(** [\s], which is also the set [String.prototype.trim] strips:
    WhiteSpace and LineTerminator of ECMAScript. *)
Definition isWhiteSpace (c : N) : bool :=
  ((9 <=? c) && (c <=? 13)) || (c =? 32) || (c =? 160) || (c =? 5760)
  || ((8192 <=? c) && (c <=? 8202)) || (c =? 8232) || (c =? 8233)
  || (c =? 8239) || (c =? 8287) || (c =? 12288) || (c =? 65279).

Fixpoint dropWhile (p : N -> bool) (s : jsstring) : jsstring :=
  match s with
  | [] => []
  | c :: t => if p c then dropWhile p t else s
  end.

Definition trimStart (s : jsstring) : jsstring := dropWhile isWhiteSpace s.
Definition trimEnd (s : jsstring) : jsstring := rev (dropWhile isWhiteSpace (rev s)).

(** [s.trim()] *)
Definition trim (s : jsstring) : jsstring := trimEnd (trimStart s).

(** [s.substring(0, n)] for a non-negative [n] *)
Definition substring0 (n : nat) (s : jsstring) : jsstring := take n s.

(** [s.toLowerCase()]; the source applies it to the ASCII field names only,
    and on ASCII it maps [A-Z] to [a-z]. *)
Definition toLowerUnit (c : N) : N :=
  if (65 <=? c) && (c <=? 90) then c + 32 else c.
Definition toLowerCase (s : jsstring) : jsstring := List.map toLowerUnit s.

(** ** Regular expressions

    The patterns of the source, as syntax trees, and a matcher by
    derivatives. None of the patterns has flags other than [g]; [^...$]
    without [m] anchors at both ends of the input. *)

Module Regex.

(** One item of a bracket expression. *)
Inductive item :=
| Range (lo hi : N)   (* a-z *)
| Single (c : N)      (* .  inside brackets *)
| ClassDigit          (* \d *)
| ClassSpace.         (* \s *)

Inductive t :=
| Empty
| Eps
| Cls (items : list item)   (* [ ... ] or a bare class escape *)
| NotDigit                  (* \D *)
| Seq (r1 r2 : t)
| Alt (r1 r2 : t)
| Star (r : t).

(** [r+] *)
Definition Plus (r : t) : t := Seq r (Star r).

(** [r{n}] *)
Fixpoint Rep (n : nat) (r : t) : t :=
  match n with
  | O => Eps
  | S n' => Seq r (Rep n' r)
  end.

Definition item_mem (c : N) (i : item) : bool :=
  match i with
  | Range lo hi => (lo <=? c) && (c <=? hi)
  | Single d => c =? d
  | ClassDigit => isDigit c
  | ClassSpace => isWhiteSpace c
  end.

Definition cls_mem (c : N) (items : list item) : bool :=
  existsb (item_mem c) items.

Fixpoint nullable (r : t) : bool :=
  match r with
  | Empty => false
  | Eps => true
  | Cls _ => false
  | NotDigit => false
  | Seq r1 r2 => nullable r1 && nullable r2
  | Alt r1 r2 => nullable r1 || nullable r2
  | Star _ => true
  end.

Fixpoint deriv (c : N) (r : t) : t :=
  match r with
  | Empty => Empty
  | Eps => Empty
  | Cls items => if cls_mem c items then Eps else Empty
  | NotDigit => if isDigit c then Empty else Eps
  | Seq r1 r2 =>
      if nullable r1 then Alt (Seq (deriv c r1) r2) (deriv c r2)
      else Seq (deriv c r1) r2
  | Alt r1 r2 => Alt (deriv c r1) (deriv c r2)
  | Star r1 => Seq (deriv c r1) (Star r1)
  end.

(** [/^r$/.test(s)] *)
Fixpoint test (r : t) (s : jsstring) : bool :=
  match s with
  | [] => nullable r
  | c :: s' => test (deriv c r) s'
  end.

(** The words of a pattern, independently of the matcher. *)
Inductive lang : t -> jsstring -> Prop :=
| L_eps : lang Eps []
| L_cls items c : cls_mem c items = true -> lang (Cls items) [c]
| L_notdigit c : isDigit c = false -> lang NotDigit [c]
| L_seq r1 r2 s1 s2 : lang r1 s1 -> lang r2 s2 -> lang (Seq r1 r2) (s1 ++ s2)
| L_alt_l r1 r2 s : lang r1 s -> lang (Alt r1 r2) s
| L_alt_r r1 r2 s : lang r2 s -> lang (Alt r1 r2) s
| L_star_nil r : lang (Star r) []
| L_star_cons r s1 s2 : lang r s1 -> lang (Star r) s2 -> lang (Star r) (s1 ++ s2).

(** [s.replace(/r/g, repl)] for a pattern [r] that matches single code
    units: every matching unit is replaced, the others are kept. [repl]
    receives the matched unit, which is also capture group 1 of
    [/([A-Z])/]. *)
Definition replaceUnits (r : t) (repl : N -> jsstring) (s : jsstring) : jsstring :=
  flat_map (fun c => if test r [c] then repl c else [c]) s.

End Regex.

(** ** Form validation (class [FormValidator]) *)

Module FormValidator.
Import Regex.

(** [/^[6-9]\d{9}$/] *)
Definition PHONE_REGEX : Regex.t :=
  Seq (Cls [Range 54 57]) (Rep 9 (Cls [ClassDigit])).

(** [/^[a-zA-Z\s.]+$/] *)
Definition NAME_REGEX : Regex.t :=
  Plus (Cls [Range 97 122; Range 65 90; ClassSpace; Single 46]).

Definition msgNameRequired := js "Name is required".
Definition msgNameShort := js "Name must be at least 2 characters".
Definition msgNameChars := js "Name can only contain letters, spaces, and periods".
Definition msgPhoneRequired := js "Phone number is required".
Definition msgPhoneInvalid := js "Please enter a valid 10-digit Indian mobile number".

Definition validateName (name : jsstring) : jsstring :=
  let trimmedName := trim name in
  if (jslength trimmedName =? 0)%Z then msgNameRequired
  else if (jslength trimmedName <? 2)%Z then msgNameShort
  else if negb (test NAME_REGEX trimmedName) then msgNameChars
  else js "".

(** [phone.replace(/\D/g, '')] *)
Definition stripNonDigits (phone : jsstring) : jsstring :=
  replaceUnits NotDigit (fun _ => js "") phone.

Definition validatePhone (phone : jsstring) : jsstring :=
  let cleanPhone := stripNonDigits phone in
  if (jslength cleanPhone =? 0)%Z then msgPhoneRequired
  else if negb (test PHONE_REGEX cleanPhone) then msgPhoneInvalid
  else js "".


(** *** Dates

    A time value is a number of milliseconds since the epoch, [None] is
    NaN (an invalid Date). The abstract operations are those of ECMAScript's Date
    objects; the local time zone adjustment is taken constant. *)

Definition msPerDay : Z := 86400000.
Definition Day (t : Z) : Z := (t / msPerDay)%Z.
Definition WeekDay (t : Z) : Z := ((Day t + 4) mod 7)%Z.
Definition DayFromYear (y : Z) : Z :=
  (365 * (y - 1970) + (y - 1969) / 4 - (y - 1901) / 100 + (y - 1601) / 400)%Z.
Definition InLeapYear (y : Z) : bool :=
  ((y mod 4 =? 0) && (negb (y mod 100 =? 0) || (y mod 400 =? 0)))%Z.
Definition DaysInMonth (y m : Z) : Z :=
  (if m =? 2 then (if InLeapYear y then 29 else 28)
   else if (m =? 4) || (m =? 6) || (m =? 9) || (m =? 11) then 30 else 31)%Z.
(** Days of the year before the first of month [m] (1 to 12). *)
Definition daysBeforeMonth (y m : Z) : Z :=
  fold_left (fun acc k => (acc + DaysInMonth y (Z.of_nat k))%Z)
            (seq 1 (Z.to_nat (m - 1))) 0%Z.
(** [MakeDay(y, m - 1, d)] for a calendar date. *)
Definition MakeDay (y m d : Z) : Z :=
  (DayFromYear y + daysBeforeMonth y m + d - 1)%Z.

Definition digitVal (c : N) : Z := (Z.of_N c - 48)%Z.

(** The day number of a string in the date-only form [YYYY-MM-DD] of the
    Date Time String Format, when it names a calendar date. *)
Definition isoDateOnly (s : jsstring) : option Z :=
  match s with
  | [y1; y2; y3; y4; 45; m1; m2; 45; d1; d2] =>
      if forallb isDigit [y1; y2; y3; y4; m1; m2; d1; d2] then
        let y := (1000 * digitVal y1 + 100 * digitVal y2 + 10 * digitVal y3 + digitVal y4)%Z in
        let m := (10 * digitVal m1 + digitVal m2)%Z in
        let d := (10 * digitVal d1 + digitVal d2)%Z in
        if ((1 <=? m) && (m <=? 12) && (1 <=? d) && (d <=? DaysInMonth y m))%Z
        then Some (MakeDay y m d) else None
      else None
  | _ => None
  end.

(** What the validators read from the browser: the clock, the offset of
    local time from UTC in milliseconds, and the parts of the built-ins
    that ECMAScript leaves to the implementation. *)
Record Env := mkEnv {
  now : Z;                                  (* new Date() *)
  LocalTZA : Z;                             (* local time = UTC + LocalTZA *)
  parseOther : jsstring -> option Z;        (* Date.parse outside YYYY-MM-DD *)
  toLocaleDateString : option Z -> jsstring;(* date.toLocaleDateString('en-IN', ...) *)
  toISODate : Z -> jsstring;                (* new Date(t).toISOString().split('T')[0] *)
  inherited : jsstring -> option jsstring   (* `${({})[key]}` for a key of Object.prototype *)
}.

(** [new Date(dateString)]: a date-only string is UTC midnight of that day. *)
Definition newDate (env : Env) (s : jsstring) : option Z :=
  match isoDateOnly s with
  | Some d => Some (d * msPerDay)%Z
  | None => parseOther env s
  end.

(** [d.setHours(0, 0, 0, 0)]: midnight of the local day of [t]. *)
Definition setHours0 (env : Env) (t : Z) : Z :=
  (Day (t + LocalTZA env) * msPerDay - LocalTZA env)%Z.

(** [d.getDay()]: the weekday of the local time, NaN for an invalid Date. *)
Definition getDay (env : Env) (d : option Z) : option Z :=
  match d with
  | Some t => Some (WeekDay (t + LocalTZA env))
  | None => None
  end.

(** [a < b] on Dates: false as soon as one side is NaN. *)
Definition dateLt (a b : option Z) : bool :=
  match a, b with
  | Some x, Some y => (x <? y)%Z
  | _, _ => false
  end.

(** [n === 0] *)
Definition isZero (n : option Z) : bool :=
  match n with
  | Some z => (z =? 0)%Z
  | None => false
  end.

Definition msgDatePast := js "Please select a future date".
Definition msgDateSunday := js "Sundays are by appointment only - please call to schedule".

Definition validateDate (env : Env) (dateString : jsstring) : jsstring :=
  match dateString with
  | [] => js ""
  | _ =>
      let selectedDate := newDate env dateString in
      let today := setHours0 env (now env) in
      if dateLt selectedDate (Some today) then msgDatePast
      else
        let dayOfWeek := getDay env selectedDate in
        if isZero dayOfWeek then msgDateSunday
        else js ""
  end.

(** *** The form record and its validation *)

Record AppointmentFormData := mkFormData {
  patientName : jsstring;
  phoneNumber : jsstring;
  serviceType : jsstring;
  preferredDate : jsstring;
  preferredTime : jsstring;
  message : jsstring
}.

(** [errors] is an object used as a map; its keys keep insertion order. *)
Record ValidationResult := mkResult {
  isValid : bool;
  errors : list (jsstring * jsstring)
}.

(** [!errors[key]] : the empty string is the only falsy string. *)
Definition isEmptyString (s : jsstring) : bool :=
  match s with [] => true | _ => false end.

Definition validateForm (env : Env) (formData : AppointmentFormData) : ValidationResult :=
  let errors0 :=
    [ (js "patientName", validateName (patientName formData));
      (js "phoneNumber", validatePhone (phoneNumber formData));
      (js "preferredDate", validateDate env (preferredDate formData)) ] in
  let errors1 := List.filter (fun kv => negb (isEmptyString (snd kv))) errors0 in
  {| isValid := Nat.eqb (length errors1) 0; errors := errors1 |}.

End FormValidator.

(** ** The page

    The document is the list of its elements in tree order; an element is
    referred to by its position, which never changes: the code adds and
    removes no element that carries an id or a class it queries. The
    fields are the properties the code reads or writes. *)

Module DOM.

Record Element := mkElement {
  el_id : jsstring;                       (* [] : no id *)
  el_parent : option nat;                 (* parentElement *)
  el_classes : list jsstring;             (* classList *)
  el_text : jsstring;                     (* textContent *)
  el_attrs : list (jsstring * jsstring);  (* attributes set by the code *)
  el_style : list (jsstring * jsstring);  (* inline style properties *)
  el_name : jsstring;                     (* name of a form control *)
  el_control : bool;                      (* a control of #appointmentForm that
                                             contributes an entry to FormData *)
  el_value : jsstring;                    (* its value *)
  el_default : jsstring;                  (* the value form.reset() restores *)
  el_scrollHeight : Z
}.

(** The two links of the dialog [showContactOptions] appends to the body.
    Both are percent-encoded after their fixed prefix, so the [href]
    attributes written through [innerHTML] hold them unchanged. *)
Record ContactOptions := mkContactOptions {
  whatsappHref : jsstring;
  emailHref : jsstring
}.

Record ToastManager := mkToastManager {
  toastElement : option nat;
  messageElement : option nat;
  closeButton : option nat
}.

Record AppointmentForm := mkAppointmentForm {
  form : option nat;
  toastManager : ToastManager
}.

Record MobileNavigation := mkMobileNavigation {
  navToggle : option nat;
  navMenu : option nat
}.

(** The field names [validateField] is registered with. *)
Inductive FieldName := FPatientName | FPhoneNumber | FPreferredDate.

(** The callbacks the controllers register, each with the [this] it closes over. *)
Inductive Handler :=
| HToastHide (tm : ToastManager)
| HSubmit (self : AppointmentForm)
| HValidateField (self : AppointmentForm) (field : FieldName)
| HFormatPhone (self : AppointmentForm)
| HToggleMenu (self : MobileNavigation)
| HCloseMenu (self : MobileNavigation)
| HOutsideClick (self : MobileNavigation)
| HScroll (mobileCTA : option nat)
| HResize (mobileCTA : option nat)
| HToggleFAQ (faqQuestions : list nat).

Inductive Target := OnElement (i : nat) | OnWindow | OnDocument.

Record Listener := mkListener {
  l_target : Target;
  l_type : jsstring;
  l_handler : Handler
}.

Record Page := mkPage {
  elements : list Element;
  activeElement : option nat;              (* document.activeElement *)
  overlays : list ContactOptions;          (* dialogs appended to document.body *)
  timers : list (Z * Handler);             (* pending setTimeout callbacks *)
  listeners : list Listener;               (* addEventListener registrations *)
  toastInstance : option ToastManager;     (* ToastManager.instance *)
  lastScrollY : Z;                         (* MobileCTAController.lastScrollY *)
  innerWidth : Z;                          (* window.innerWidth *)
  innerHeight : Z;
  scrollY : Z;
  bodyOffsetHeight : Z                     (* document.body.offsetHeight *)
}.

Definition withElements (els : list Element) (pg : Page) : Page :=
  mkPage els (activeElement pg) (overlays pg) (timers pg) (listeners pg)
         (toastInstance pg) (lastScrollY pg) (innerWidth pg) (innerHeight pg)
         (scrollY pg) (bodyOffsetHeight pg).
Definition withActiveElement (a : option nat) (pg : Page) : Page :=
  mkPage (elements pg) a (overlays pg) (timers pg) (listeners pg)
         (toastInstance pg) (lastScrollY pg) (innerWidth pg) (innerHeight pg)
         (scrollY pg) (bodyOffsetHeight pg).
Definition withOverlays (o : list ContactOptions) (pg : Page) : Page :=
  mkPage (elements pg) (activeElement pg) o (timers pg) (listeners pg)
         (toastInstance pg) (lastScrollY pg) (innerWidth pg) (innerHeight pg)
         (scrollY pg) (bodyOffsetHeight pg).
Definition withTimers (t : list (Z * Handler)) (pg : Page) : Page :=
  mkPage (elements pg) (activeElement pg) (overlays pg) t (listeners pg)
         (toastInstance pg) (lastScrollY pg) (innerWidth pg) (innerHeight pg)
         (scrollY pg) (bodyOffsetHeight pg).
Definition withListeners (l : list Listener) (pg : Page) : Page :=
  mkPage (elements pg) (activeElement pg) (overlays pg) (timers pg) l
         (toastInstance pg) (lastScrollY pg) (innerWidth pg) (innerHeight pg)
         (scrollY pg) (bodyOffsetHeight pg).
Definition withToastInstance (t : option ToastManager) (pg : Page) : Page :=
  mkPage (elements pg) (activeElement pg) (overlays pg) (timers pg) (listeners pg)
         t (lastScrollY pg) (innerWidth pg) (innerHeight pg)
         (scrollY pg) (bodyOffsetHeight pg).
Definition withLastScrollY (y : Z) (pg : Page) : Page :=
  mkPage (elements pg) (activeElement pg) (overlays pg) (timers pg) (listeners pg)
         (toastInstance pg) y (innerWidth pg) (innerHeight pg)
         (scrollY pg) (bodyOffsetHeight pg).

(** Element setters. *)
Definition setClasses (c : list jsstring) (e : Element) : Element :=
  mkElement (el_id e) (el_parent e) c (el_text e) (el_attrs e) (el_style e)
            (el_name e) (el_control e) (el_value e) (el_default e) (el_scrollHeight e).
Definition setText (t : jsstring) (e : Element) : Element :=
  mkElement (el_id e) (el_parent e) (el_classes e) t (el_attrs e) (el_style e)
            (el_name e) (el_control e) (el_value e) (el_default e) (el_scrollHeight e).
Definition setAttrs (a : list (jsstring * jsstring)) (e : Element) : Element :=
  mkElement (el_id e) (el_parent e) (el_classes e) (el_text e) a (el_style e)
            (el_name e) (el_control e) (el_value e) (el_default e) (el_scrollHeight e).
Definition setStyles (st : list (jsstring * jsstring)) (e : Element) : Element :=
  mkElement (el_id e) (el_parent e) (el_classes e) (el_text e) (el_attrs e) st
            (el_name e) (el_control e) (el_value e) (el_default e) (el_scrollHeight e).
Definition setValue (v : jsstring) (e : Element) : Element :=
  mkElement (el_id e) (el_parent e) (el_classes e) (el_text e) (el_attrs e) (el_style e)
            (el_name e) (el_control e) v (el_default e) (el_scrollHeight e).

Definition streq (a b : jsstring) : bool := bool_decide (a = b).

(** Association lists for attributes, style properties and object literals. *)
Fixpoint assoc {A} (k : jsstring) (l : list (jsstring * A)) : option A :=
  match l with
  | [] => None
  | (k', v) :: t => if streq k k' then Some v else assoc k t
  end.
Fixpoint assocSet {A} (k : jsstring) (v : A) (l : list (jsstring * A)) : list (jsstring * A) :=
  match l with
  | [] => [(k, v)]
  | (k', v') :: t => if streq k k' then (k, v) :: t else (k', v') :: assocSet k v t
  end.

Fixpoint findIndex {A} (p : A -> bool) (l : list A) : option nat :=
  match l with
  | [] => None
  | x :: t => if p x then Some O else option_map S (findIndex p t)
  end.

(** The positions of the elements that satisfy [p], in tree order. *)
Fixpoint indicesFrom {A} (p : A -> bool) (k : nat) (l : list A) : list nat :=
  match l with
  | [] => []
  | x :: t => if p x then k :: indicesFrom p (S k) t else indicesFrom p (S k) t
  end.

Definition updateElement (i : nat) (f : Element -> Element) (pg : Page) : Page :=
  withElements (alter f i (elements pg)) pg.

Definition elemHasClass (cls : jsstring) (e : Element) : bool :=
  existsb (streq cls) (el_classes e).

(** [document.getElementById(id)] *)
Definition getElementById (pg : Page) (id : jsstring) : option nat :=
  match id with
  | [] => None
  | _ => findIndex (fun e => streq (el_id e) id) (elements pg)
  end.

(** [document.querySelectorAll('.' + cls)] *)
Definition querySelectorAll (pg : Page) (cls : jsstring) : list nat :=
  indicesFrom (elemHasClass cls) O (elements pg).

(** [classList.add], [classList.remove], [classList.toggle], [classList.contains] *)
Definition classAdd (cls : jsstring) (e : Element) : Element :=
  if elemHasClass cls e then e else setClasses (el_classes e ++ [cls]) e.
Definition classRemove (cls : jsstring) (e : Element) : Element :=
  setClasses (List.filter (fun c => negb (streq cls c)) (el_classes e)) e.
Definition classToggle (cls : jsstring) (e : Element) : Element :=
  if elemHasClass cls e then classRemove cls e else classAdd cls e.

Definition addClass (i : nat) (cls : jsstring) (pg : Page) : Page :=
  updateElement i (classAdd cls) pg.
Definition removeClass (i : nat) (cls : jsstring) (pg : Page) : Page :=
  updateElement i (classRemove cls) pg.
Definition toggleClass (i : nat) (cls : jsstring) (pg : Page) : Page :=
  updateElement i (classToggle cls) pg.
Definition hasClass (pg : Page) (i : nat) (cls : jsstring) : bool :=
  match elements pg !! i with
  | Some e => elemHasClass cls e
  | None => false
  end.

Definition setTextContent (i : nat) (t : jsstring) (pg : Page) : Page :=
  updateElement i (setText t) pg.
Definition setAttribute (i : nat) (k v : jsstring) (pg : Page) : Page :=
  updateElement i (fun e => setAttrs (assocSet k v (el_attrs e)) e) pg.
Definition getAttribute (pg : Page) (i : nat) (k : jsstring) : option jsstring :=
  match elements pg !! i with
  | Some e => assoc k (el_attrs e)
  | None => None
  end.
Definition setStyle (i : nat) (k v : jsstring) (pg : Page) : Page :=
  updateElement i (fun e => setStyles (assocSet k v (el_style e)) e) pg.
Definition getStyle (pg : Page) (i : nat) (k : jsstring) : option jsstring :=
  match elements pg !! i with
  | Some e => assoc k (el_style e)
  | None => None
  end.
Definition textContent (pg : Page) (i : nat) : option jsstring :=
  el_text <$> elements pg !! i.
Definition valueOf (pg : Page) (i : nat) : option jsstring :=
  el_value <$> elements pg !! i.

Definition addEventListener (tg : Target) (type : jsstring) (h : Handler) (pg : Page) : Page :=
  withListeners (listeners pg ++ [mkListener tg type h]) pg.
Definition setTimeout (h : Handler) (delay : Z) (pg : Page) : Page :=
  withTimers (timers pg ++ [(delay, h)]) pg.

(** [anc.contains(i)]: [i] is [anc] or one of its descendants. *)
Fixpoint containsFuel (fuel : nat) (pg : Page) (anc i : nat) : bool :=
  Nat.eqb anc i ||
  match fuel with
  | O => false
  | S fuel' =>
      match elements pg !! i with
      | Some e =>
          match el_parent e with
          | Some p => containsFuel fuel' pg anc p
          | None => false
          end
      | None => false
      end
  end.
Definition contains (pg : Page) (anc i : nat) : bool :=
  containsFuel (length (elements pg)) pg anc i.

(** [elements[root].querySelector('.' + cls)]: the first proper
    descendant of [root] with the class. *)
Definition querySelectorIn (pg : Page) (root : nat) (cls : jsstring) : option nat :=
  List.find (fun i => negb (Nat.eqb i root) && contains pg root i)
            (querySelectorAll pg cls).

(** [elements[root].querySelectorAll('.' + cls)] *)
Definition querySelectorAllIn (pg : Page) (root : nat) (cls : jsstring) : list nat :=
  List.filter (fun i => negb (Nat.eqb i root) && contains pg root i)
              (querySelectorAll pg cls).

Definition parentElement (pg : Page) (i : nat) : option nat :=
  match elements pg !! i with
  | Some e => el_parent e
  | None => None
  end.

End DOM.

(** ** Percent-encoding and scalar-value strings *)

Module URI.

Definition isHighSurrogate (c : N) : bool := (55296 <=? c) && (c <=? 56319).
Definition isLowSurrogate (c : N) : bool := (56320 <=? c) && (c <=? 57343).

(** The units [encodeURIComponent] leaves alone:
    letters, digits and [- _ . ! ~ * ' ( )]. *)
Definition isUnescaped (c : N) : bool :=
  ((97 <=? c) && (c <=? 122)) || ((65 <=? c) && (c <=? 90)) || isDigit c
  || (c =? 45) || (c =? 95) || (c =? 46) || (c =? 33) || (c =? 126)
  || (c =? 42) || (c =? 39) || (c =? 40) || (c =? 41).

Definition hexDigit (n : N) : N := if n <? 10 then 48 + n else 55 + n.
(** [%XX] for one octet. *)
Definition pct (b : N) : jsstring := [37; hexDigit (b / 16); hexDigit (b mod 16)].

Definition utf8 (cp : N) : list N :=
  if cp <? 128 then [cp]
  else if cp <? 2048 then [192 + cp / 64; 128 + cp mod 64]
  else if cp <? 65536 then [224 + cp / 4096; 128 + (cp / 64) mod 64; 128 + cp mod 64]
  else [240 + cp / 262144; 128 + (cp / 4096) mod 64; 128 + (cp / 64) mod 64; 128 + cp mod 64].

Definition escape (cp : N) : jsstring := flat_map pct (utf8 cp).

Definition codePoint (hi lo : N) : N := (hi - 55296) * 1024 + (lo - 56320) + 65536.

(** [encodeURIComponent(s)]; [None] is the URIError it throws on a lone
    surrogate. *)
Fixpoint encodeURIComponent (s : jsstring) : option jsstring :=
  match s with
  | [] => Some []
  | c :: rest =>
      if isUnescaped c then option_map (cons c) (encodeURIComponent rest)
      else if isHighSurrogate c then
        match rest with
        | l :: rest' =>
            if isLowSurrogate l
            then option_map (app (escape (codePoint c l))) (encodeURIComponent rest')
            else None
        | [] => None
        end
      else if isLowSurrogate c then None
      else option_map (app (escape c)) (encodeURIComponent rest)
  end.

(** Conversion to a scalar value string, which [FormData] applies to
    every entry value: a lone surrogate becomes U+FFFD. *)
Fixpoint toUSV (s : jsstring) : jsstring :=
  match s with
  | [] => []
  | c :: rest =>
      if isHighSurrogate c then
        match rest with
        | l :: rest' =>
            if isLowSurrogate l then c :: l :: toUSV rest'
            else 65533 :: toUSV rest
        | [] => [65533]
        end
      else if isLowSurrogate c then 65533 :: toUSV rest
      else c :: toUSV rest
  end.

(** [needle] occurs in [hay]. *)
Definition includes (needle hay : jsstring) : Prop :=
  exists pre post, hay = pre ++ needle ++ post.

End URI.

(** ** Results of code that may throw *)

Inductive outcome (A : Type) : Type :=
| Done (a : A)
| Throw (e : jsstring).
Arguments Done {A} a.
Arguments Throw {A} e.

Definition bind {A B} (m : outcome A) (k : A -> outcome B) : outcome B :=
  match m with
  | Done a => k a
  | Throw e => Throw e
  end.

Notation "'try!' x ':=' m 'in' k" := (bind m (fun x => k))
  (at level 10, x name, m at level 100, k at level 200).

(** An event as the handlers use it. *)
Record Event := mkEvent {
  target : nat;                 (* e.target, an element *)
  currentTarget : DOM.Target;   (* where the running listener was added *)
  defaultPrevented : bool
}.

Definition preventDefault (e : Event) : Event :=
  mkEvent (target e) (currentTarget e) true.

(** ** Toast notifications (class [ToastManager]) *)

Module Toast.
Import DOM.

Inductive ToastType := success | error | info.

Record ToastOptions := mkToastOptions {
  t_message : jsstring;
  t_type : ToastType;
  t_duration : option Z
}.

Definition initializeToast (pg : Page) : ToastManager * Page :=
  let tm := mkToastManager (getElementById pg (js "toast"))
                           (getElementById pg (js "toastMessage"))
                           (getElementById pg (js "toastClose")) in
  match closeButton tm with
  | Some b => (tm, addEventListener (OnElement b) (js "click") (HToastHide tm) pg)
  | None => (tm, pg)
  end.

(** [ToastManager.getInstance()] *)
Definition getInstance (pg : Page) : ToastManager * Page :=
  match toastInstance pg with
  | Some tm => (tm, pg)
  | None =>
      let '(tm, pg') := initializeToast pg in
      (tm, withToastInstance (Some tm) pg')
  end.

Definition hide (tm : ToastManager) (pg : Page) : Page :=
  match toastElement tm with
  | Some te => removeClass te (js "show") pg
  | None => pg
  end.

Definition show (tm : ToastManager) (options : ToastOptions) (pg : Page) : Page :=
  match toastElement tm, messageElement tm with
  | Some te, Some me =>
      let pg1 := setTextContent me (t_message options) pg in
      let pg2 := setStyle te (js "background")
                   (match t_type options with
                    | error => js "var(--color-error)"
                    | _ => js "var(--color-success)"
                    end) pg1 in
      let pg3 := addClass te (js "show") pg2 in
      (* options.duration || 5000 *)
      let duration := match t_duration options with
                      | Some d => if (d =? 0)%Z then 5000%Z else d
                      | None => 5000%Z
                      end in
      setTimeout (HToastHide tm) duration pg3
  | _, _ => pg
  end.

End Toast.

(** ** The appointment form (class [AppointmentForm]) *)

Module Appointment.
Import DOM FormValidator URI.

Definition fieldKey (f : FieldName) : jsstring :=
  match f with
  | FPatientName => js "patientName"
  | FPhoneNumber => js "phoneNumber"
  | FPreferredDate => js "preferredDate"
  end.

(** [`${field.replace(/([A-Z])/g, '$1').toLowerCase()}Error`] *)
Definition errorElementId (field : jsstring) : jsstring :=
  toLowerCase (Regex.replaceUnits (Regex.Cls [Regex.Range 65 90]) (fun c => [c]) field)
  ++ js "Error".

(** [phoneInput]'s input listener; [e.target] is the input. *)
Definition formatPhoneValue (v : jsstring) : jsstring :=
  let value := stripNonDigits v in
  if (jslength value >? 10)%Z then substring0 10 value else value.

Definition formatPhoneInput (e : Event) (pg : Page) : Page :=
  updateElement (target e) (fun input => setValue (formatPhoneValue (el_value input)) input) pg.

(** [formData.get(name)]: the value of the first entry of that name, as a
    scalar value string; [None] is null. *)
Definition formDataGet (pg : Page) (name : jsstring) : option jsstring :=
  match List.find (fun e => el_control e && streq (el_name e) name) (elements pg) with
  | Some e => Some (toUSV (el_value e))
  | None => None
  end.

(** [(v as string) || ''] *)
Definition orEmpty (v : option jsstring) : jsstring :=
  match v with Some x => x | None => js "" end.

Definition readFields (pg : Page) : AppointmentFormData :=
  {| patientName := orEmpty (formDataGet pg (js "patientName"));
     phoneNumber := orEmpty (formDataGet pg (js "phoneNumber"));
     serviceType := orEmpty (formDataGet pg (js "serviceType"));
     preferredDate := orEmpty (formDataGet pg (js "preferredDate"));
     preferredTime := orEmpty (formDataGet pg (js "preferredTime"));
     message := orEmpty (formDataGet pg (js "message")) |}.

Definition getFormData (self : AppointmentForm) (pg : Page) : outcome AppointmentFormData :=
  match form self with
  | None => Throw (js "Form not found")
  | Some _ => Done (readFields pg)
  end.

Definition validateField (env : Env) (self : AppointmentForm) (fieldName : FieldName)
           (pg : Page) : outcome Page :=
  try! formData := getFormData self pg in
  let validation := validateForm env formData in
  let errorElement := getElementById pg (errorElementId (fieldKey fieldName)) in
  let inputElement := getElementById pg (fieldKey fieldName) in
  match errorElement, inputElement with
  | Some ee, Some ie =>
      let error := match assoc (fieldKey fieldName) (errors validation) with
                   | Some m => m
                   | None => js ""
                   end in
      let pg1 := setTextContent ee error pg in
      Done (if isEmptyString error then removeClass ie (js "error") pg1
            else addClass ie (js "error") pg1)
  | _, _ => Done pg
  end.

Definition clearFormErrors (pg : Page) : Page :=
  let pg1 := fold_left (fun acc i => setTextContent i (js "") acc)
                       (querySelectorAll pg (js "error-message")) pg in
  fold_left (fun acc i => removeClass i (js "error") acc)
            (querySelectorAll pg1 (js "form-input")) pg1.

Definition displayError (acc : Page) (entry : jsstring * jsstring) : Page :=
  let '(field, message) := entry in
  let errorElement := getElementById acc (errorElementId field) in
  let inputElement := getElementById acc field in
  let acc1 := match errorElement with
              | Some ee => setTextContent ee message acc
              | None => acc
              end in
  match inputElement with
  | Some ie => addClass ie (js "error") acc1
  | None => acc1
  end.

Definition displayErrors (errors : list (jsstring * jsstring)) (pg : Page) : Page :=
  fold_left displayError errors pg.

Definition serviceNames : list (jsstring * jsstring) :=
  [ (js "consultation", js "General Consultation");
    (js "kansya-thali", js "Kansya Thali Massage");
    (js "panchkarma", js "Pain Management & Panchkarma");
    (js "hair-skin", js "Hair and Skin Care");
    (js "viddhkarma", js "Viddhkarma (Needle Therapy)");
    (js "cupping", js "Cupping Therapy");
    (js "weight-management", js "Weight Management");
    (js "swarnaprash", js "Swarnaprash for Kids") ].

Definition timeSlots : list (jsstring * jsstring) :=
  [ (js "morning", js "Morning (9:30 AM - 1:00 PM)");
    (js "evening", js "Evening (4:30 PM - 7:30 PM)") ].

(** [`${table[key] || key}`]: an own property first, then one inherited
    from Object.prototype (an object or a function, always truthy). *)
Definition lookupOr (env : Env) (table : list (jsstring * jsstring)) (key : jsstring) : jsstring :=
  match assoc key table with
  | Some v => if isEmptyString v then key else v
  | None =>
      match inherited env key with
      | Some rendered => rendered
      | None => key
      end
  end.

(** The text [generateEmailContent] passes to [encodeURIComponent]. *)
Definition emailText (env : Env) (formData : AppointmentFormData) : jsstring :=
  let content := js "Appointment Request from AAYURCURE Website" ++ [10; 10] in
  let content := content ++ js "Patient Name: " ++ patientName formData ++ [10] in
  let content := content ++ js "Phone Number: " ++ phoneNumber formData ++ [10] in
  let content :=
    if isEmptyString (serviceType formData) then content
    else content ++ js "Service Required: "
                 ++ lookupOr env serviceNames (serviceType formData) ++ [10] in
  let content :=
    if isEmptyString (preferredDate formData) then content
    else content ++ js "Preferred Date: "
                 ++ toLocaleDateString env (newDate env (preferredDate formData)) ++ [10] in
  let content :=
    if isEmptyString (preferredTime formData) then content
    else content ++ js "Preferred Time: "
                 ++ lookupOr env timeSlots (preferredTime formData) ++ [10] in
  let content :=
    if isEmptyString (trim (message formData)) then content
    else content ++ [10] ++ js "Additional Information:" ++ [10]
                 ++ message formData ++ [10] in
  content ++ [10] ++ js "---" ++ [10] ++ js "Submitted from: AAYURCURE Website".

Definition generateEmailContent (env : Env) (formData : AppointmentFormData) : option jsstring :=
  encodeURIComponent (emailText env formData).

(** The text [generateWhatsAppMessage] passes to [encodeURIComponent]. *)
Definition whatsAppText (formData : AppointmentFormData) : jsstring :=
  let message := js "Hello AAYURCURE, I'd like to book an appointment." ++ [10; 10] in
  let message := message ++ js "Name: " ++ patientName formData ++ [10] in
  let message := message ++ js "Phone: " ++ phoneNumber formData ++ [10] in
  let message :=
    if isEmptyString (serviceType formData) then message
    else message ++ js "Service: " ++ serviceType formData ++ [10] in
  let message :=
    if isEmptyString (preferredDate formData) then message
    else message ++ js "Date: " ++ preferredDate formData ++ [10] in
  if isEmptyString (preferredTime formData) then message
  else message ++ js "Time: " ++ preferredTime formData ++ [10].

Definition generateWhatsAppMessage (formData : AppointmentFormData) : option jsstring :=
  encodeURIComponent (whatsAppText formData).

(** The dialog with the two links; its own closing listeners change
    nothing the form reads. *)
Definition showContactOptions (emailLink whatsappLink : jsstring) (pg : Page) : Page :=
  withOverlays (overlays pg ++ [mkContactOptions whatsappLink emailLink]) pg.

(** [form.reset()]: every control of the form goes back to its default value. *)
Definition resetControl (e : Element) : Element :=
  if el_control e then setValue (el_default e) e else e.
Definition reset (pg : Page) : Page :=
  withElements (List.map resetControl (elements pg)) pg.

(** [el.focus()] *)
Definition focus (i : nat) (pg : Page) : Page := withActiveElement (Some i) pg.

Definition uriError : jsstring := js "URIError: URI malformed".

Definition orThrow {A} (o : option A) : outcome A :=
  match o with Some a => Done a | None => Throw uriError end.

Definition mailtoPrefix := js "mailto:?subject=Appointment Request - AAYURCURE&body=".
Definition whatsappPrefix := js "https://wa.me/917359171081?text=".

Definition handleSubmit (env : Env) (self : AppointmentForm) (e : Event) (pg : Page)
  : outcome (Event * Page) :=
  let e := preventDefault e in
  match form self with
  | None => Done (e, pg)
  | Some _ =>
      let pg := clearFormErrors pg in
      try! formData := getFormData self pg in
      let validation := validateForm env formData in
      if negb (isValid validation) then
        let pg := displayErrors (errors validation) pg in
        let firstErrorField := match errors validation with
                               | (k, _) :: _ => k
                               | [] => js "undefined"
                               end in
        let pg := match getElementById pg firstErrorField with
                  | Some fe => focus fe pg
                  | None => pg
                  end in
        let pg := Toast.show (toastManager self)
                    (Toast.mkToastOptions (js "Please fix the errors below") Toast.error None) pg in
        Done (e, pg)
      else
        try! emailContent := orThrow (generateEmailContent env formData) in
        try! whatsappMessage := orThrow (generateWhatsAppMessage formData) in
        let mailtoLink := mailtoPrefix ++ emailContent in
        let whatsappLink := whatsappPrefix ++ whatsappMessage in
        let pg := Toast.show (toastManager self)
                    (Toast.mkToastOptions
                       (js "Appointment request prepared! Choose your preferred contact method.")
                       Toast.success None) pg in
        let pg := showContactOptions mailtoLink whatsappLink pg in
        Done (e, reset pg)
  end.

Definition addRealTimeValidation (self : AppointmentForm) (pg : Page) : Page :=
  let nameInput := getElementById pg (js "patientName") in
  let phoneInput := getElementById pg (js "phoneNumber") in
  let dateInput := getElementById pg (js "preferredDate") in
  let pg := match nameInput with
            | Some i => addEventListener (OnElement i) (js "blur") (HValidateField self FPatientName) pg
            | None => pg
            end in
  let pg := match phoneInput with
            | Some i =>
                addEventListener (OnElement i) (js "input") (HFormatPhone self)
                  (addEventListener (OnElement i) (js "blur") (HValidateField self FPhoneNumber) pg)
            | None => pg
            end in
  match dateInput with
  | Some i => addEventListener (OnElement i) (js "change") (HValidateField self FPreferredDate) pg
  | None => pg
  end.

Definition initializeForm (env : Env) (self : AppointmentForm) (pg : Page) : Page :=
  match form self with
  | None => pg
  | Some f =>
      let pg := addEventListener (OnElement f) (js "submit") (HSubmit self) pg in
      let pg := match getElementById pg (js "preferredDate") with
                | Some d => setAttribute d (js "min") (toISODate env (now env)) pg
                | None => pg
                end in
      addRealTimeValidation self pg
  end.

(** [new AppointmentForm()] *)
Definition newAppointmentForm (env : Env) (pg : Page) : AppointmentForm * Page :=
  let form := getElementById pg (js "appointmentForm") in
  let '(tm, pg) := Toast.getInstance pg in
  let self := mkAppointmentForm form tm in
  (self, initializeForm env self pg).

End Appointment.

(** ** The FAQ accordion (class [FAQAccordion]) *)

Module FAQ.
Import DOM.

Fixpoint uintDigits (u : Decimal.uint) : jsstring :=
  match u with
  | Decimal.Nil => []
  | Decimal.D0 u' => 48 :: uintDigits u'
  | Decimal.D1 u' => 49 :: uintDigits u'
  | Decimal.D2 u' => 50 :: uintDigits u'
  | Decimal.D3 u' => 51 :: uintDigits u'
  | Decimal.D4 u' => 52 :: uintDigits u'
  | Decimal.D5 u' => 53 :: uintDigits u'
  | Decimal.D6 u' => 54 :: uintDigits u'
  | Decimal.D7 u' => 55 :: uintDigits u'
  | Decimal.D8 u' => 56 :: uintDigits u'
  | Decimal.D9 u' => 57 :: uintDigits u'
  end.

(** [String(n)] for an integer of ordinary size, as in [n + 'px']. *)
Definition numberToString (z : Z) : jsstring :=
  match Z.to_int z with
  | Decimal.Pos u => uintDigits u
  | Decimal.Neg u => 45 :: uintDigits u
  end.

Definition ariaExpanded := js "aria-expanded".

(** [button.parentElement?.querySelector('.faq-answer')] *)
Definition answerOf (pg : Page) (button : nat) : option nat :=
  match parentElement pg button with
  | Some faqItem => querySelectorIn pg faqItem (js "faq-answer")
  | None => None
  end.

Definition scrollHeight (pg : Page) (i : nat) : Z :=
  match elements pg !! i with
  | Some e => el_scrollHeight e
  | None => 0%Z
  end.

(** The body of the loop that closes the other questions. *)
Definition closeOther (button : nat) (acc : Page) (otherButton : nat) : Page :=
  if Nat.eqb otherButton button then acc
  else
    let acc1 := setAttribute otherButton ariaExpanded (js "false") acc in
    match answerOf acc1 otherButton with
    | Some otherAnswer => setStyle otherAnswer (js "maxHeight") (js "0") acc1
    | None => acc1
    end.

(** [toggleFAQ(e)] with [e.currentTarget] the clicked question. *)
Definition toggleFAQ (faqQuestions : list nat) (button : nat) (pg : Page) : Page :=
  let answer := answerOf pg button in
  let isExpanded :=
    match getAttribute pg button ariaExpanded with
    | Some v => streq v (js "true")
    | None => false
    end in
  match answer with
  | None => pg
  | Some a =>
      let pg1 := fold_left (closeOther button) faqQuestions pg in
      if isExpanded then
        setStyle a (js "maxHeight") (js "0")
                 (setAttribute button ariaExpanded (js "false") pg1)
      else
        let pg2 := setAttribute button ariaExpanded (js "true") pg1 in
        setStyle a (js "maxHeight") (numberToString (scrollHeight pg2 a) ++ js "px") pg2
  end.

(** [new FAQAccordion()] *)
Definition newFAQAccordion (pg : Page) : list nat * Page :=
  let faqQuestions := querySelectorAll pg (js "faq-question") in
  (faqQuestions,
   fold_left (fun acc q => addEventListener (OnElement q) (js "click") (HToggleFAQ faqQuestions) acc)
             faqQuestions pg).

(** The questions whose [aria-expanded] is ["true"]. *)
Definition isExpanded (pg : Page) (button : nat) : bool :=
  match getAttribute pg button ariaExpanded with
  | Some v => streq v (js "true")
  | None => false
  end.

End FAQ.

(** ** The mobile menu (class [MobileNavigation]) *)

Module Nav.
Import DOM.

Definition toggleMenu (self : MobileNavigation) (pg : Page) : Page :=
  match navToggle self, navMenu self with
  | Some t, Some m => toggleClass t (js "active") (toggleClass m (js "active") pg)
  | _, _ => pg
  end.

Definition closeMenu (self : MobileNavigation) (pg : Page) : Page :=
  match navToggle self, navMenu self with
  | Some t, Some m => removeClass t (js "active") (removeClass m (js "active") pg)
  | _, _ => pg
  end.

(** The document click listener; [x?.contains(t)] of an absent [x] is
    undefined, and its negation true. *)
Definition outsideClick (self : MobileNavigation) (e : Event) (pg : Page) : Page :=
  let inMenu := match navMenu self with
                | Some m => contains pg m (target e)
                | None => false
                end in
  let inToggle := match navToggle self with
                  | Some t => contains pg t (target e)
                  | None => false
                  end in
  if negb inMenu && negb inToggle then closeMenu self pg else pg.

Definition initializeMobileNav (self : MobileNavigation) (pg : Page) : Page :=
  match navToggle self, navMenu self with
  | Some t, Some m =>
      let pg := addEventListener (OnElement t) (js "click") (HToggleMenu self) pg in
      let pg := fold_left (fun acc l => addEventListener (OnElement l) (js "click") (HCloseMenu self) acc)
                          (querySelectorAllIn pg m (js "nav-link")) pg in
      addEventListener OnDocument (js "click") (HOutsideClick self) pg
  | _, _ => pg
  end.

(** [new MobileNavigation()] *)
Definition newMobileNavigation (pg : Page) : MobileNavigation * Page :=
  let self := mkMobileNavigation (getElementById pg (js "navToggle"))
                                 (getElementById pg (js "navMenu")) in
  (self, initializeMobileNav self pg).

End Nav.

(** ** The call-to-action bar (class [MobileCTAController])

    Pixel measures are taken as integers. *)

Module CTA.
Import DOM.

Definition handleResize (mobileCTA : option nat) (pg : Page) : Page :=
  match mobileCTA with
  | None => pg
  | Some c =>
      if (innerWidth pg >? 768)%Z then setStyle c (js "display") (js "none") pg
      else setStyle c (js "display") (js "grid") pg
  end.

Definition showCTA (mobileCTA : option nat) (pg : Page) : Page :=
  match mobileCTA with
  | Some c =>
      if (innerWidth pg <=? 768)%Z then setStyle c (js "transform") (js "translateY(0)") pg
      else pg
  | None => pg
  end.

Definition hideCTA (mobileCTA : option nat) (pg : Page) : Page :=
  match mobileCTA with
  | Some c =>
      if (innerWidth pg <=? 768)%Z then setStyle c (js "transform") (js "translateY(100%)") pg
      else pg
  | None => pg
  end.

Definition handleScroll (mobileCTA : option nat) (pg : Page) : Page :=
  let currentScrollY := scrollY pg in
  let isScrollingDown := (currentScrollY >? lastScrollY pg)%Z in
  let isAtBottom := (innerHeight pg + currentScrollY >=? bodyOffsetHeight pg - 100)%Z in
  let pg1 :=
    if (innerWidth pg <=? 768)%Z then
      if isScrollingDown && negb isAtBottom then hideCTA mobileCTA pg
      else showCTA mobileCTA pg
    else pg in
  withLastScrollY currentScrollY pg1.

Definition initializeCTAController (mobileCTA : option nat) (pg : Page) : Page :=
  match mobileCTA with
  | None => pg
  | Some _ =>
      let pg := addEventListener OnWindow (js "scroll") (HScroll mobileCTA) pg in
      let pg := addEventListener OnWindow (js "resize") (HResize mobileCTA) pg in
      handleResize mobileCTA pg
  end.

(** [new MobileCTAController()]; the field [lastScrollY] starts at 0. *)
Definition newMobileCTAController (pg : Page) : option nat * Page :=
  let mobileCTA := getElementById pg (js "mobileCta") in
  (mobileCTA, initializeCTAController mobileCTA (withLastScrollY 0 pg)).

End CTA.

(** ** Running the registered listeners *)

Module Events.
Import DOM.

Definition typeError : jsstring := js "TypeError".

Definition runHandler (env : FormValidator.Env) (h : Handler) (e : Event) (pg : Page)
  : outcome (Event * Page) :=
  match h with
  | HToastHide tm => Done (e, Toast.hide tm pg)
  | HSubmit self => Appointment.handleSubmit env self e pg
  | HValidateField self field =>
      try! pg' := Appointment.validateField env self field pg in Done (e, pg')
  | HFormatPhone _ => Done (e, Appointment.formatPhoneInput e pg)
  | HToggleMenu self => Done (e, Nav.toggleMenu self pg)
  | HCloseMenu self => Done (e, Nav.closeMenu self pg)
  | HOutsideClick self => Done (e, Nav.outsideClick self e pg)
  | HScroll c => Done (e, CTA.handleScroll c pg)
  | HResize c => Done (e, CTA.handleResize c pg)
  | HToggleFAQ qs =>
      match currentTarget e with
      | OnElement b => Done (e, FAQ.toggleFAQ qs b pg)
      | _ => Throw typeError
      end
  end.

Definition targetEqb (a b : Target) : bool :=
  match a, b with
  | OnElement i, OnElement j => Nat.eqb i j
  | OnWindow, OnWindow => true
  | OnDocument, OnDocument => true
  | _, _ => false
  end.

Fixpoint runListeners (env : FormValidator.Env) (ls : list Listener) (tg : Target)
         (type : jsstring) (e : Event) (pg : Page) : outcome (Event * Page) :=
  match ls with
  | [] => Done (e, pg)
  | l :: rest =>
      if targetEqb (l_target l) tg && streq (l_type l) type then
        try! r := runHandler env (l_handler l) (mkEvent (target e) tg (defaultPrevented e)) pg in
        runListeners env rest tg type (fst r) (snd r)
      else runListeners env rest tg type e pg
  end.

(** An event of [type] reaching [tg]: the listeners registered there run
    in the order they were added. The run is followed up to the first
    exception: [Throw] says that a listener raised it. The browser reports
    such an exception and goes on with the listeners that remain; what
    they do is not followed here, so only a result [Done] describes the
    whole dispatch. *)
Definition dispatchEvent (env : FormValidator.Env) (tg : Target) (type : jsstring)
           (e : Event) (pg : Page) : outcome (Event * Page) :=
  runListeners env (listeners pg) tg type e pg.

End Events.

(** ** Start-up (from [AayurcureApp.setup]) *)

(** The three constructors of [setup] whose controllers guard on an element
    of the page, in the order of the source; the first creates the
    [ToastManager] through [getInstance]. *)
Definition setupControllers (env : FormValidator.Env) (pg : DOM.Page) : DOM.Page :=
  let '(_, pg1) := Appointment.newAppointmentForm env pg in
  let '(_, pg2) := Nav.newMobileNavigation pg1 in
  let '(_, pg3) := CTA.newMobileCTAController pg2 in
  pg3.

(** ** Vocabulary of the properties *)

(** The letters [a-z] and [A-Z]. *)
Definition isLetter (c : N) : bool :=
  ((97 <=? c) && (c <=? 122)) || ((65 <=? c) && (c <=? 90)).

(** A letter, a white-space character or a period: the units [a-zA-Z\s.]
    accepts. *)
Definition nameChar (c : N) : bool :=
  isLetter c || isWhiteSpace c || (c =? 46).

(** Neither the first nor the last unit of [s] is white space. *)
Definition trimmed (s : jsstring) : bool :=
  match s with
  | [] => true
  | c :: _ => negb (isWhiteSpace c)
  end
  && match rev s with
     | [] => true
     | c :: _ => negb (isWhiteSpace c)
     end.

(** A ten-digit number that starts with 6, 7, 8 or 9. *)
Definition mobileNumber (s : jsstring) : Prop :=
  exists c t, s = c :: t /\ 54 <= c <= 57 /\ length t = 9%nat
              /\ forallb isDigit t = true.

(** What a form control is and holds; none of it is touched by the
    handlers that only display messages. *)
Definition fieldsOf (e : DOM.Element) : jsstring * jsstring * bool * jsstring * jsstring :=
  (DOM.el_id e, DOM.el_name e, DOM.el_control e, DOM.el_value e, DOM.el_default e).

Definition formState (pg : DOM.Page) : list (jsstring * jsstring * bool * jsstring * jsstring) :=
  List.map fieldsOf (DOM.elements pg).

(** [pg'] has the same elements as [pg] up to the properties [g] forgets. *)
Definition keeps {B} (g : DOM.Element -> B) (pg pg' : DOM.Page) : Prop :=
  List.map g (DOM.elements pg') = List.map g (DOM.elements pg).

(** The controller holds the elements its constructor finds on the page. *)
Definition boundTo (self : DOM.AppointmentForm) (pg : DOM.Page) : Prop :=
  DOM.form self = DOM.getElementById pg (js "appointmentForm")
  /\ DOM.toastElement (DOM.toastManager self) = DOM.getElementById pg (js "toast")
  /\ DOM.messageElement (DOM.toastManager self) = DOM.getElementById pg (js "toastMessage").

(** The toast shows [msg] in the colour [bg]; it holds wherever the two
    toast elements exist. *)
Definition toastShows (tm : DOM.ToastManager) (msg bg : jsstring) (pg : DOM.Page) : Prop :=
  forall te me,
    DOM.toastElement tm = Some te -> DOM.messageElement tm = Some me ->
    DOM.textContent pg me = Some msg
    /\ DOM.hasClass pg te (js "show") = true
    /\ DOM.getStyle pg te (js "background") = Some bg.

(** The page a failed submission leaves behind. *)
Definition afterInvalid (self : DOM.AppointmentForm) (errs : list (jsstring * jsstring))
           (pg : DOM.Page) : DOM.Page :=
  let pg1 := Appointment.displayErrors errs (Appointment.clearFormErrors pg) in
  let pg2 := match DOM.getElementById pg1 (match errs with
                                       | (k, _) :: _ => k
                                       | [] => js "undefined"
                                       end) with
             | Some fe => Appointment.focus fe pg1
             | None => pg1
             end in
  Toast.show (DOM.toastManager self)
    (Toast.mkToastOptions (js "Please fix the errors below") Toast.error None) pg2.

(** No element loses a class from [pg] to [pg']. *)
Definition classesGrow (pg pg' : DOM.Page) : Prop :=
  forall i c, DOM.hasClass pg i c = true -> DOM.hasClass pg' i c = true.

(** [encodeURIComponent] accepts the string: it has no lone surrogate. *)
Definition wellFormed (s : jsstring) : Prop :=
  exists enc, URI.encodeURIComponent s = Some enc.

(** The strings the implementation supplies have no lone surrogate. *)
Definition envWellFormed (env : FormValidator.Env) : Prop :=
  (forall t, wellFormed (FormValidator.toLocaleDateString env t))
  /\ (forall k v, FormValidator.inherited env k = Some v -> wellFormed v).

(** [part] is a stretch of [text], between two well-formed strings. *)
Definition occursIn (part text : jsstring) : Prop :=
  exists pre post, text = pre ++ part ++ post /\ wellFormed pre /\ wellFormed post.

(** The page a successful submission leaves behind. *)
Definition afterValid (self : DOM.AppointmentForm) (emailContent whatsappMessage : jsstring)
           (pg : DOM.Page) : DOM.Page :=
  Appointment.reset
    (Appointment.showContactOptions
       (Appointment.mailtoPrefix ++ emailContent)
       (Appointment.whatsappPrefix ++ whatsappMessage)
       (Toast.show (DOM.toastManager self)
          (Toast.mkToastOptions
             (js "Appointment request prepared! Choose your preferred contact method.")
             Toast.success None)
          (Appointment.clearFormErrors pg))).

(** Every control of the form has an empty default value, as with inputs
    that carry no [value] attribute. *)
Definition defaultsEmpty (pg : DOM.Page) : Prop :=
  forall x, In x (DOM.elements pg) -> DOM.el_control x = true -> DOM.el_default x = [].

Definition emptyRecord : FormValidator.AppointmentFormData :=
  FormValidator.mkFormData [] [] [] [] [] [].

(** Where an element sits and which classes it has: what the accordion's
    queries depend on. *)
Definition structureOf (e : DOM.Element) : option nat * list jsstring :=
  (DOM.el_parent e, DOM.el_classes e).


(** ** Sample inputs *)

Module Sample.
Import FormValidator DOM.

(** What the engine of Chrome and Node (V8) answers outside the date-only
    form, on the strings the samples use. A string [YYYY-MM-DD] whose day,
    at most 31, is past the end of its month is read as UTC midnight of
    the day that many days after the first of the month (["2026-02-30"] is
    2 March 2026); a string without a digit is no date (NaN). Other
    strings with digits, which V8 reads by further rules of its own, are
    not used with the sample browsers and get NaN here. *)
Definition v8ParseOther (s : jsstring) : option Z :=
  match s with
  | [y1; y2; y3; y4; 45; m1; m2; 45; d1; d2] =>
      if forallb isDigit [y1; y2; y3; y4; m1; m2; d1; d2] then
        let y := (1000 * digitVal y1 + 100 * digitVal y2 + 10 * digitVal y3 + digitVal y4)%Z in
        let m := (10 * digitVal m1 + digitVal m2)%Z in
        let d := (10 * digitVal d1 + digitVal d2)%Z in
        if ((1 <=? m) && (m <=? 12) && (1 <=? d) && (d <=? 31))%Z
        then Some (MakeDay y m d * msPerDay)%Z else None
      else None
  | _ => None
  end.

(** A browser in India (UTC+05:30) at noon of Sunday 2026-11-01. *)
Definition india : Env :=
  mkEnv 1793514600000 19800000 v8ParseOther
        (fun _ => js "Monday, 2 November 2026") (fun _ => js "2026-11-01")
        (fun _ => None).

(** A browser in New York (UTC-05:00) at noon of Sunday 2026-11-01. *)
Definition newYork : Env :=
  mkEnv 1793552400000 (-18000000) v8ParseOther
        (fun _ => js "Monday, 2 November 2026") (fun _ => js "2026-11-01")
        (fun _ => None).

Definition record1 : AppointmentFormData :=
  mkFormData (js "Asha Rao") (js "9876543210") (js "consultation")
             (js "2026-11-02") (js "morning") (js "knee pain").
Definition record2 : AppointmentFormData :=
  mkFormData (js "Asha Rao") (js "9876543210") (js "<script>")
             (js "2026-11-02") (js "whenever") (js "").

(** A page with the form, its controls, their error elements and the toast. *)
Definition control (id value : string) : Element :=
  mkElement (js id) (Some O) [js "form-input"] [] [] [] (js id) true (js value) [] 0.
Definition block (id cls : string) : Element :=
  mkElement (js id) None [js cls] [] [] [] [] false [] [] 0.
Definition bookingPage (name phone date : string) : Page :=
  mkPage [ block "appointmentForm" "form";
           control "patientName" name; block "patientnameError" "error-message";
           control "phoneNumber" phone; block "phonenumberError" "error-message";
           control "serviceType" "consultation";
           control "preferredDate" date; block "preferreddateError" "error-message";
           control "preferredTime" "morning";
           control "message" "knee pain";
           block "toast" "toast"; block "toastMessage" "toast-message";
           block "toastClose" "toast-close" ]
         None [] [] [] None 0 1280 720 0 3000.

(** A page with none of the elements the controllers look for. *)
Definition barePage : Page :=
  mkPage [ block "hero" "banner"; block "footer" "footer" ]
         None [] [] [] None 0 1280 720 0 3000.

Definition validPage : Page := bookingPage "Asha Rao" "9876543210" "2026-11-02".
Definition invalidPage : Page := bookingPage "" "12345" "".

(** A valid form whose service control is a [select] with the option
    [consultation] selected by default: the visitor chose another one. *)
Definition selectControl (id value default : string) : Element :=
  mkElement (js id) (Some O) [js "form-input"] [] [] [] (js id) true (js value) (js default) 0.
Definition selectPage : Page :=
  mkPage [ block "appointmentForm" "form";
           control "patientName" "Asha Rao"; block "patientnameError" "error-message";
           control "phoneNumber" "9876543210"; block "phonenumberError" "error-message";
           selectControl "serviceType" "panchakarma" "consultation";
           control "preferredDate" "2026-11-02"; block "preferreddateError" "error-message";
           control "preferredTime" "morning";
           control "message" "knee pain";
           block "toast" "toast"; block "toastMessage" "toast-message";
           block "toastClose" "toast-close" ]
         None [] [] [] None 0 1280 720 0 3000.

(** A page with the toast, and without the form, the menu and the bar. *)
Definition toastPage : Page :=
  mkPage [ block "hero" "banner";
           block "toast" "toast"; block "toastMessage" "toast-message";
           block "toastClose" "toast-close" ]
         None [] [] [] None 0 1280 720 0 3000.

(** The controller as its constructor builds it on a page. *)
Definition controller (pg : Page) : AppointmentForm :=
  mkAppointmentForm (getElementById pg (js "appointmentForm"))
    (mkToastManager (getElementById pg (js "toast"))
                    (getElementById pg (js "toastMessage"))
                    (getElementById pg (js "toastClose"))).

Definition submitEvent : Event := mkEvent O (OnElement O) false.

(** An accordion of three items, two of them expanded. *)
Definition faqItem : Element :=
  mkElement [] None [js "faq-item"] [] [] [] [] false [] [] 0.
Definition faqQuestion (item : nat) (expanded : string) : Element :=
  mkElement [] (Some item) [js "faq-question"] []
            [(js "aria-expanded", js expanded)] [] [] false [] [] 0.
Definition faqAnswer (item : nat) : Element :=
  mkElement [] (Some item) [js "faq-answer"] [] [] [] [] false [] [] 120.
Definition faqPage : Page :=
  mkPage [ faqItem; faqQuestion 0 "true"; faqAnswer 0;
           faqItem; faqQuestion 3 "true"; faqAnswer 3;
           faqItem; faqQuestion 6 "false"; faqAnswer 6 ]
         None [] [] [] None 0 1280 720 0 3000.


End Sample.

(** ** The smooth-scroll router (class [Router])

    The router writes the classes of the navigation links, the scroll
    position and the session history. [offsetTop] is the layout of the
    page: the distance of an element from the top of the document. *)

Module Router.
Import DOM.

Record Browser := mkBrowser {
  page : Page;
  scrollTop : option Z;        (* [top] of the last window.scrollTo *)
  pushed : list jsstring       (* URLs given to history.pushState, oldest first *)
}.

(** [s.startsWith('#')] *)
Definition startsWithHash (s : jsstring) : bool :=
  match s with
  | 35 :: _ => true
  | _ => false
  end.

(** [s.substring(1)] *)
Definition substring1 (s : jsstring) : jsstring := drop 1 s.

(** One turn of the loop of [updateActiveNavLink]; [href === `#${activeId}`]
    is false for a link without the attribute. *)
Definition updateLink (activeId : jsstring) (acc : Page) (link : nat) : Page :=
  let href := getAttribute acc link (js "href") in
  let same := match href with
              | Some h => streq h (js "#" ++ activeId)
              | None => false
              end in
  if same then addClass link (js "active") acc
  else removeClass link (js "active") acc.

Definition updateActiveNavLink (navLinks : list nat) (activeId : jsstring) (pg : Page) : Page :=
  fold_left (updateLink activeId) navLinks pg.

Definition scrollToSection (offsetTop : nat -> Z) (navLinks : list nat)
           (sectionId : jsstring) (b : Browser) : Browser :=
  match getElementById (page b) sectionId with
  | Some targetElement =>
      let headerHeight := 80%Z in
      let elementPosition := (offsetTop targetElement - headerHeight)%Z in
      mkBrowser (updateActiveNavLink navLinks sectionId (page b))
                (Some elementPosition) (pushed b)
  | None => b
  end.

Definition navigateToSection (offsetTop : nat -> Z) (navLinks : list nat)
           (sectionId : jsstring) (b : Browser) : Browser :=
  scrollToSection offsetTop navLinks sectionId
    (mkBrowser (page b) (scrollTop b) (pushed b ++ [js "#" ++ sectionId])).

(** [handleNavClick(e)] with [e.currentTarget] the link [link]. *)
Definition handleNavClick (offsetTop : nat -> Z) (navLinks : list nat)
           (link : nat) (e : Event) (b : Browser) : Event * Browser :=
  let e := preventDefault e in
  match getAttribute (page b) link (js "href") with
  | Some targetId =>
      if negb (FormValidator.isEmptyString targetId) && startsWithHash targetId
      then (e, navigateToSection offsetTop navLinks (substring1 targetId) b)
      else (e, b)
  | None => (e, b)
  end.

(** [handleHashChange()] when [window.location.hash] is [hash]. *)
Definition handleHashChange (offsetTop : nat -> Z) (navLinks : list nat)
           (hash : jsstring) (b : Browser) : Browser :=
  let h := substring1 hash in
  if FormValidator.isEmptyString h then b
  else scrollToSection offsetTop navLinks h b.

End Router.

(** ** Closing the contact dialog (the end of [showContactOptions])

    Every call of [showContactOptions] creates one overlay, appends it to
    the body and adds one [keydown] listener to the document. Overlays are
    told apart by the number of their creation. *)

Module ContactDialog.

Record Dialogs := mkDialogs {
  attached : list nat;          (* overlays that are children of document.body *)
  escapeListeners : list nat;   (* overlays whose handleEscape listens on document *)
  created : nat                 (* overlays created so far *)
}.

(** What [showContactOptions] does to the overlays and the listeners. *)
Definition openDialog (d : Dialogs) : Dialogs :=
  mkDialogs (attached d ++ [created d]) (escapeListeners d ++ [created d]) (S (created d)).

Definition notFoundError : jsstring := js "NotFoundError".

Definition without (id : nat) (l : list nat) : list nat :=
  List.filter (fun x => negb (Nat.eqb x id)) l.

(** [closeModal]: [document.body.removeChild(overlay)] throws when the
    overlay is not a child of the body. The Close button and a click on the
    overlay itself call it. *)
Definition closeModal (id : nat) (d : Dialogs) : outcome Dialogs :=
  if existsb (Nat.eqb id) (attached d)
  then Done (mkDialogs (without id (attached d)) (escapeListeners d) (created d))
  else Throw notFoundError.

(** [handleEscape] of the overlay [id] on a key press. *)
Definition handleEscape (id : nat) (key : jsstring) (d : Dialogs) : outcome Dialogs :=
  if DOM.streq key (js "Escape") then
    try! d1 := closeModal id d in
    Done (mkDialogs (attached d1) (without id (escapeListeners d1)) (created d1))
  else Done d.

(** A key press reaching the document: the listeners present when it
    arrives run in the order they were added; the exception of one is
    reported and the next one runs. The result is the final state and the
    exceptions reported. *)
Fixpoint runEscapeListeners (key : jsstring) (ls : list nat) (d : Dialogs)
         (reported : list jsstring) : Dialogs * list jsstring :=
  match ls with
  | [] => (d, reported)
  | id :: rest =>
      match handleEscape id key d with
      | Done d1 => runEscapeListeners key rest d1 reported
      | Throw err => runEscapeListeners key rest d (reported ++ [err])
      end
  end.

Definition keydown (key : jsstring) (d : Dialogs) : Dialogs * list jsstring :=
  runEscapeListeners key (escapeListeners d) d [].

End ContactDialog.

(** ** More vocabulary *)

(** The message a validator gives for one of the three fields. *)
Definition fieldMessage (env : FormValidator.Env) (f : DOM.FieldName)
           (fd : FormValidator.AppointmentFormData) : jsstring :=
  match f with
  | DOM.FPatientName => FormValidator.validateName (FormValidator.patientName fd)
  | DOM.FPhoneNumber => FormValidator.validatePhone (FormValidator.phoneNumber fd)
  | DOM.FPreferredDate => FormValidator.validateDate env (FormValidator.preferredDate fd)
  end.

(** Every unit is a UTF-16 code unit. *)
Definition units16 (s : jsstring) : Prop := Forall (fun c => c < 65536) s.

(** The units a percent-encoded string is made of. *)
Definition uriSafe (c : N) : bool := URI.isUnescaped c || (c =? 37).

(** Everything of an element except its attributes and inline styles. *)
Definition besidesAttrsAndStyle (e : DOM.Element) :=
  (DOM.el_id e, DOM.el_parent e, DOM.el_classes e, DOM.el_text e,
   DOM.el_name e, DOM.el_control e, DOM.el_value e, DOM.el_default e,
   DOM.el_scrollHeight e).

(** Everything of a page except its elements. *)
Definition besidesElements (pg : DOM.Page) :=
  (DOM.activeElement pg, DOM.overlays pg, DOM.timers pg, DOM.listeners pg,
   DOM.toastInstance pg, DOM.lastScrollY pg, DOM.innerWidth pg, DOM.innerHeight pg,
   DOM.scrollY pg, DOM.bodyOffsetHeight pg).

(** What a step on the page changes at most: the attribute [ka] and the
    style [ks] of some elements. *)
Definition touchesOnly (ka ks : jsstring) (pg pg' : DOM.Page) : Prop :=
  keeps besidesAttrsAndStyle pg pg'
  /\ besidesElements pg' = besidesElements pg
  /\ (forall i k, k <> ka -> DOM.getAttribute pg' i k = DOM.getAttribute pg i k)
  /\ (forall i k, k <> ks -> DOM.getStyle pg' i k = DOM.getStyle pg i k).

(** [href === `#${id}`] for the link [link]. *)
Definition linksTo (pg : DOM.Page) (link : nat) (id : jsstring) : bool :=
  match DOM.getAttribute pg link (js "href") with
  | Some h => DOM.streq h (js "#" ++ id)
  | None => false
  end.

(** The window is scrolled to [y]. *)
Definition windowScrolledTo (y : Z) (pg : DOM.Page) : DOM.Page :=
  DOM.mkPage (DOM.elements pg) (DOM.activeElement pg) (DOM.overlays pg) (DOM.timers pg)
             (DOM.listeners pg) (DOM.toastInstance pg) (DOM.lastScrollY pg)
             (DOM.innerWidth pg) (DOM.innerHeight pg) y (DOM.bodyOffsetHeight pg).

(** What the visitor does to the mobile menu. *)
Inductive MenuAction :=
| PressToggle                 (* click on the toggle button *)
| PressLink                   (* click on a link of the menu *)
| PressAt (target : nat).     (* click reaching the document, on [target] *)

Definition menuStep (nav : DOM.MobileNavigation) (pg : DOM.Page) (a : MenuAction) : DOM.Page :=
  match a with
  | PressToggle => Nav.toggleMenu nav pg
  | PressLink => Nav.closeMenu nav pg
  | PressAt t => Nav.outsideClick nav (mkEvent t DOM.OnDocument false) pg
  end.

Definition menuRun (nav : DOM.MobileNavigation) (actions : list MenuAction) (pg : DOM.Page)
  : DOM.Page :=
  fold_left (menuStep nav) actions pg.

(** [options.duration || 5000] *)
Definition toastDuration (options : Toast.ToastOptions) : Z :=
  match Toast.t_duration options with
  | Some d => if (d =? 0)%Z then 5000%Z else d
  | None => 5000%Z
  end.

(** The two states of the call-to-action bar. *)
Definition ctaShown : jsstring := js "translateY(0)".
Definition ctaHidden : jsstring := js "translateY(100%)".

(** ** More sample inputs *)

Module Sample2.
Import DOM.

Definition navLink (href : string) (cls : list jsstring) : Element :=
  mkElement [] None cls [] [(js "href", js href)] [] [] false [] [] 0.
Definition section (id : string) : Element :=
  mkElement (js id) None [js "section"] [] [] [] [] false [] [] 0.

(** Three navigation links, one of them to another site, and two sections. *)
Definition navPage : Page :=
  mkPage [ navLink "#home" [js "nav-link"; js "active"];
           navLink "#services" [js "nav-link"];
           navLink "https://example.org/" [js "nav-link"];
           section "home"; section "services" ]
         None [] [] [] None 0 1280 720 0 3000.

Definition navBrowser : Router.Browser := Router.mkBrowser navPage None [].

Definition layout (i : nat) : Z := (Z.of_nat i * 600)%Z.

(** A page with the menu button, the menu and the call-to-action bar, on a
    narrow screen. *)
Definition mobilePage : Page :=
  mkPage [ Sample.block "navToggle" "nav-toggle"; Sample.block "navMenu" "nav-menu";
           Sample.block "mobileCta" "mobile-cta"; Sample.block "main" "main" ]
         None [] [] [] None 0 390 800 0 3000.

Definition menu : MobileNavigation := mkMobileNavigation (Some 0%nat) (Some 1%nat).

End Sample2.

(** * Properties *)

(** ** The matcher agrees with the words of a pattern *)

Section RegexFacts.
Import Regex.

Lemma nullable_lang r : nullable r = true <-> lang r [].
Proof.
  split.
  - induction r; simpl; intros H; try discriminate.
    + constructor.
    + apply andb_true_iff in H as [H1 H2].
      change (@nil N) with (@nil N ++ []). constructor; auto.
    + apply orb_true_iff in H as [H|H]; [apply L_alt_l | apply L_alt_r]; auto.
    + constructor.
  - intros H. remember (@nil N) as w eqn:Hw.
    induction H; simpl; try discriminate; auto.
    + apply app_eq_nil in Hw as [-> ->]. rewrite IHlang1, IHlang2; auto.
    + rewrite IHlang; auto.
    + rewrite IHlang; auto. apply orb_true_r.
Qed.

Lemma deriv_sound c r : forall s, lang (deriv c r) s -> lang r (c :: s).
Proof.
  induction r; simpl; intros s H.
  - inversion H.
  - inversion H.
  - destruct (cls_mem c items) eqn:E; inversion H; subst. constructor; auto.
  - destruct (isDigit c) eqn:E; inversion H; subst. constructor; auto.
  - destruct (nullable r1) eqn:E.
    + inversion H; subst.
      * match goal with
        | [ H' : lang (Seq _ _) _ |- _ ] => inversion H'; subst
        end.
        change (c :: s1 ++ s2) with ((c :: s1) ++ s2). constructor; auto.
      * change (c :: s) with ([] ++ c :: s). constructor; auto.
        apply nullable_lang; auto.
    + inversion H; subst.
      change (c :: s1 ++ s2) with ((c :: s1) ++ s2). constructor; auto.
  - inversion H; subst; [apply L_alt_l | apply L_alt_r]; auto.
  - inversion H; subst.
    change (c :: s1 ++ s2) with ((c :: s1) ++ s2). constructor; auto.
Qed.

Lemma deriv_complete c r w : lang r w -> forall u, w = c :: u -> lang (deriv c r) u.
Proof.
  induction 1 as [ | items d Hd | d Hd | r1 r2 s1 s2 H1 IH1 H2 IH2
                 | r1 r2 s0 H1 IH1 | r1 r2 s0 H2 IH2 | r0
                 | r0 s1 s2 H1 IH1 H2 IH2 ];
    intros u Hw; simpl; try discriminate.
  - injection Hw as -> <-. rewrite Hd. constructor.
  - injection Hw as -> <-. rewrite Hd. constructor.
  - destruct s1 as [|c1 s1]; simpl in Hw.
    + assert (Hn : nullable r1 = true) by (apply nullable_lang; auto).
      rewrite Hn. apply L_alt_r. auto.
    + injection Hw as -> <-.
      destruct (nullable r1).
      * apply L_alt_l. constructor; auto.
      * constructor; auto.
  - apply L_alt_l; auto.
  - apply L_alt_r; auto.
  - destruct s1 as [|c1 s1]; simpl in Hw.
    + apply IH2 in Hw. exact Hw.
    + injection Hw as -> <-. constructor; auto.
Qed.

Theorem test_lang r s : test r s = true <-> lang r s.
Proof.
  revert r. induction s as [|c s IH]; intros r; simpl.
  - apply nullable_lang.
  - rewrite IH. split.
    + apply deriv_sound.
    + intros H. eapply deriv_complete; eauto.
Qed.

Lemma lang_cls_inv items s :
  lang (Cls items) s <-> exists c, s = [c] /\ cls_mem c items = true.
Proof.
  split.
  - inversion 1; subst; eauto.
  - intros (c & -> & H). constructor; auto.
Qed.

Lemma lang_star_cls items s :
  lang (Star (Cls items)) s <-> forallb (fun c => cls_mem c items) s = true.
Proof.
  split.
  - intros H. remember (Star (Cls items)) as r eqn:Hr.
    induction H; try discriminate; auto.
    injection Hr as ->.
    inversion H; subst. simpl.
    rewrite IHlang2; auto. rewrite andb_true_r. auto.
  - induction s as [|c s IH]; simpl; intros H.
    + constructor.
    + apply andb_true_iff in H as [H1 H2].
      change (c :: s) with ([c] ++ s). constructor; auto. constructor; auto.
Qed.

Lemma lang_plus_cls items s :
  lang (Plus (Cls items)) s <->
  s <> [] /\ forallb (fun c => cls_mem c items) s = true.
Proof.
  unfold Plus. split.
  - inversion 1; subst.
    match goal with
    | [ H' : lang (Cls _) _ |- _ ] => inversion H'; subst
    end.
    simpl. split; [discriminate|].
    apply andb_true_iff. split; auto. apply lang_star_cls; auto.
  - intros [Hne H]. destruct s as [|c s]; [congruence|].
    simpl in H. apply andb_true_iff in H as [H1 H2].
    change (c :: s) with ([c] ++ s). constructor.
    + constructor; auto.
    + apply lang_star_cls; auto.
Qed.

Lemma lang_rep_cls items n s :
  lang (Rep n (Cls items)) s <->
  length s = n /\ forallb (fun c => cls_mem c items) s = true.
Proof.
  revert s. induction n as [|n IH]; intros s; simpl.
  - split.
    + inversion 1; subst; auto.
    + intros [Hl _]. destruct s; [constructor | discriminate].
  - split.
    + inversion 1; subst.
      match goal with
      | [ H' : lang (Cls _) _ |- _ ] => inversion H'; subst
      end.
      match goal with
      | [ H' : lang (Rep _ _) _ |- _ ] => apply IH in H' as [Hl Hf]
      end.
      simpl. split; [congruence|]. apply andb_true_iff; auto.
    + intros [Hl Hf]. destruct s as [|c s]; [discriminate|].
      simpl in Hf. apply andb_true_iff in Hf as [H1 H2].
      change (c :: s) with ([c] ++ s). constructor.
      * constructor; auto.
      * apply IH. split; auto.
Qed.

End RegexFacts.

(** ** Strings *)

Lemma dropWhile_split p s :
  exists pre, s = pre ++ dropWhile p s /\ forallb p pre = true.
Proof.
  induction s as [|c s (pre & Hs & Hp)]; simpl.
  - exists []. auto.
  - destruct (p c) eqn:E.
    + exists (c :: pre). simpl. rewrite E, Hp. split; [congruence | auto].
    + exists []. auto.
Qed.

Lemma forallb_ext {A} (p q : A -> bool) l :
  (forall x, p x = q x) -> forallb p l = forallb q l.
Proof.
  intros H. induction l as [|x l IH]; simpl; [reflexivity|].
  rewrite H, IH. reflexivity.
Qed.

Lemma forallb_rev {A} (p : A -> bool) l : forallb p (rev l) = forallb p l.
Proof.
  induction l as [|x l IH]; simpl; auto.
  rewrite forallb_app, IH. simpl. rewrite andb_true_r. apply andb_comm.
Qed.

(** Trimming removes white space only, at both ends. *)
Lemma trim_split s :
  exists pre post, s = pre ++ trim s ++ post
                   /\ forallb isWhiteSpace pre = true
                   /\ forallb isWhiteSpace post = true.
Proof.
  unfold trim, trimEnd, trimStart.
  destruct (dropWhile_split isWhiteSpace s) as (pre & Hs & Hpre).
  destruct (dropWhile_split isWhiteSpace (rev (dropWhile isWhiteSpace s)))
    as (post & Hr & Hpost).
  exists pre, (rev post). split; [|split]; auto.
  - rewrite Hs at 1. f_equal.
    rewrite <- (rev_involutive (dropWhile isWhiteSpace s)) at 1.
    rewrite Hr at 1. rewrite rev_app_distr. reflexivity.
  - rewrite forallb_rev. auto.
Qed.

(** Removing the non-digits keeps the digits, in order. *)
Lemma stripNonDigits_filter s :
  FormValidator.stripNonDigits s = List.filter isDigit s.
Proof.
  unfold FormValidator.stripNonDigits, Regex.replaceUnits.
  induction s as [|c s IH]; [reflexivity|].
  cbn [flat_map List.filter]. rewrite IH.
  cbn. destruct (isDigit c); reflexivity.
Qed.

(** ** Name and phone validation *)

Section Validators.
Import Regex FormValidator.

Lemma name_class c :
  cls_mem c [Range 97 122; Range 65 90; ClassSpace; Single 46] = nameChar c.
Proof.
  unfold cls_mem, nameChar, isLetter. cbn [existsb item_mem].
  rewrite orb_false_r, !orb_assoc. reflexivity.
Qed.

Lemma test_NAME_REGEX s :
  test NAME_REGEX s = true <-> s <> [] /\ forallb nameChar s = true.
Proof.
  unfold NAME_REGEX. rewrite test_lang, lang_plus_cls.
  rewrite (forallb_ext _ nameChar) by (intros; apply name_class). reflexivity.
Qed.

Lemma whiteSpace_nameChar s : forallb isWhiteSpace s = true -> forallb nameChar s = true.
Proof.
  rewrite !forallb_forall. intros H c Hc. unfold nameChar.
  rewrite (H c Hc). apply orb_true_iff. left. apply orb_true_r.
Qed.

(** The pattern rejects the trimmed name exactly when the name as typed
    has a unit outside the class. *)
Lemma nameChar_trim s : forallb nameChar (trim s) = forallb nameChar s.
Proof.
  destruct (trim_split s) as (pre & post & Hs & Hpre & Hpost).
  rewrite Hs at 2. rewrite !forallb_app.
  rewrite (whiteSpace_nameChar _ Hpre), (whiteSpace_nameChar _ Hpost).
  rewrite andb_true_r. reflexivity.
Qed.

Lemma test_PHONE_REGEX s : test PHONE_REGEX s = true <-> mobileNumber s.
Proof.
  unfold PHONE_REGEX, mobileNumber. rewrite test_lang. split.
  - inversion 1 as [ | | | r1 r2 s1 s2 H1 H2 | | | | ]; subst.
    apply lang_cls_inv in H1 as (c & -> & Hc).
    apply (lang_rep_cls [ClassDigit] 9) in H2 as [Hl Hf].
    exists c, s2. split; [reflexivity|]. split; [|split]; auto.
    + unfold cls_mem in Hc. cbn in Hc. rewrite orb_false_r in Hc.
      apply andb_true_iff in Hc as [Ha Hb].
      apply N.leb_le in Ha, Hb. lia.
    + rewrite <- Hf. apply forallb_ext. intros x. unfold cls_mem. cbn.
      rewrite orb_false_r. reflexivity.
  - intros (c & t & -> & Hc & Hl & Hf).
    change (c :: t) with ([c] ++ t). constructor.
    + constructor. unfold cls_mem. cbn. rewrite orb_false_r.
      apply andb_true_iff. split; apply N.leb_le; lia.
    + apply (lang_rep_cls [ClassDigit] 9). split; auto.
      rewrite <- Hf. apply forallb_ext. intros x. unfold cls_mem. cbn.
      rewrite orb_false_r. reflexivity.
Qed.

Lemma jslength_zero s : (jslength s =? 0)%Z = true <-> s = [].
Proof.
  unfold jslength. rewrite Z.eqb_eq. destruct s; simpl; split; intros; try lia; congruence.
Qed.

Lemma dropWhile_head p s :
  match dropWhile p s with
  | [] => true
  | c :: _ => negb (p c)
  end = true.
Proof.
  induction s as [|c s IH]; [reflexivity|].
  simpl. destruct (p c) eqn:E; [exact IH | rewrite E; reflexivity].
Qed.

(** What [trim] returns begins and ends with a unit that is not white
    space, or is empty. *)
Lemma trim_trimmed s : trimmed (trim s) = true.
Proof.
  unfold trimmed, trim, trimEnd, trimStart.
  set (t := dropWhile isWhiteSpace s).
  set (u := dropWhile isWhiteSpace (rev t)).
  rewrite rev_involutive.
  pose proof (dropWhile_head isWhiteSpace (rev t)) as Hu. fold u in Hu.
  rewrite Hu, andb_true_r.
  destruct (dropWhile_split isWhiteSpace (rev t)) as (pre & Hr & _). fold u in Hr.
  assert (Ht : t = rev u ++ rev pre).
  { rewrite <- (rev_involutive t), Hr, rev_app_distr. reflexivity. }
  pose proof (dropWhile_head isWhiteSpace s) as Hh. fold t in Hh.
  destruct (rev u) as [|c r]; [reflexivity|].
  rewrite Ht in Hh. exact Hh.
Qed.

(** C5. [validateName] judges the name without the white space before and
    after it: [trim name] is the stretch of the name between a run of
    white space and another, and neither begins nor ends with white space.
    It returns the empty string (passes) exactly when that stretch has at
    least 2 units and the name has no unit outside the letters [a-z] and
    [A-Z], white space [\s] and the period. An empty trimmed name gets the
    required message, a single unit the too-short message, and any other
    failing name the invalid-characters message. ["A"] is too short,
    ["Jane Doe"] passes, ["Jane123"] has invalid characters; [" A "] is
    too short as well, a name with an accented letter (U+00E9) has invalid
    characters, and a name with a tab between two letters passes. *)
Theorem validateName_spec (name : jsstring) :
  (exists ws ws',
      name = ws ++ trim name ++ ws'
      /\ forallb isWhiteSpace ws = true /\ forallb isWhiteSpace ws' = true
      /\ trimmed (trim name) = true)
  /\ (validateName name = js "" <->
       (2 <= length (trim name))%nat /\ forallb nameChar name = true)
  /\ (trim name = [] -> validateName name = msgNameRequired)
  /\ (length (trim name) = 1%nat -> validateName name = msgNameShort)
  /\ ((2 <= length (trim name))%nat -> forallb nameChar name = false ->
      validateName name = msgNameChars)
  /\ validateName (js "A") = msgNameShort
  /\ validateName (js "Jane Doe") = js ""
  /\ validateName (js "Jane123") = msgNameChars
  /\ validateName (js " A ") = msgNameShort
  /\ validateName [74; 111; 115; 233] = msgNameChars
  /\ validateName [65; 9; 66] = js "".
Proof.
  assert (Hgen :
    (trim name = [] -> validateName name = msgNameRequired)
    /\ (length (trim name) = 1%nat -> validateName name = msgNameShort)
    /\ ((2 <= length (trim name))%nat -> forallb nameChar name = false ->
        validateName name = msgNameChars)
    /\ ((2 <= length (trim name))%nat -> forallb nameChar name = true ->
        validateName name = js "")).
  { unfold validateName. rewrite <- (nameChar_trim name).
    destruct (trim name) as [|a [|b t]] eqn:Et.
    - repeat split; intros; simpl in *; try lia; reflexivity.
    - repeat split; intros; simpl in *; try lia; try discriminate; reflexivity.
    - assert (Hz : (jslength (a :: b :: t) =? 0)%Z = false)
        by (unfold jslength; simpl length; apply Z.eqb_neq; lia).
      assert (Hs : (jslength (a :: b :: t) <? 2)%Z = false)
        by (unfold jslength; simpl length; apply Z.ltb_ge; lia).
      rewrite Hz, Hs.
      repeat split; intros; try discriminate; try (simpl in *; lia).
      + destruct (test NAME_REGEX (a :: b :: t)) eqn:E; [|reflexivity].
        apply test_NAME_REGEX in E as [_ E]. congruence.
      + replace (test NAME_REGEX (a :: b :: t)) with true; [reflexivity|].
        symmetry. apply test_NAME_REGEX. split; [discriminate | assumption]. }
  destruct Hgen as (Hreq & Hshort & Hchars & Hok).
  split.
  { destruct (trim_split name) as (ws & ws' & Hs & Hws & Hws').
    exists ws, ws'. repeat split; auto. apply trim_trimmed. }
  split; [|repeat split; auto].
  split.
  - intros Hv.
    destruct (trim name) as [|a [|b t]] eqn:Et.
    + rewrite Hreq in Hv by reflexivity. vm_compute in Hv. discriminate.
    + rewrite Hshort in Hv by reflexivity. vm_compute in Hv. discriminate.
    + split; [simpl; lia|].
      destruct (forallb nameChar name) eqn:E; [reflexivity|].
      rewrite Hchars in Hv; [vm_compute in Hv; discriminate | simpl; lia | reflexivity].
  - intros [Hl Hf]. apply Hok; auto.
Qed.

(** Against C5 as the specification words it. The units 74, 111, 115 and
    233 spell [Jos] and an [e] with an acute accent (U+00E9): four
    letters, and the name is refused for its characters. The tab (9) is no
    letter, no space and no period, and a name that holds one passes. *)
Lemma validateName_other_letters_and_tab :
  validateName [74; 111; 115; 233] = msgNameChars
  /\ validateName [65; 9; 66] = js "".
Proof. split; vm_compute; reflexivity. Qed.


(** C1. [validatePhone] returns the empty string (passes) exactly when the
    input, with every non-digit removed, matches [^[6-9]\d{9}$], that is
    when it is ten digits of which the first is 6 to 9. When nothing is
    left after the removal it returns the required message, and in every
    other case the invalid-number message. *)
Theorem validatePhone_spec (phone : jsstring) :
  let cleanPhone := stripNonDigits phone in
  cleanPhone = List.filter isDigit phone
  /\ (validatePhone phone = js "" <-> lang PHONE_REGEX cleanPhone)
  /\ (lang PHONE_REGEX cleanPhone <-> mobileNumber cleanPhone)
  /\ (cleanPhone = [] -> validatePhone phone = msgPhoneRequired)
  /\ (cleanPhone <> [] -> ~ lang PHONE_REGEX cleanPhone ->
      validatePhone phone = msgPhoneInvalid).
Proof.
  intros cleanPhone.
  split; [apply stripNonDigits_filter|].
  assert (Hm : lang PHONE_REGEX cleanPhone <-> mobileNumber cleanPhone)
    by (rewrite <- test_lang; apply test_PHONE_REGEX).
  unfold validatePhone. fold cleanPhone.
  destruct (jslength cleanPhone =? 0)%Z eqn:Ez.
  - apply jslength_zero in Ez.
    assert (Hnl : ~ lang PHONE_REGEX cleanPhone).
    { intros H. apply Hm in H. destruct H as (c & t & Hc & _). congruence. }
    split; [|split; [exact Hm|split; [reflexivity|congruence]]].
    split; [|tauto].
    intros Hv. vm_compute in Hv. discriminate.
  - assert (Hne : cleanPhone <> []).
    { intros H. apply jslength_zero in H. congruence. }
    destruct (test PHONE_REGEX cleanPhone) eqn:Et; simpl negb; cbv iota.
    + apply test_lang in Et.
      repeat split; auto; try apply Hm; try congruence; tauto.
    + assert (Hnl : ~ lang PHONE_REGEX cleanPhone).
      { intros H. apply test_lang in H. congruence. }
      repeat split; auto; try apply Hm; try tauto.
      intros Hv. vm_compute in Hv. discriminate.
Qed.

End Validators.

(** ** The phone input formatter *)

Section PhoneFormatter.
Import FormValidator DOM Appointment.

Lemma filter_digits_id s : forallb isDigit s = true -> List.filter isDigit s = s.
Proof.
  induction s as [|c s IH]; simpl; [reflexivity|].
  intros H. apply andb_true_iff in H as [Hc Hs]. rewrite Hc, IH; auto.
Qed.

Lemma forallb_filter_self {A} (p : A -> bool) l : forallb p (List.filter p l) = true.
Proof.
  induction l as [|x l IH]; simpl; [reflexivity|].
  destruct (p x) eqn:E; simpl; [rewrite E|]; auto.
Qed.

Lemma forallb_take {A} (p : A -> bool) n l :
  forallb p l = true -> forallb p (take n l) = true.
Proof.
  revert n. induction l as [|x l IH]; intros [|n]; simpl; auto.
  intros H. apply andb_true_iff in H as [Hx Hl]. rewrite Hx. simpl. auto.
Qed.

Lemma formatPhoneValue_digits v : forallb isDigit (formatPhoneValue v) = true.
Proof.
  unfold formatPhoneValue. rewrite stripNonDigits_filter.
  destruct (jslength (List.filter isDigit v) >? 10)%Z.
  - apply forallb_take, forallb_filter_self.
  - apply forallb_filter_self.
Qed.

Lemma formatPhoneValue_length v : (length (formatPhoneValue v) <= 10)%nat.
Proof.
  unfold formatPhoneValue, substring0, jslength.
  destruct (Z.of_nat (length (stripNonDigits v)) >? 10)%Z eqn:E.
  - rewrite length_take. lia.
  - rewrite Z.gtb_ltb in E. apply Z.ltb_ge in E. lia.
Qed.

Lemma formatPhoneValue_fixed v :
  forallb isDigit v = true -> (length v <= 10)%nat -> formatPhoneValue v = v.
Proof.
  intros Hd Hl. unfold formatPhoneValue.
  rewrite stripNonDigits_filter, filter_digits_id by assumption.
  unfold jslength.
  replace (Z.of_nat (length v) >? 10)%Z with false; [reflexivity|].
  symmetry. rewrite Z.gtb_ltb. apply Z.ltb_ge. lia.
Qed.

(** C8. The input listener of the phone field replaces the value of the
    field by [formatPhoneValue] of it, which for every string consists of
    digits only, has at most 10 units and is a fixed point of the
    formatter; running the listener a second time changes nothing. *)
Theorem formatPhoneInput_spec (e : Event) (pg : Page) :
  valueOf (formatPhoneInput e pg) (target e)
    = formatPhoneValue <$> valueOf pg (target e)
  /\ (forall v : jsstring,
        forallb isDigit (formatPhoneValue v) = true
        /\ (length (formatPhoneValue v) <= 10)%nat
        /\ formatPhoneValue (formatPhoneValue v) = formatPhoneValue v)
  /\ formatPhoneInput e (formatPhoneInput e pg) = formatPhoneInput e pg.
Proof.
  split; [|split].
  - unfold valueOf, formatPhoneInput, updateElement. cbn [elements withElements].
    rewrite list_lookup_alter_eq.
    destruct (elements pg !! target e); reflexivity.
  - intros v. split; [apply formatPhoneValue_digits|].
    split; [apply formatPhoneValue_length|].
    apply formatPhoneValue_fixed;
      [apply formatPhoneValue_digits | apply formatPhoneValue_length].
  - unfold formatPhoneInput, updateElement, withElements.
    cbn [elements activeElement overlays timers listeners toastInstance
         lastScrollY innerWidth innerHeight scrollY bodyOffsetHeight].
    f_equal. rewrite list_alter_alter_eq.
    apply list_alter_ext; [|reflexivity].
    intros x _. unfold compose, setValue. cbn.
    f_equal. apply formatPhoneValue_fixed;
      [apply formatPhoneValue_digits | apply formatPhoneValue_length].
Qed.

End PhoneFormatter.

(** ** Validation of the whole record *)

Section WholeRecord.
Import FormValidator.

(** C9. Two records with the same name, phone number and preferred date
    get the same [ValidationResult], whatever their service type,
    preferred time and message are. *)
Theorem validateForm_reads_three_fields (env : Env) (a b : AppointmentFormData) :
  patientName a = patientName b ->
  phoneNumber a = phoneNumber b ->
  preferredDate a = preferredDate b ->
  validateForm env a = validateForm env b.
Proof.
  intros Hn Hp Hd. unfold validateForm. rewrite Hn, Hp, Hd. reflexivity.
Qed.

Lemma validateForm_reads_three_fields_witness :
  serviceType Sample.record1 <> serviceType Sample.record2
  /\ validateForm Sample.india Sample.record1 = validateForm Sample.india Sample.record2.
Proof.
  split.
  - intros H. vm_compute in H. discriminate.
  - apply (validateForm_reads_three_fields Sample.india Sample.record1 Sample.record2);
      reflexivity.
Defined.

End WholeRecord.

(** ** Date validation *)

Section Dates.
Import FormValidator.

Lemma isoDateOnly_nonempty s d : isoDateOnly s = Some d -> s <> [].
Proof. intros H ->. discriminate. Qed.

(** East of UTC (and at UTC) the date-only string is judged by its own
    calendar day: it is past when its day number is below the local day
    number of the clock, and otherwise rejected exactly on a Sunday. *)
Lemma validateDate_east_of_UTC (env : Env) (s : jsstring) (d : Z) :
  (0 <= LocalTZA env < msPerDay)%Z ->
  isoDateOnly s = Some d ->
  validateDate env s =
    if (d <? Day (now env + LocalTZA env))%Z then msgDatePast
    else if (WeekDay (d * msPerDay) =? 0)%Z then msgDateSunday
    else js "".
Proof.
  intros Htz Hd. pose proof (isoDateOnly_nonempty _ _ Hd) as Hne.
  unfold validateDate. destruct s as [|c s]; [congruence|].
  unfold newDate. rewrite Hd. unfold dateLt, setHours0, getDay, isZero.
  set (T := Day (now env + LocalTZA env)).
  assert (HD : (0 < msPerDay)%Z) by (unfold msPerDay; lia).
  assert (Hlt : (d * msPerDay <? T * msPerDay - LocalTZA env)%Z = (d <? T)%Z).
  { destruct (Z.ltb_spec d T) as [H|H].
    - apply Z.ltb_lt. nia.
    - apply Z.ltb_ge. nia. }
  rewrite Hlt. destruct (d <? T)%Z; [reflexivity|].
  assert (Hwd : WeekDay (d * msPerDay + LocalTZA env) = WeekDay (d * msPerDay)).
  { unfold WeekDay, Day. f_equal. f_equal.
    rewrite Z.div_add_l by lia. rewrite Z.div_small by lia.
    rewrite Z.div_mul by lia. lia. }
  rewrite Hwd. reflexivity.
Qed.

(** West of UTC the same string is judged as the day before it: today is
    taken for past, and the weekday tested is that of the previous day. *)
Lemma validateDate_west_judges_previous_day (env : Env) (s : jsstring) (d : Z) :
  (- msPerDay < LocalTZA env < 0)%Z ->
  isoDateOnly s = Some d ->
  validateDate env s =
    if (d - 1 <? Day (now env + LocalTZA env))%Z then msgDatePast
    else if (WeekDay ((d - 1) * msPerDay) =? 0)%Z then msgDateSunday
    else js "".
Proof.
  intros Htz Hd. pose proof (isoDateOnly_nonempty _ _ Hd) as Hne.
  unfold validateDate. destruct s as [|c s]; [congruence|].
  unfold newDate. rewrite Hd. unfold dateLt, setHours0, getDay, isZero.
  set (T := Day (now env + LocalTZA env)).
  assert (HD : (0 < msPerDay)%Z) by (unfold msPerDay; lia).
  assert (Hlt : (d * msPerDay <? T * msPerDay - LocalTZA env)%Z = (d - 1 <? T)%Z).
  { destruct (Z.ltb_spec (d - 1) T) as [H|H].
    - apply Z.ltb_lt. nia.
    - apply Z.ltb_ge. nia. }
  rewrite Hlt. destruct (d - 1 <? T)%Z; [reflexivity|].
  assert (Hwd : WeekDay (d * msPerDay + LocalTZA env) = WeekDay ((d - 1) * msPerDay)).
  { unfold WeekDay, Day. f_equal. f_equal.
    replace (d * msPerDay + LocalTZA env)%Z
      with ((d - 1) * msPerDay + (msPerDay + LocalTZA env))%Z by lia.
    rewrite Z.div_add_l by lia. rewrite Z.div_small by lia.
    rewrite Z.div_mul by lia. lia. }
  rewrite Hwd. reflexivity.
Qed.

Lemma validateDate_empty (env : Env) : validateDate env (js "") = js "".
Proof. reflexivity. Qed.

(** C2. The empty string passes. For a browser five hours west of UTC, at
    noon of Sunday 2026-11-01: the string ["2026-11-02"] names day 20759
    since the epoch, a Monday, one day after the local day 20758, and
    [validateDate] answers the Sunday message for it; for ["2026-11-01"],
    which is the local day itself and a Sunday, it answers the past-date
    message. The same two strings in a browser at UTC+05:30 get the empty
    string and the Sunday message. *)
Theorem validateDate_west_of_UTC :
  validateDate Sample.newYork (js "") = js ""
  /\ isoDateOnly (js "2026-11-02") = Some 20759%Z
  /\ WeekDay (20759 * msPerDay) = 1%Z
  /\ Day (now Sample.newYork + LocalTZA Sample.newYork) = 20758%Z
  /\ validateDate Sample.newYork (js "2026-11-02") = msgDateSunday
  /\ validateDate Sample.newYork (js "2026-11-01") = msgDatePast
  /\ validateDate Sample.india (js "2026-11-02") = js ""
  /\ validateDate Sample.india (js "2026-11-01") = msgDateSunday.
Proof. vm_compute. repeat split; reflexivity. Qed.

End Dates.

(** ** Facts about the page *)

Section PageFacts.
Import DOM.

Lemma map_alter_keep {A B} (g : A -> B) (f : A -> A) (i : nat) (l : list A) :
  (forall x, g (f x) = g x) -> List.map g (alter f i l) = List.map g l.
Proof.
  intros H. revert i. induction l as [|x l IH]; intros [|i]; simpl; f_equal; auto.
  apply (IH i).
Qed.

Lemma keeps_refl {B} (g : Element -> B) pg : keeps g pg pg.
Proof. reflexivity. Qed.

Lemma keeps_trans {B} (g : Element -> B) pg1 pg2 pg3 :
  keeps g pg1 pg2 -> keeps g pg2 pg3 -> keeps g pg1 pg3.
Proof. unfold keeps. congruence. Qed.

Lemma keeps_updateElement {B} (g : Element -> B) i f pg :
  (forall x, g (f x) = g x) -> keeps g pg (updateElement i f pg).
Proof. intros H. unfold keeps. simpl. apply map_alter_keep, H. Qed.

Lemma keeps_fold {B A} (g : Element -> B) (step : Page -> A -> Page) (l : list A) pg :
  (forall acc x, keeps g acc (step acc x)) -> keeps g pg (fold_left step l pg).
Proof.
  intros H. revert pg. induction l as [|x l IH]; intros pg; simpl.
  - apply keeps_refl.
  - eapply keeps_trans; [apply H | apply IH].
Qed.

Lemma keeps_lookup {B} (g : Element -> B) pg pg' i :
  keeps g pg pg' -> g <$> elements pg' !! i = g <$> elements pg !! i.
Proof.
  unfold keeps. intros H. rewrite <- !list_lookup_fmap.
  change (fmap g (elements pg')) with (List.map g (elements pg')).
  change (fmap g (elements pg)) with (List.map g (elements pg)).
  rewrite H. reflexivity.
Qed.

Lemma keeps_compose {B C} (g : Element -> B) (h : B -> C) pg pg' :
  keeps g pg pg' -> keeps (fun e => h (g e)) pg pg'.
Proof.
  unfold keeps. intros H.
  rewrite <- !(List.map_map g h). rewrite H. reflexivity.
Qed.

Lemma findIndex_map {A B} (g : A -> B) (q : B -> bool) (l : list A) :
  findIndex (fun x => q (g x)) l = findIndex q (List.map g l).
Proof.
  induction l as [|x l IH]; simpl; [reflexivity|].
  rewrite IH. reflexivity.
Qed.

Lemma find_map {A B} (g : A -> B) (q : B -> bool) (l : list A) :
  option_map g (List.find (fun x => q (g x)) l) = List.find q (List.map g l).
Proof.
  induction l as [|x l IH]; simpl; [reflexivity|].
  destruct (q (g x)); [reflexivity | exact IH].
Qed.

Lemma getElementById_keeps pg pg' id :
  keeps el_id pg pg' -> getElementById pg' id = getElementById pg id.
Proof.
  intros H. unfold getElementById. destruct id as [|c id]; [reflexivity|].
  rewrite !(findIndex_map el_id (fun x => streq x (c :: id))).
  rewrite H. reflexivity.
Qed.

Lemma findIndex_Some {A} (p : A -> bool) (l : list A) i :
  findIndex p l = Some i -> exists x, l !! i = Some x /\ p x = true.
Proof.
  revert i. induction l as [|x l IH]; intros i; simpl; [discriminate|].
  destruct (p x) eqn:E.
  - intros [= <-]. eauto.
  - destruct (findIndex p l) as [j|]; simpl; [|discriminate].
    intros [= <-]. apply IH. reflexivity.
Qed.

Lemma streq_eq a b : streq a b = true <-> a = b.
Proof. unfold streq. apply bool_decide_eq_true. Qed.

Lemma getElementById_Some pg id i :
  getElementById pg id = Some i ->
  exists e, elements pg !! i = Some e /\ el_id e = id.
Proof.
  unfold getElementById. destruct id as [|c id]; [discriminate|].
  intros H. apply findIndex_Some in H as (e & He & Hp).
  apply streq_eq in Hp. eauto.
Qed.

Lemma getElementById_inj pg id1 id2 i :
  getElementById pg id1 = Some i -> getElementById pg id2 = Some i -> id1 = id2.
Proof.
  intros H1 H2.
  apply getElementById_Some in H1 as (e1 & He1 & <-).
  apply getElementById_Some in H2 as (e2 & He2 & <-).
  congruence.
Qed.

Lemma lookup_updateElement pg i f j :
  elements (updateElement i f pg) !! j =
    if decide (i = j) then f <$> elements pg !! j else elements pg !! j.
Proof.
  simpl. rewrite list_lookup_alter. destruct (decide (i = j)); subst; reflexivity.
Qed.

(** Reading the form sees the fields only. *)
Lemma formDataGet_keeps pg pg' name :
  keeps fieldsOf pg pg' ->
  Appointment.formDataGet pg' name = Appointment.formDataGet pg name.
Proof.
  intros H. unfold Appointment.formDataGet.
  pose (q := fun t : jsstring * jsstring * bool * jsstring * jsstring =>
               let '(_, n, c, _, _) := t in c && streq n name).
  pose (h := fun t : jsstring * jsstring * bool * jsstring * jsstring =>
               let '(_, _, _, v, _) := t in URI.toUSV v).
  assert (E : forall l,
    match List.find (fun e => el_control e && streq (el_name e) name) l with
    | Some e => Some (URI.toUSV (el_value e))
    | None => None
    end = option_map h (List.find q (List.map fieldsOf l))).
  { intros l. rewrite <- (find_map fieldsOf q).
    change (fun x => q (fieldsOf x))
      with (fun e => el_control e && streq (el_name e) name).
    destruct (List.find _ l); reflexivity. }
  rewrite !E. unfold keeps in H. rewrite H. reflexivity.
Qed.

Lemma readFields_keeps pg pg' :
  keeps fieldsOf pg pg' -> Appointment.readFields pg' = Appointment.readFields pg.
Proof.
  intros H. unfold Appointment.readFields.
  rewrite !(formDataGet_keeps pg pg') by assumption. reflexivity.
Qed.

Lemma keeps_fields_ids pg pg' : keeps fieldsOf pg pg' -> keeps el_id pg pg'.
Proof.
  intros H.
  apply (keeps_compose fieldsOf (fun t => let '(i, _, _, _, _) := t in i)) in H.
  exact H.
Qed.

End PageFacts.

(** ** What the display steps leave alone *)

Section DisplayFacts.
Import DOM FormValidator Appointment.

Lemma fieldsOf_setText t e : fieldsOf (setText t e) = fieldsOf e.
Proof. reflexivity. Qed.

Lemma fieldsOf_classAdd c e : fieldsOf (classAdd c e) = fieldsOf e.
Proof. unfold classAdd. destruct (elemHasClass c e); reflexivity. Qed.

Lemma fieldsOf_classRemove c e : fieldsOf (classRemove c e) = fieldsOf e.
Proof. reflexivity. Qed.

Lemma keeps_setTextContent i t pg : keeps fieldsOf pg (setTextContent i t pg).
Proof. apply keeps_updateElement. intros x. apply fieldsOf_setText. Qed.

Lemma keeps_addClass i c pg : keeps fieldsOf pg (addClass i c pg).
Proof. apply keeps_updateElement. intros x. apply fieldsOf_classAdd. Qed.

Lemma keeps_removeClass i c pg : keeps fieldsOf pg (removeClass i c pg).
Proof. apply keeps_updateElement. intros x. apply fieldsOf_classRemove. Qed.

Lemma keeps_setStyle i k v pg : keeps fieldsOf pg (setStyle i k v pg).
Proof. apply keeps_updateElement. intros x. reflexivity. Qed.

Lemma keeps_clearFormErrors pg : keeps fieldsOf pg (clearFormErrors pg).
Proof.
  unfold clearFormErrors.
  eapply keeps_trans.
  - apply (keeps_fold fieldsOf (fun acc i => setTextContent i (js "") acc)).
    intros acc x. apply keeps_setTextContent.
  - apply (keeps_fold fieldsOf (fun acc i => removeClass i (js "error") acc)).
    intros acc x. apply keeps_removeClass.
Qed.

Lemma keeps_displayError pg kv : keeps fieldsOf pg (displayError pg kv).
Proof.
  destruct kv as [field msg]. unfold displayError.
  destruct (getElementById pg (errorElementId field)) as [ee|];
    destruct (getElementById _ field) as [ie|];
    repeat first [ apply keeps_refl
                 | apply keeps_setTextContent
                 | apply keeps_addClass
                 | eapply keeps_trans; [apply keeps_setTextContent | apply keeps_addClass] ].
Qed.

Lemma keeps_displayErrors errs pg : keeps fieldsOf pg (displayErrors errs pg).
Proof. apply keeps_fold. intros acc x. apply keeps_displayError. Qed.

Lemma keeps_show tm opts pg : keeps fieldsOf pg (Toast.show tm opts pg).
Proof.
  unfold Toast.show.
  destruct (toastElement tm) as [te|]; [|apply keeps_refl].
  destruct (messageElement tm) as [me|]; [|apply keeps_refl].
  unfold setTimeout, keeps. cbn [elements withTimers].
  eapply keeps_trans; [apply keeps_setTextContent|].
  eapply keeps_trans; [apply keeps_setStyle | apply keeps_addClass].
Qed.

Lemma handleSubmit_invalid env self e pg f :
  form self = Some f ->
  isValid (validateForm env (readFields pg)) = false ->
  handleSubmit env self e pg =
    Done (preventDefault e,
          afterInvalid self (errors (validateForm env (readFields pg))) pg).
Proof.
  intros Hf Hv. unfold handleSubmit, getFormData. rewrite Hf. cbn [bind].
  rewrite (readFields_keeps pg (clearFormErrors pg)) by apply keeps_clearFormErrors.
  rewrite Hv. reflexivity.
Qed.

Lemma keeps_afterInvalid self errs pg : keeps fieldsOf pg (afterInvalid self errs pg).
Proof.
  unfold afterInvalid.
  eapply keeps_trans; [|apply keeps_show].
  eapply keeps_trans; [apply keeps_clearFormErrors|].
  eapply keeps_trans; [apply keeps_displayErrors|].
  destruct (getElementById _ _); [unfold keeps; reflexivity | apply keeps_refl].
Qed.

End DisplayFacts.

(** ** What a failed submission displays *)

Section InvalidFacts.
Import DOM FormValidator Appointment.

Lemma streq_refl a : streq a a = true.
Proof. apply streq_eq. reflexivity. Qed.

Lemma assoc_assocSet {A} k (v : A) l : assoc k (assocSet k v l) = Some v.
Proof.
  induction l as [|[k' v'] l IH]; simpl.
  - rewrite streq_refl. reflexivity.
  - destruct (streq k k') eqn:E; simpl.
    + rewrite streq_refl. reflexivity.
    + rewrite E. exact IH.
Qed.

Lemma elemHasClass_classAdd c e : elemHasClass c (classAdd c e) = true.
Proof.
  unfold classAdd. destruct (elemHasClass c e) eqn:E; [exact E|].
  unfold elemHasClass. simpl. rewrite existsb_app. simpl.
  rewrite streq_refl. rewrite orb_true_r. reflexivity.
Qed.

Lemma elemHasClass_classAdd_mono c c' e :
  elemHasClass c e = true -> elemHasClass c (classAdd c' e) = true.
Proof.
  intros H. unfold classAdd. destruct (elemHasClass c' e); [exact H|].
  unfold elemHasClass in *. simpl. rewrite existsb_app, H. reflexivity.
Qed.

Lemma classesGrow_refl pg : classesGrow pg pg.
Proof. intros i c H. exact H. Qed.

Lemma classesGrow_trans pg1 pg2 pg3 :
  classesGrow pg1 pg2 -> classesGrow pg2 pg3 -> classesGrow pg1 pg3.
Proof. intros H1 H2 i c H. apply H2, H1, H. Qed.

Lemma classesGrow_update j f pg :
  (forall e c, elemHasClass c e = true -> elemHasClass c (f e) = true) ->
  classesGrow pg (updateElement j f pg).
Proof.
  intros Hf i c. unfold hasClass. rewrite lookup_updateElement.
  destruct (decide (j = i)); [|auto].
  destruct (elements pg !! i); simpl; [apply Hf | auto].
Qed.

Lemma classesGrow_setTextContent i t pg : classesGrow pg (setTextContent i t pg).
Proof. apply classesGrow_update. intros e c H. exact H. Qed.

Lemma classesGrow_setStyle i k v pg : classesGrow pg (setStyle i k v pg).
Proof. apply classesGrow_update. intros e c H. exact H. Qed.

Lemma classesGrow_addClass i c pg : classesGrow pg (addClass i c pg).
Proof. apply classesGrow_update. intros e c' H. apply elemHasClass_classAdd_mono, H. Qed.

Lemma hasClass_addClass i c pg :
  is_Some (elements pg !! i) -> hasClass (addClass i c pg) i c = true.
Proof.
  intros [e He]. unfold hasClass, addClass. rewrite lookup_updateElement.
  destruct (decide (i = i)); [|congruence].
  rewrite He. simpl. apply elemHasClass_classAdd.
Qed.

Lemma classesGrow_displayError pg kv : classesGrow pg (displayError pg kv).
Proof.
  destruct kv as [field msg]. unfold displayError.
  destruct (getElementById pg (errorElementId field)) as [ee|];
    destruct (getElementById _ field) as [ie|];
    repeat first [ apply classesGrow_refl
                 | apply classesGrow_setTextContent
                 | apply classesGrow_addClass
                 | eapply classesGrow_trans;
                   [apply classesGrow_setTextContent | apply classesGrow_addClass] ].
Qed.

Lemma displayErrors_cons kv errs pg :
  displayErrors (kv :: errs) pg = displayErrors errs (displayError pg kv).
Proof. reflexivity. Qed.

Lemma classesGrow_displayErrors errs pg : classesGrow pg (displayErrors errs pg).
Proof.
  revert pg. induction errs as [|kv errs IH]; intros pg.
  - apply classesGrow_refl.
  - rewrite displayErrors_cons.
    eapply classesGrow_trans; [apply classesGrow_displayError | apply IH].
Qed.

Lemma classesGrow_show tm opts pg : classesGrow pg (Toast.show tm opts pg).
Proof.
  unfold Toast.show.
  destruct (toastElement tm) as [te|]; [|apply classesGrow_refl].
  destruct (messageElement tm) as [me|]; [|apply classesGrow_refl].
  eapply classesGrow_trans; [apply classesGrow_setTextContent|].
  eapply classesGrow_trans; [apply classesGrow_setStyle|].
  eapply classesGrow_trans; [apply classesGrow_addClass|].
  intros i c H. exact H.
Qed.

(** The input of a reported field carries the class [error]. *)
Lemma displayErrors_class errs pg field msg i :
  In (field, msg) errs ->
  getElementById pg field = Some i ->
  hasClass (displayErrors errs pg) i (js "error") = true.
Proof.
  revert pg. induction errs as [|[k m] errs IH]; intros pg Hin Hi; [destruct Hin|].
  rewrite displayErrors_cons. destruct Hin as [[= -> ->]|Hin].
  - apply classesGrow_displayErrors.
    unfold displayError. rewrite Hi.
    destruct (getElementById pg (errorElementId field)) as [ee|].
    + apply hasClass_addClass.
      apply getElementById_Some in Hi as (x & Hx & _).
      unfold setTextContent. rewrite lookup_updateElement.
      destruct (decide (ee = i)); rewrite Hx; simpl; eauto.
    + apply hasClass_addClass.
      apply getElementById_Some in Hi as (x & Hx & _). eauto.
  - apply IH; [exact Hin|].
    rewrite (getElementById_keeps pg) by apply keeps_fields_ids, keeps_displayError.
    exact Hi.
Qed.

Lemma textContent_update_ne j f pg i :
  j <> i -> textContent (updateElement j f pg) i = textContent pg i.
Proof.
  intros H. unfold textContent. rewrite lookup_updateElement.
  destruct (decide (j = i)); [congruence | reflexivity].
Qed.

Lemma textContent_update_keep j f pg i :
  (forall e, el_text (f e) = el_text e) ->
  textContent (updateElement j f pg) i = textContent pg i.
Proof.
  intros H. unfold textContent. apply keeps_lookup, keeps_updateElement, H.
Qed.

Lemma textContent_setTextContent i t pg :
  is_Some (elements pg !! i) -> textContent (setTextContent i t pg) i = Some t.
Proof.
  intros [e He]. unfold textContent, setTextContent. rewrite lookup_updateElement.
  destruct (decide (i = i)); [|congruence]. rewrite He. reflexivity.
Qed.

Lemma el_text_classAdd c e : el_text (classAdd c e) = el_text e.
Proof. unfold classAdd. destruct (elemHasClass c e); reflexivity. Qed.

Lemma displayError_text_other pg k m i :
  getElementById pg (errorElementId k) <> Some i ->
  textContent (displayError pg (k, m)) i = textContent pg i.
Proof.
  intros H. unfold displayError.
  destruct (getElementById pg (errorElementId k)) as [ee|].
  - destruct (getElementById _ k) as [ie|].
    + unfold addClass. rewrite textContent_update_keep by apply el_text_classAdd.
      apply textContent_update_ne. congruence.
    + apply textContent_update_ne. congruence.
  - destruct (getElementById _ k) as [ie|]; [|reflexivity].
    unfold addClass. apply textContent_update_keep, el_text_classAdd.
Qed.

Lemma displayError_text_here pg k m i :
  getElementById pg (errorElementId k) = Some i ->
  textContent (displayError pg (k, m)) i = Some m.
Proof.
  intros H. unfold displayError. rewrite H.
  assert (Hs : textContent (setTextContent i m pg) i = Some m).
  { apply textContent_setTextContent.
    apply getElementById_Some in H as (x & Hx & _). eauto. }
  destruct (getElementById _ k) as [ie|]; [|exact Hs].
  unfold addClass. rewrite textContent_update_keep by apply el_text_classAdd.
  exact Hs.
Qed.

(** The error element of a reported field shows the message of that field,
    as long as no two reported fields share an error element. *)
Lemma displayErrors_text errs pg field msg i :
  NoDup (List.map (fun kv => errorElementId (fst kv)) errs) ->
  In (field, msg) errs ->
  getElementById pg (errorElementId field) = Some i ->
  textContent (displayErrors errs pg) i = Some msg.
Proof.
  revert pg. induction errs as [|[k m] errs IH]; intros pg Hnd Hin Hi; [destruct Hin|].
  simpl in Hnd. apply NoDup_cons in Hnd as [Hk Hnd].
  assert (Hids : forall id, getElementById (displayError pg (k, m)) id = getElementById pg id).
  { intros id. apply getElementById_keeps, keeps_fields_ids, keeps_displayError. }
  rewrite displayErrors_cons. destruct Hin as [[= -> ->]|Hin].
  - assert (Hrest : forall l pg0,
              (forall id, getElementById pg0 id = getElementById pg id) ->
              ~ In (errorElementId field) (List.map (fun kv => errorElementId (fst kv)) l) ->
              textContent (displayErrors l pg0) i = textContent pg0 i).
    { induction l as [|[k' m'] l IHl]; intros pg0 Hsame Hnot; [reflexivity|].
      rewrite displayErrors_cons. rewrite IHl.
      - apply displayError_text_other. rewrite Hsame. intros Heq.
        apply Hnot. left. simpl. eapply getElementById_inj; eauto.
      - intros id. rewrite <- Hsame.
        apply getElementById_keeps, keeps_fields_ids, keeps_displayError.
      - intros Hin'. apply Hnot. right. exact Hin'. }
    rewrite Hrest.
    + apply displayError_text_here, Hi.
    + exact Hids.
    + rewrite <- list_elem_of_In. exact Hk.
  - apply IH; auto. rewrite Hids. exact Hi.
Qed.

Lemma show_text_other tm opts pg i :
  messageElement tm <> Some i ->
  textContent (Toast.show tm opts pg) i = textContent pg i.
Proof.
  intros H. unfold Toast.show.
  destruct (toastElement tm) as [te|]; [|reflexivity].
  destruct (messageElement tm) as [me|]; [|reflexivity].
  unfold setTimeout, textContent. cbn [elements withTimers].
  fold (textContent (addClass te (js "show")
          (setStyle te (js "background")
             match Toast.t_type opts with
             | Toast.error => js "var(--color-error)"
             | _ => js "var(--color-success)"
             end (setTextContent me (Toast.t_message opts) pg))) i).
  unfold addClass. rewrite textContent_update_keep by apply el_text_classAdd.
  unfold setStyle. rewrite textContent_update_keep by reflexivity.
  apply textContent_update_ne. congruence.
Qed.

(** What [show] leaves on the two toast elements. *)
Lemma show_shows tm opts pg te me :
  toastElement tm = Some te -> messageElement tm = Some me ->
  is_Some (elements pg !! te) -> is_Some (elements pg !! me) ->
  textContent (Toast.show tm opts pg) me = Some (Toast.t_message opts)
  /\ hasClass (Toast.show tm opts pg) te (js "show") = true
  /\ getStyle (Toast.show tm opts pg) te (js "background")
     = Some match Toast.t_type opts with
            | Toast.error => js "var(--color-error)"
            | _ => js "var(--color-success)"
            end.
Proof.
  intros Ht Hm [x Hx] [y Hy]. unfold Toast.show. rewrite Ht, Hm.
  set (bg := match Toast.t_type opts with
             | Toast.error => js "var(--color-error)"
             | _ => js "var(--color-success)"
             end).
  unfold textContent, hasClass, getStyle, setTimeout, addClass, setStyle, setTextContent.
  cbn [elements withTimers withElements updateElement].
  rewrite !list_lookup_alter.
  destruct (decide (te = me)) as [->|Hne].
  - destruct (decide (me = me)); [|congruence]. rewrite Hy. simpl.
    split; [|split].
    + rewrite el_text_classAdd. reflexivity.
    + apply elemHasClass_classAdd.
    + unfold classAdd. destruct (elemHasClass _ _); simpl; apply assoc_assocSet.
  - destruct (decide (te = te)); [|congruence].
    destruct (decide (me = me)); [|congruence].
    destruct (decide (me = te)); [congruence|].
    rewrite Hx, Hy. simpl.
    split; [reflexivity|split].
    + apply elemHasClass_classAdd.
    + unfold classAdd. destruct (elemHasClass _ _); simpl; apply assoc_assocSet.
Qed.

End InvalidFacts.

(** ** A submission that fails validation *)

Section InvalidSubmission.
Import DOM FormValidator Appointment.

Lemma errors_fields env fd field msg :
  In (field, msg) (errors (validateForm env fd)) ->
  (field = js "patientName" /\ msg = validateName (patientName fd))
  \/ (field = js "phoneNumber" /\ msg = validatePhone (phoneNumber fd))
  \/ (field = js "preferredDate" /\ msg = validateDate env (preferredDate fd)).
Proof.
  unfold validateForm. cbn [errors]. intros H.
  apply filter_In in H as [H _].
  destruct H as [[= <- <-]|[[= <- <-]|[[= <- <-]|[]]]]; auto.
Qed.

Lemma errors_ids_NoDup env fd :
  NoDup (List.map (fun kv => errorElementId (fst kv)) (errors (validateForm env fd))).
Proof.
  unfold validateForm. cbn [errors List.filter snd].
  destruct (negb (isEmptyString (validateName (patientName fd))));
    destruct (negb (isEmptyString (validatePhone (phoneNumber fd))));
    destruct (negb (isEmptyString (validateDate env (preferredDate fd))));
    cbn [List.map fst];
    repeat (apply NoDup_cons; split;
            [ rewrite list_elem_of_In; vm_compute; intuition discriminate | ]);
    apply NoDup_nil; exact I.
Qed.

Lemma isValid_false_errors env fd :
  isValid (validateForm env fd) = false -> errors (validateForm env fd) <> [].
Proof.
  unfold validateForm. cbn [isValid errors].
  destruct (List.filter _ _); [discriminate | discriminate].
Qed.

Lemma overlays_fold {A} (step : Page -> A -> Page) (l : list A) pg :
  (forall acc x, overlays (step acc x) = overlays acc) ->
  overlays (fold_left step l pg) = overlays pg.
Proof.
  intros H. revert pg. induction l as [|x l IH]; intros pg; simpl; [reflexivity|].
  rewrite IH. apply H.
Qed.

Lemma overlays_clearFormErrors pg : overlays (clearFormErrors pg) = overlays pg.
Proof.
  unfold clearFormErrors.
  rewrite overlays_fold by reflexivity. apply overlays_fold. reflexivity.
Qed.

Lemma overlays_displayErrors errs pg : overlays (displayErrors errs pg) = overlays pg.
Proof.
  apply overlays_fold. intros acc [field msg]. unfold displayError.
  destruct (getElementById acc (errorElementId field));
    destruct (getElementById acc field); reflexivity.
Qed.

Lemma overlays_show tm opts pg : overlays (Toast.show tm opts pg) = overlays pg.
Proof.
  unfold Toast.show.
  destruct (toastElement tm); [|reflexivity].
  destruct (messageElement tm); reflexivity.
Qed.

(** C10. When validation fails, [handleSubmit] returns with every form
    control as the user left it: identifiers, names, values and default
    values of all elements are unchanged, so the record read from the form
    is the same; the reset of the success path is not reached. *)
Theorem handleSubmit_invalid_keeps_input
        (env : Env) (self : AppointmentForm) (e : Event) (pg : Page) :
  isValid (validateForm env (readFields pg)) = false ->
  exists pg',
    handleSubmit env self e pg = Done (preventDefault e, pg')
    /\ formState pg' = formState pg
    /\ readFields pg' = readFields pg
    /\ (forall i, valueOf pg' i = valueOf pg i).
Proof.
  intros Hv. destruct (form self) as [f|] eqn:Hf.
  - exists (afterInvalid self (errors (validateForm env (readFields pg))) pg).
    pose proof (keeps_afterInvalid self (errors (validateForm env (readFields pg))) pg) as K.
    split; [apply (handleSubmit_invalid env self e pg f Hf Hv)|].
    split; [exact K|].
    split; [apply readFields_keeps, K|].
    intros i. unfold valueOf.
    apply (keeps_lookup el_value).
    apply (keeps_compose fieldsOf (fun t => let '(_, _, _, v, _) := t in v)) in K.
    exact K.
  - exists pg. unfold handleSubmit. rewrite Hf. auto.
Qed.

Lemma handleSubmit_invalid_keeps_input_witness :
  exists pg',
    handleSubmit Sample.india (Sample.controller Sample.invalidPage)
                 Sample.submitEvent Sample.invalidPage
      = Done (preventDefault Sample.submitEvent, pg')
    /\ formState pg' = formState Sample.invalidPage
    /\ readFields pg' = readFields Sample.invalidPage
    /\ (forall i, valueOf pg' i = valueOf Sample.invalidPage i).
Proof.
  apply (handleSubmit_invalid_keeps_input Sample.india
           (Sample.controller Sample.invalidPage) Sample.submitEvent Sample.invalidPage).
  vm_compute. reflexivity.
Defined.

(** C4. When validation fails on a page that has the form, [handleSubmit]
    returns normally and leaves a page on which: for every failing field,
    its error element (where the page has one) shows the field's message
    and its input (where the page has one) carries the class [error]; the
    input of the first failing field has the focus; the toast (where the
    page has it) shows the error notification; and no dialog with outbound
    links was added. *)
Theorem handleSubmit_invalid_reports
        (env : Env) (self : AppointmentForm) (e : Event) (pg : Page) :
  boundTo self pg ->
  form self <> None ->
  isValid (validateForm env (readFields pg)) = false ->
  exists pg',
    handleSubmit env self e pg = Done (preventDefault e, pg')
    /\ (forall field msg,
          In (field, msg) (errors (validateForm env (readFields pg))) ->
          (forall i, getElementById pg (errorElementId field) = Some i ->
                     textContent pg' i = Some msg)
          /\ (forall i, getElementById pg field = Some i ->
                        hasClass pg' i (js "error") = true))
    /\ (forall field msg rest,
          errors (validateForm env (readFields pg)) = (field, msg) :: rest ->
          forall i, getElementById pg field = Some i -> activeElement pg' = Some i)
    /\ toastShows (toastManager self) (js "Please fix the errors below")
                  (js "var(--color-error)") pg'
    /\ overlays pg' = overlays pg.
Proof.
  intros (Hbf & Hbt & Hbm) Hform Hv.
  destruct (form self) as [f|] eqn:Hf; [clear Hform | congruence].
  set (errs := errors (validateForm env (readFields pg))).
  exists (afterInvalid self errs pg).
  split; [apply (handleSubmit_invalid env self e pg f Hf Hv)|].
  set (pg0 := clearFormErrors pg).
  assert (Hid0 : forall id, getElementById pg0 id = getElementById pg id).
  { intros id. apply getElementById_keeps, keeps_fields_ids, keeps_clearFormErrors. }
  set (pg1 := displayErrors errs pg0).
  assert (Hid1 : forall id, getElementById pg1 id = getElementById pg id).
  { intros id. rewrite <- Hid0.
    apply getElementById_keeps, keeps_fields_ids, keeps_displayErrors. }
  set (first := match errs with (k, _) :: _ => k | [] => js "undefined" end).
  set (pg2 := match getElementById pg1 first with
              | Some fe => focus fe pg1
              | None => pg1
              end).
  assert (Hel2 : elements pg2 = elements pg1).
  { unfold pg2. destruct (getElementById pg1 first); reflexivity. }
  change (afterInvalid self errs pg) with
    (Toast.show (toastManager self)
       (Toast.mkToastOptions (js "Please fix the errors below") Toast.error None) pg2).
  split; [|split; [|split]].
  - intros field msg Hin. split; intros i Hi.
    + rewrite show_text_other.
      * unfold textContent. rewrite Hel2.
        apply (displayErrors_text errs pg0 field msg i);
          [apply errors_ids_NoDup | exact Hin | rewrite Hid0; exact Hi].
      * rewrite Hbm. intros Hme.
        pose proof (getElementById_inj pg _ _ i Hi Hme) as Heq.
        apply errors_fields in Hin as [[-> _]|[[-> _]|[-> _]]];
          vm_compute in Heq; discriminate.
    + apply classesGrow_show. unfold hasClass. rewrite Hel2.
      apply (displayErrors_class errs pg0 field msg i Hin).
      rewrite Hid0. exact Hi.
  - intros field msg rest Herrs i Hi.
    assert (Hact : activeElement pg2 = Some i).
    { unfold pg2, first. rewrite Herrs, Hid1, Hi. reflexivity. }
    rewrite <- Hact. unfold Toast.show.
    destruct (toastElement (toastManager self)); [|reflexivity].
    destruct (messageElement (toastManager self)); reflexivity.
  - intros te me Ht Hm.
    assert (Hex : forall id j, getElementById pg id = Some j -> is_Some (elements pg2 !! j)).
    { intros id j Hj. rewrite <- Hid1 in Hj.
      apply getElementById_Some in Hj as (x & Hx & _). rewrite Hel2. eauto. }
    destruct (show_shows (toastManager self)
                (Toast.mkToastOptions (js "Please fix the errors below") Toast.error None)
                pg2 te me Ht Hm) as (H1 & H2 & H3).
    + apply (Hex (js "toast")). rewrite <- Hbt. exact Ht.
    + apply (Hex (js "toastMessage")). rewrite <- Hbm. exact Hm.
    + auto.
  - rewrite overlays_show.
    transitivity (overlays pg1).
    + unfold pg2. destruct (getElementById pg1 first); reflexivity.
    + unfold pg1, pg0. rewrite overlays_displayErrors. apply overlays_clearFormErrors.
Qed.

Lemma handleSubmit_invalid_reports_witness :
  errors (validateForm Sample.india (readFields Sample.invalidPage))
    = [(js "patientName", msgNameRequired); (js "phoneNumber", msgPhoneInvalid)]
  /\ exists pg',
       handleSubmit Sample.india (Sample.controller Sample.invalidPage)
                    Sample.submitEvent Sample.invalidPage
         = Done (preventDefault Sample.submitEvent, pg')
       /\ textContent pg' 2 = Some msgNameRequired
       /\ textContent pg' 4 = Some msgPhoneInvalid
       /\ hasClass pg' 1 (js "error") = true
       /\ hasClass pg' 3 (js "error") = true
       /\ activeElement pg' = Some 1%nat
       /\ textContent pg' 11 = Some (js "Please fix the errors below")
       /\ overlays pg' = [].
Proof.
  assert (Herrs : errors (validateForm Sample.india (readFields Sample.invalidPage))
                  = [(js "patientName", msgNameRequired); (js "phoneNumber", msgPhoneInvalid)])
    by (vm_compute; reflexivity).
  split; [exact Herrs|].
  destruct (handleSubmit_invalid_reports Sample.india
              (Sample.controller Sample.invalidPage) Sample.submitEvent Sample.invalidPage)
    as (pg' & Hrun & Hshow & Hfocus & Htoast & Hov).
  - repeat split.
  - vm_compute. discriminate.
  - vm_compute. reflexivity.
  - exists pg'. split; [exact Hrun|].
    destruct (Hshow (js "patientName") msgNameRequired) as [Ht1 Hc1];
      [rewrite Herrs; left; reflexivity|].
    destruct (Hshow (js "phoneNumber") msgPhoneInvalid) as [Ht2 Hc2];
      [rewrite Herrs; right; left; reflexivity|].
    destruct (Htoast 10%nat 11%nat) as (Hm & _); [reflexivity | reflexivity |].
    split; [apply Ht1; reflexivity|].
    split; [apply Ht2; reflexivity|].
    split; [apply Hc1; reflexivity|].
    split; [apply Hc2; reflexivity|].
    split; [apply (Hfocus _ _ _ Herrs); reflexivity|].
    split; [exact Hm | exact Hov].
Defined.

End InvalidSubmission.

(** ** Percent-encoding *)

Section EncodingFacts.
Import URI.

Lemma option_map_app_nil (o : option jsstring) : option_map (app []) o = o.
Proof. destruct o; reflexivity. Qed.

Lemma option_map_compose {A B C} (f : A -> B) (g : B -> C) (o : option A) :
  option_map g (option_map f o) = option_map (fun x => g (f x)) o.
Proof. destruct o; reflexivity. Qed.

(** Encoding goes through a concatenation whose first part is accepted. *)
Lemma encode_app_bounded n : forall a ea b,
  (length a <= n)%nat ->
  encodeURIComponent a = Some ea ->
  encodeURIComponent (a ++ b) = option_map (app ea) (encodeURIComponent b).
Proof.
  induction n as [|n IH]; intros a ea b Hl Ha.
  - destruct a; [|simpl in Hl; lia].
    injection Ha as <-. simpl. symmetry. apply option_map_app_nil.
  - destruct a as [|c rest].
    { injection Ha as <-. simpl. symmetry. apply option_map_app_nil. }
    simpl in Hl. cbn [encodeURIComponent app] in *.
    destruct (isUnescaped c).
    { destruct (encodeURIComponent rest) as [er|] eqn:Er; [|discriminate].
      injection Ha as <-.
      rewrite (IH rest er b) by (auto; lia).
      rewrite option_map_compose. reflexivity. }
    destruct (isHighSurrogate c).
    { destruct rest as [|l rest']; [discriminate|].
      cbn [app]. destruct (isLowSurrogate l); [|discriminate].
      destruct (encodeURIComponent rest') as [er|] eqn:Er; [|discriminate].
      injection Ha as <-. simpl in Hl.
      rewrite (IH rest' er b) by (auto; lia).
      rewrite option_map_compose.
      destruct (encodeURIComponent b); simpl; [|reflexivity].
      rewrite app_assoc. reflexivity. }
    destruct (isLowSurrogate c); [discriminate|].
    destruct (encodeURIComponent rest) as [er|] eqn:Er; [|discriminate].
    injection Ha as <-.
    rewrite (IH rest er b) by (auto; lia).
    rewrite option_map_compose.
    destruct (encodeURIComponent b); simpl; [|reflexivity].
    rewrite app_assoc. reflexivity.
Qed.

Lemma encode_app a ea b eb :
  encodeURIComponent a = Some ea ->
  encodeURIComponent b = Some eb ->
  encodeURIComponent (a ++ b) = Some (ea ++ eb).
Proof.
  intros Ha Hb. rewrite (encode_app_bounded (length a) a ea b) by auto.
  rewrite Hb. reflexivity.
Qed.

Lemma wellFormed_app a b : wellFormed a -> wellFormed b -> wellFormed (a ++ b).
Proof.
  intros [ea Ha] [eb Hb]. exists (ea ++ eb). apply encode_app; assumption.
Qed.

Lemma wellFormed_nil : wellFormed [].
Proof. exists []. reflexivity. Qed.

Lemma wellFormed_cons_plain c s :
  isHighSurrogate c = false -> isLowSurrogate c = false ->
  wellFormed s -> wellFormed (c :: s).
Proof.
  intros Hh Hl [es Hs]. unfold wellFormed. cbn [encodeURIComponent].
  rewrite Hh, Hl, Hs. destruct (isUnescaped c); simpl; eauto.
Qed.

Lemma high_not_unescaped c : isHighSurrogate c = true -> isUnescaped c = false.
Proof.
  unfold isHighSurrogate, isUnescaped, isDigit. intros H.
  apply andb_true_iff in H as [H1 H2]. apply N.leb_le in H1, H2.
  repeat match goal with
         | |- context [ (?a <=? ?b) ] => destruct (N.leb_spec a b); try lia
         | |- context [ (?a =? ?b) ] => destruct (N.eqb_spec a b); try lia
         end; reflexivity.
Qed.

Lemma wellFormed_cons_pair c l s :
  isHighSurrogate c = true -> isLowSurrogate l = true ->
  wellFormed s -> wellFormed (c :: l :: s).
Proof.
  intros Hh Hl [es Hs]. unfold wellFormed. cbn [encodeURIComponent].
  rewrite (high_not_unescaped c Hh), Hh, Hl, Hs. simpl. eauto.
Qed.

(** A scalar value string is accepted by [encodeURIComponent]. *)
Lemma toUSV_wellFormed_bounded n : forall s,
  (length s <= n)%nat -> wellFormed (toUSV s).
Proof.
  induction n as [|n IH]; intros s Hl.
  - destruct s; [apply wellFormed_nil | simpl in Hl; lia].
  - destruct s as [|c rest]; [apply wellFormed_nil|].
    simpl in Hl. cbn [toUSV].
    assert (Hrep : forall t, wellFormed t -> wellFormed (65533 :: t)).
    { intros t Ht. apply wellFormed_cons_plain; auto. }
    destruct (isHighSurrogate c) eqn:Hh.
    + destruct rest as [|l rest'].
      * apply Hrep, wellFormed_nil.
      * destruct (isLowSurrogate l) eqn:Hlow.
        -- apply wellFormed_cons_pair; auto. apply IH. simpl in Hl. lia.
        -- apply Hrep. apply IH. lia.
    + destruct (isLowSurrogate c) eqn:Hlow.
      * apply Hrep. apply IH. lia.
      * apply wellFormed_cons_plain; auto. apply IH. lia.
Qed.

Lemma toUSV_wellFormed s : wellFormed (toUSV s).
Proof. apply (toUSV_wellFormed_bounded (length s)). lia. Qed.

Lemma occursIn_base pre part post :
  wellFormed pre -> wellFormed post -> occursIn part (pre ++ part ++ post).
Proof. intros Hp Hq. exists pre, post. auto. Qed.

Lemma occursIn_app part a b : occursIn part a -> wellFormed b -> occursIn part (a ++ b).
Proof.
  intros (pre & post & -> & Hp & Hq) Hb.
  exists pre, (post ++ b). split; [|split; auto using wellFormed_app].
  rewrite <- !app_assoc. reflexivity.
Qed.

Lemma occursIn_wellFormed part a : occursIn part a -> wellFormed part -> wellFormed a.
Proof.
  intros (pre & post & -> & Hp & Hq) Hpart. auto using wellFormed_app.
Qed.

(** The encoding of a stretch is a stretch of the encoding. *)
Lemma occursIn_encoded part text ep et :
  occursIn part text ->
  encodeURIComponent part = Some ep ->
  encodeURIComponent text = Some et ->
  includes ep et.
Proof.
  intros (pre & post & -> & [epre Hpre] & [epost Hpost]) Hp Ht.
  rewrite (encode_app pre epre (part ++ post) (ep ++ epost)) in Ht.
  - injection Ht as <-. exists epre, epost. reflexivity.
  - exact Hpre.
  - apply encode_app; assumption.
Qed.

Lemma includes_prefix part text pre : includes part text -> includes part (pre ++ text).
Proof.
  intros (a & b & ->). exists (pre ++ a), b. rewrite <- app_assoc. reflexivity.
Qed.

End EncodingFacts.

(** ** A submission that passes validation *)

Section ValidSubmission.
Import DOM FormValidator Appointment URI.

Ltac wf_literal :=
  match goal with
  | |- wellFormed (js _) => eexists; vm_compute; reflexivity
  | |- wellFormed (cons _ _) => eexists; vm_compute; reflexivity
  end.

Ltac wf_solve :=
  repeat first
    [ assumption
    | apply wellFormed_nil
    | apply toUSV_wellFormed
    | wf_literal
    | apply wellFormed_app ].

Lemma assoc_In {A} k (v : A) l : assoc k l = Some v -> In v (List.map snd l).
Proof.
  induction l as [|[k' v'] l IH]; simpl; [discriminate|].
  destruct (streq k k'); [intros [= ->]; auto | auto].
Qed.

Lemma lookupOr_wellFormed env table key :
  envWellFormed env ->
  (forall v, In v (List.map snd table) -> wellFormed v) ->
  wellFormed key ->
  wellFormed (lookupOr env table key).
Proof.
  intros [_ Hinh] Ht Hk. unfold lookupOr.
  destruct (assoc key table) as [v|] eqn:Ea.
  - destruct (isEmptyString v); [exact Hk|]. apply Ht. eapply assoc_In; eauto.
  - destruct (inherited env key) as [r|] eqn:Ei; [eapply Hinh; eauto | exact Hk].
Qed.

Lemma serviceNames_wellFormed v : In v (List.map snd serviceNames) -> wellFormed v.
Proof.
  simpl. intros H.
  repeat (destruct H as [<-|H]; [eexists; vm_compute; reflexivity|]).
  destruct H.
Qed.

Lemma timeSlots_wellFormed v : In v (List.map snd timeSlots) -> wellFormed v.
Proof.
  simpl. intros H.
  repeat (destruct H as [<-|H]; [eexists; vm_compute; reflexivity|]).
  destruct H.
Qed.

Lemma orEmpty_formDataGet_wellFormed pg name : wellFormed (orEmpty (formDataGet pg name)).
Proof.
  unfold formDataGet. destruct (List.find _ _); simpl; wf_solve.
Qed.

Lemma occursIn_optional part a b (c : bool) :
  occursIn part a -> wellFormed b -> occursIn part (if c then a else a ++ b).
Proof. intros Ha Hb. destruct c; [exact Ha | apply occursIn_app; assumption]. Qed.

(** The name and the phone number are stretches of both message texts. *)
Lemma texts_hold_name_and_phone env fd :
  envWellFormed env ->
  wellFormed (patientName fd) -> wellFormed (phoneNumber fd) ->
  wellFormed (serviceType fd) -> wellFormed (preferredDate fd) ->
  wellFormed (preferredTime fd) -> wellFormed (message fd) ->
  occursIn (patientName fd) (emailText env fd)
  /\ occursIn (phoneNumber fd) (emailText env fd)
  /\ occursIn (patientName fd) (whatsAppText fd)
  /\ occursIn (phoneNumber fd) (whatsAppText fd).
Proof.
  intros Henv Hn Hp Hs Hd Ht Hm.
  assert (Hsv : wellFormed (lookupOr env serviceNames (serviceType fd)))
    by (apply lookupOr_wellFormed; auto using serviceNames_wellFormed).
  assert (Hts : wellFormed (lookupOr env timeSlots (preferredTime fd)))
    by (apply lookupOr_wellFormed; auto using timeSlots_wellFormed).
  assert (Hdt : wellFormed (toLocaleDateString env (newDate env (preferredDate fd))))
    by apply Henv.
  unfold emailText, whatsAppText. cbv zeta.
  split; [|split; [|split]].
  - apply occursIn_app; [|wf_solve].
    do 4 (apply occursIn_optional; [|wf_solve]).
    apply occursIn_app; [|wf_solve].
    rewrite app_assoc. apply occursIn_base; wf_solve.
  - apply occursIn_app; [|wf_solve].
    do 4 (apply occursIn_optional; [|wf_solve]).
    rewrite app_assoc. apply occursIn_base; wf_solve.
  - do 3 (apply occursIn_optional; [|wf_solve]).
    apply occursIn_app; [|wf_solve].
    rewrite app_assoc. apply occursIn_base; wf_solve.
  - do 3 (apply occursIn_optional; [|wf_solve]).
    rewrite app_assoc. apply occursIn_base; wf_solve.
Qed.

Lemma handleSubmit_valid env self e pg f emailContent whatsappMessage :
  form self = Some f ->
  isValid (validateForm env (readFields pg)) = true ->
  encodeURIComponent (emailText env (readFields pg)) = Some emailContent ->
  encodeURIComponent (whatsAppText (readFields pg)) = Some whatsappMessage ->
  handleSubmit env self e pg =
    Done (preventDefault e, afterValid self emailContent whatsappMessage pg).
Proof.
  intros Hf Hv He Hw. unfold handleSubmit, getFormData. rewrite Hf. cbn [bind].
  rewrite (readFields_keeps pg (clearFormErrors pg)) by apply keeps_clearFormErrors.
  rewrite Hv. cbn [negb]. cbv iota.
  unfold generateEmailContent, generateWhatsAppMessage. rewrite He, Hw.
  reflexivity.
Qed.

Lemma lookup_reset pg i : elements (reset pg) !! i = resetControl <$> elements pg !! i.
Proof. unfold reset. cbn [elements withElements]. apply list_lookup_fmap. Qed.

Lemma resetControl_cases x :
  resetControl x = x \/ resetControl x = setValue (el_default x) x.
Proof. unfold resetControl. destruct (el_control x); auto. Qed.

Lemma textContent_reset pg i : textContent (reset pg) i = textContent pg i.
Proof.
  unfold textContent. rewrite lookup_reset.
  destruct (elements pg !! i) as [x|]; [|reflexivity].
  simpl. destruct (resetControl_cases x) as [-> | ->]; reflexivity.
Qed.

Lemma hasClass_reset pg i c : hasClass (reset pg) i c = hasClass pg i c.
Proof.
  unfold hasClass. rewrite lookup_reset.
  destruct (elements pg !! i) as [x|]; [|reflexivity].
  simpl. destruct (resetControl_cases x) as [-> | ->]; reflexivity.
Qed.

Lemma getStyle_reset pg i k : getStyle (reset pg) i k = getStyle pg i k.
Proof.
  unfold getStyle. rewrite lookup_reset.
  destruct (elements pg !! i) as [x|]; [|reflexivity].
  simpl. destruct (resetControl_cases x) as [-> | ->]; reflexivity.
Qed.

(** After the reset every control holds its default value. *)
Lemma reset_values pg i x :
  elements (reset pg) !! i = Some x ->
  exists y, elements pg !! i = Some y
            /\ fieldsOf x = (el_id y, el_name y, el_control y,
                             (if el_control y then el_default y else el_value y),
                             el_default y).
Proof.
  rewrite lookup_reset. destruct (elements pg !! i) as [y|]; [|discriminate].
  simpl. intros [= <-]. exists y. split; [reflexivity|].
  unfold resetControl. destruct (el_control y) eqn:E; unfold fieldsOf; simpl; rewrite ?E; reflexivity.
Qed.

Lemma formDataGet_cleared pg name :
  (forall x, In x (elements pg) -> el_control x = true -> el_value x = []) ->
  orEmpty (formDataGet pg name) = [].
Proof.
  intros H. unfold formDataGet.
  destruct (List.find _ _) as [x|] eqn:E; [|reflexivity].
  apply find_some in E as [Hin Hp]. apply andb_true_iff in Hp as [Hc _].
  simpl. rewrite (H x Hin Hc). reflexivity.
Qed.

(** C3. When validation passes on a page that has the form, [handleSubmit]
    returns normally: both message texts are percent-encoded; exactly one
    dialog is added, holding two links, the one [https://wa.me/917359171081?text=]
    followed by the encoded WhatsApp text and the other
    [mailto:?subject=Appointment Request - AAYURCURE&body=] followed by the
    encoded email text; each link contains the percent-encoded patient
    name and the percent-encoded phone number; the toast (where the page
    has it) shows the success notification; and every control of the form
    is back at its default value, which is what [form.reset()] does: the
    form reads as the empty record when the defaults are empty, and not
    otherwise. *)
Theorem handleSubmit_valid_prepares_links
        (env : Env) (self : AppointmentForm) (e : Event) (pg : Page) :
  envWellFormed env ->
  boundTo self pg ->
  form self <> None ->
  isValid (validateForm env (readFields pg)) = true ->
  exists pg' emailContent whatsappMessage encName encPhone,
    handleSubmit env self e pg = Done (preventDefault e, pg')
    /\ encodeURIComponent (emailText env (readFields pg)) = Some emailContent
    /\ encodeURIComponent (whatsAppText (readFields pg)) = Some whatsappMessage
    /\ overlays pg' =
         overlays pg ++ [mkContactOptions (js "https://wa.me/917359171081?text=" ++ whatsappMessage)
                                          (js "mailto:?subject=Appointment Request - AAYURCURE&body=" ++ emailContent)]
    /\ encodeURIComponent (patientName (readFields pg)) = Some encName
    /\ encodeURIComponent (phoneNumber (readFields pg)) = Some encPhone
    /\ includes encName (js "mailto:?subject=Appointment Request - AAYURCURE&body=" ++ emailContent)
    /\ includes encPhone (js "mailto:?subject=Appointment Request - AAYURCURE&body=" ++ emailContent)
    /\ includes encName (js "https://wa.me/917359171081?text=" ++ whatsappMessage)
    /\ includes encPhone (js "https://wa.me/917359171081?text=" ++ whatsappMessage)
    /\ toastShows (toastManager self)
         (js "Appointment request prepared! Choose your preferred contact method.")
         (js "var(--color-success)") pg'
    /\ (forall i x, elements pg' !! i = Some x -> el_control x = true ->
                    el_value x = el_default x)
    /\ (forall i, el_default <$> elements pg' !! i = el_default <$> elements pg !! i)
    /\ (defaultsEmpty pg -> readFields pg' = emptyRecord).
Proof.
  intros Henv (Hbf & Hbt & Hbm) Hform Hv.
  change (js "https://wa.me/917359171081?text=") with whatsappPrefix.
  change (js "mailto:?subject=Appointment Request - AAYURCURE&body=") with mailtoPrefix.
  destruct (form self) as [f|] eqn:Hf; [clear Hform | congruence].
  pose proof (texts_hold_name_and_phone env (readFields pg) Henv
                (orEmpty_formDataGet_wellFormed pg _) (orEmpty_formDataGet_wellFormed pg _)
                (orEmpty_formDataGet_wellFormed pg _) (orEmpty_formDataGet_wellFormed pg _)
                (orEmpty_formDataGet_wellFormed pg _) (orEmpty_formDataGet_wellFormed pg _))
    as (Hen & Hep & Hwn & Hwp).
  destruct (orEmpty_formDataGet_wellFormed pg (js "patientName")) as [encName HencN].
  destruct (orEmpty_formDataGet_wellFormed pg (js "phoneNumber")) as [encPhone HencP].
  change (orEmpty (formDataGet pg (js "patientName"))) with (patientName (readFields pg)) in HencN.
  change (orEmpty (formDataGet pg (js "phoneNumber"))) with (phoneNumber (readFields pg)) in HencP.
  destruct (occursIn_wellFormed _ _ Hen (ex_intro _ encName HencN)) as [emailContent He].
  destruct (occursIn_wellFormed _ _ Hwn (ex_intro _ encName HencN)) as [whatsappMessage Hw].
  exists (afterValid self emailContent whatsappMessage pg),
         emailContent, whatsappMessage, encName, encPhone.
  set (opts := Toast.mkToastOptions
                 (js "Appointment request prepared! Choose your preferred contact method.")
                 Toast.success None).
  set (pg0 := clearFormErrors pg).
  set (pg1 := Toast.show (toastManager self) opts pg0).
  assert (K1 : keeps fieldsOf pg pg1).
  { eapply keeps_trans; [apply keeps_clearFormErrors | apply keeps_show]. }
  assert (Hshape : afterValid self emailContent whatsappMessage pg
                   = reset (showContactOptions (mailtoPrefix ++ emailContent)
                                               (whatsappPrefix ++ whatsappMessage) pg1))
    by reflexivity.
  split; [apply (handleSubmit_valid env self e pg f _ _ Hf Hv He Hw)|].
  split; [exact He|]. split; [exact Hw|].
  split.
  { rewrite Hshape. unfold reset, showContactOptions. cbn [overlays withElements withOverlays].
    unfold pg1. rewrite overlays_show. unfold pg0. rewrite overlays_clearFormErrors.
    reflexivity. }
  split; [exact HencN|]. split; [exact HencP|].
  split; [apply includes_prefix; exact (occursIn_encoded _ _ _ _ Hen HencN He)|].
  split; [apply includes_prefix; exact (occursIn_encoded _ _ _ _ Hep HencP He)|].
  split; [apply includes_prefix; exact (occursIn_encoded _ _ _ _ Hwn HencN Hw)|].
  split; [apply includes_prefix; exact (occursIn_encoded _ _ _ _ Hwp HencP Hw)|].
  split.
  { intros te me Ht Hm. rewrite Hshape.
    rewrite textContent_reset, hasClass_reset, getStyle_reset.
    assert (Hex : forall id j, getElementById pg id = Some j -> is_Some (elements pg0 !! j)).
    { intros id j Hj.
      rewrite <- (getElementById_keeps pg pg0) in Hj
        by apply keeps_fields_ids, keeps_clearFormErrors.
      apply getElementById_Some in Hj as (x & Hx & _). eauto. }
    apply (show_shows (toastManager self) opts pg0 te me Ht Hm).
    - apply (Hex (js "toast")). rewrite <- Hbt. exact Ht.
    - apply (Hex (js "toastMessage")). rewrite <- Hbm. exact Hm. }
  split.
  { intros i x Hx Hc. rewrite Hshape in Hx.
    apply reset_values in Hx as (y & _ & Hy).
    unfold fieldsOf in Hy. injection Hy as _ _ Hcy Hvy Hdy.
    rewrite Hc in Hcy. rewrite <- Hcy in Hvy. congruence. }
  split.
  { intros i. rewrite Hshape, lookup_reset.
    change (elements (showContactOptions (mailtoPrefix ++ emailContent)
                        (whatsappPrefix ++ whatsappMessage) pg1)) with (elements pg1).
    rewrite <- (keeps_lookup el_default pg pg1 i)
      by apply (keeps_compose fieldsOf (fun t => let '(_, _, _, _, d) := t in d)), K1.
    destruct (elements pg1 !! i) as [y|]; [|reflexivity].
    simpl. destruct (resetControl_cases y) as [-> | ->]; reflexivity. }
  intros Hde. rewrite Hshape.
  assert (Hclr : forall x,
            In x (elements (reset (showContactOptions (mailtoPrefix ++ emailContent)
                                     (whatsappPrefix ++ whatsappMessage) pg1))) ->
            el_control x = true -> el_value x = []).
  { intros x Hin Hc. unfold reset in Hin. cbn [elements withElements showContactOptions
      withOverlays] in Hin.
    apply in_map_iff in Hin as (y & <- & Hy).
    assert (Hz : exists z, In z (elements pg) /\ fieldsOf z = fieldsOf y).
    { assert (Hm : In (fieldsOf y) (List.map fieldsOf (elements pg1)))
        by (apply in_map; exact Hy).
      unfold keeps in K1. rewrite K1 in Hm.
      apply in_map_iff in Hm as (z & Hz & Hin). eauto. }
    destruct Hz as (z & Hz & Hfz). unfold fieldsOf in Hfz.
    injection Hfz as _ _ Hcz _ Hdz.
    unfold resetControl in *. destruct (el_control y) eqn:Ey; [|congruence].
    simpl. rewrite <- Hdz. apply Hde; congruence. }
  unfold readFields, emptyRecord.
  rewrite !formDataGet_cleared by exact Hclr. reflexivity.
Qed.

Lemma handleSubmit_valid_prepares_links_witness :
  exists pg' emailContent whatsappMessage,
    handleSubmit Sample.india (Sample.controller Sample.validPage)
                 Sample.submitEvent Sample.validPage
      = Done (preventDefault Sample.submitEvent, pg')
    /\ overlays pg' = [mkContactOptions (js "https://wa.me/917359171081?text=" ++ whatsappMessage)
                                        (js "mailto:?subject=Appointment Request - AAYURCURE&body=" ++ emailContent)]
    /\ includes (js "Asha%20Rao") (js "mailto:?subject=Appointment Request - AAYURCURE&body=" ++ emailContent)
    /\ includes (js "9876543210") (js "mailto:?subject=Appointment Request - AAYURCURE&body=" ++ emailContent)
    /\ includes (js "Asha%20Rao") (js "https://wa.me/917359171081?text=" ++ whatsappMessage)
    /\ includes (js "9876543210") (js "https://wa.me/917359171081?text=" ++ whatsappMessage)
    /\ readFields pg' = emptyRecord.
Proof.
  destruct (handleSubmit_valid_prepares_links Sample.india
              (Sample.controller Sample.validPage) Sample.submitEvent Sample.validPage)
    as (pg' & em & wa & en & ep & Hrun & _ & _ & Hov & Hen & Hep & H1 & H2 & H3 & H4
        & _ & _ & _ & Hclr).
  - split.
    + intros t. eexists. vm_compute. reflexivity.
    + intros k v H. discriminate H.
  - repeat split.
  - vm_compute. discriminate.
  - vm_compute. reflexivity.
  - vm_compute in Hen. injection Hen as <-.
    vm_compute in Hep. injection Hep as <-.
    exists pg', em, wa.
    repeat split; try assumption.
    apply Hclr. intros x Hin Hc. vm_compute in Hin.
    repeat (destruct Hin as [<-|Hin]; [reflexivity|]). destruct Hin.
Defined.

(** Against C3 as the specification words it: a successful submission
    does not clear a control whose default value is not empty. On a form
    whose service control has [consultation] selected by default and
    [panchakarma] chosen, validation passes, the handler returns, and the
    form then reads [consultation] for the service. *)
Lemma handleSubmit_valid_restores_defaults :
  isValid (validateForm Sample.india (readFields Sample.selectPage)) = true
  /\ serviceType (readFields Sample.selectPage) = js "panchakarma"
  /\ exists pg',
       handleSubmit Sample.india (Sample.controller Sample.selectPage)
                    Sample.submitEvent Sample.selectPage
         = Done (preventDefault Sample.submitEvent, pg')
       /\ serviceType (readFields pg') = js "consultation"
       /\ readFields pg' <> emptyRecord.
Proof.
  split; [vm_compute; reflexivity|]. split; [vm_compute; reflexivity|].
  eexists. split; [vm_compute; reflexivity|].
  split; [vm_compute; reflexivity|].
  vm_compute. discriminate.
Qed.


(** The two links for the record of the specification's example. *)
Example handleSubmit_sample_links :
  exists pg',
    handleSubmit Sample.india (Sample.controller Sample.validPage)
                 Sample.submitEvent Sample.validPage
      = Done (preventDefault Sample.submitEvent, pg')
    /\ List.map whatsappHref (overlays pg') =
       [ js "https://wa.me/917359171081?text=Hello%20AAYURCURE%2C%20I'd%20like%20to%20book%20an%20appointment.%0A%0AName%3A%20Asha%20Rao%0APhone%3A%209876543210%0AService%3A%20consultation%0ADate%3A%202026-11-02%0ATime%3A%20morning%0A" ]
    /\ List.map emailHref (overlays pg') =
       [ js "mailto:?subject=Appointment Request - AAYURCURE&body=Appointment%20Request%20from%20AAYURCURE%20Website%0A%0APatient%20Name%3A%20Asha%20Rao%0APhone%20Number%3A%209876543210%0AService%20Required%3A%20General%20Consultation%0APreferred%20Date%3A%20Monday%2C%202%20November%202026%0APreferred%20Time%3A%20Morning%20(9%3A30%20AM%20-%201%3A00%20PM)%0A%0AAdditional%20Information%3A%0Aknee%20pain%0A%0A---%0ASubmitted%20from%3A%20AAYURCURE%20Website" ].
Proof. eexists. vm_compute. repeat split; reflexivity. Qed.

End ValidSubmission.

(** ** The accordion *)

Section AccordionFacts.
Import DOM FAQ.

Lemma indicesFrom_map {A B} (g : A -> B) (q : B -> bool) k (l : list A) :
  indicesFrom (fun x => q (g x)) k l = indicesFrom q k (List.map g l).
Proof.
  revert k. induction l as [|x l IH]; intros k; simpl; [reflexivity|].
  rewrite IH. reflexivity.
Qed.

Lemma indicesFrom_bounds {A} (p : A -> bool) k (l : list A) x :
  In x (indicesFrom p k l) -> (k <= x < k + length l)%nat.
Proof.
  revert k. induction l as [|y l IH]; intros k; simpl; [tauto|].
  destruct (p y); simpl; intros H.
  - destruct H as [<-|H]; [lia|]. apply IH in H. lia.
  - apply IH in H. lia.
Qed.

Lemma indicesFrom_NoDup {A} (p : A -> bool) k (l : list A) : NoDup (indicesFrom p k l).
Proof.
  revert k. induction l as [|y l IH]; intros k; simpl; [constructor|].
  destruct (p y); [|apply IH].
  constructor; [|apply IH].
  rewrite list_elem_of_In. intros H. apply indicesFrom_bounds in H. lia.
Qed.

Lemma querySelectorAll_keeps pg pg' cls :
  keeps structureOf pg pg' -> querySelectorAll pg' cls = querySelectorAll pg cls.
Proof.
  intros H. unfold querySelectorAll.
  rewrite !(indicesFrom_map structureOf (fun t => existsb (streq cls) (snd t))).
  unfold keeps in H. rewrite H. reflexivity.
Qed.







Lemma keeps_structure_setAttribute i k v pg : keeps structureOf pg (setAttribute i k v pg).
Proof. apply keeps_updateElement. reflexivity. Qed.

Lemma keeps_structure_setStyle i k v pg : keeps structureOf pg (setStyle i k v pg).
Proof. apply keeps_updateElement. reflexivity. Qed.

Lemma keeps_structure_closeOther b acc q : keeps structureOf acc (closeOther b acc q).
Proof.
  unfold closeOther. destruct (Nat.eqb q b); [apply keeps_refl|].
  destruct (answerOf _ q).
  - eapply keeps_trans; [apply keeps_structure_setAttribute | apply keeps_structure_setStyle].
  - apply keeps_structure_setAttribute.
Qed.

Lemma keeps_structure_closeAll b qs pg :
  keeps structureOf pg (fold_left (closeOther b) qs pg).
Proof. apply keeps_fold. intros acc x. apply keeps_structure_closeOther. Qed.



(** Attributes and styles under the two setters. *)



Lemma getAttribute_setAttribute_ne i k v pg j k' :
  i <> j -> getAttribute (setAttribute i k v pg) j k' = getAttribute pg j k'.
Proof.
  intros H. unfold getAttribute, setAttribute. rewrite lookup_updateElement.
  destruct (decide (i = j)); [congruence | reflexivity].
Qed.

Lemma getAttribute_setStyle i k v pg j k' :
  getAttribute (setStyle i k v pg) j k' = getAttribute pg j k'.
Proof.
  unfold getAttribute, setStyle. rewrite lookup_updateElement.
  destruct (decide (i = j)); [|reflexivity].
  destruct (elements pg !! j); reflexivity.
Qed.

Lemma getStyle_setStyle_eq i k v pg :
  is_Some (elements pg !! i) -> getStyle (setStyle i k v pg) i k = Some v.
Proof.
  intros [x Hx]. unfold getStyle, setStyle. rewrite lookup_updateElement.
  destruct (decide (i = i)); [|congruence]. rewrite Hx. simpl. apply assoc_assocSet.
Qed.


Lemma getStyle_setAttribute i k v pg j k' :
  getStyle (setAttribute i k v pg) j k' = getStyle pg j k'.
Proof.
  unfold getStyle, setAttribute. rewrite lookup_updateElement.
  destruct (decide (i = j)); [|reflexivity].
  destruct (elements pg !! j); reflexivity.
Qed.

Lemma lookup_setAttribute_is_Some i k v pg j :
  is_Some (elements (setAttribute i k v pg) !! j) <-> is_Some (elements pg !! j).
Proof.
  unfold setAttribute. rewrite lookup_updateElement.
  destruct (decide (i = j)); [|reflexivity].
  destruct (elements pg !! j); simpl; split; intros [? ?]; eauto; discriminate.
Qed.






Lemma closeOther_button b acc q k :
  getAttribute (closeOther b acc q) b k = getAttribute acc b k.
Proof.
  unfold closeOther. destruct (Nat.eqb_spec q b); [reflexivity|].
  destruct (answerOf _ q); rewrite ?getAttribute_setStyle;
    apply getAttribute_setAttribute_ne; assumption.
Qed.



Lemma closeAll_button b qs pg k :
  getAttribute (fold_left (closeOther b) qs pg) b k = getAttribute pg b k.
Proof.
  revert pg. induction qs as [|q qs IH]; intros pg; simpl; [reflexivity|].
  rewrite IH. apply closeOther_button.
Qed.

Lemma closeAll_lookup_is_Some b qs pg j :
  is_Some (elements (fold_left (closeOther b) qs pg) !! j) <-> is_Some (elements pg !! j).
Proof.
  rewrite !lookup_lt_is_Some.
  pose proof (keeps_structure_closeAll b qs pg) as H. unfold keeps in H.
  rewrite <- (length_map structureOf (elements (fold_left (closeOther b) qs pg))),
          <- (length_map structureOf (elements pg)), H.
  reflexivity.
Qed.


Lemma answerOf_valid pg b a : answerOf pg b = Some a -> is_Some (elements pg !! a).
Proof.
  unfold answerOf. destruct (parentElement pg b) as [item|]; [|discriminate].
  unfold querySelectorIn. intros H. apply find_some in H as [Hin _].
  unfold querySelectorAll in Hin. apply indicesFrom_bounds in Hin.
  apply lookup_lt_is_Some. lia.
Qed.












End AccordionFacts.

(** ** Controllers on a page without their elements *)

Section AbsentElements.
Import DOM FormValidator.

(** The throw of [getFormData] is behind the guards: [validateField] would
    raise it without the form, but it runs only as a listener that
    [initializeForm] adds after it has found the form. *)
Lemma validateField_without_form env self field pg :
  form self = None ->
  Appointment.validateField env self field pg = Throw (js "Form not found").
Proof.
  intros H. unfold Appointment.validateField, Appointment.getFormData.
  rewrite H. reflexivity.
Qed.

(** One missing element is enough for the guards of the toast and of the
    menu. *)
Lemma guards_with_one_element_missing (tm : ToastManager) (nav : MobileNavigation) :
  (toastElement tm = None \/ messageElement tm = None ->
   forall opts p, Toast.show tm opts p = p)
  /\ (toastElement tm = None -> forall p, Toast.hide tm p = p)
  /\ (navToggle nav = None \/ navMenu nav = None ->
      forall e p, Nav.initializeMobileNav nav p = p
                  /\ Nav.toggleMenu nav p = p
                  /\ Nav.closeMenu nav p = p
                  /\ Nav.outsideClick nav e p = p).
Proof.
  split; [|split].
  - intros H opts p. unfold Toast.show.
    destruct H as [-> | ->]; [reflexivity|].
    destruct (toastElement tm); reflexivity.
  - intros H p. unfold Toast.hide. rewrite H. reflexivity.
  - intros H e p.
    assert (Hc : Nav.closeMenu nav p = p).
    { unfold Nav.closeMenu. destruct H as [-> | ->]; [reflexivity|].
      destruct (navToggle nav); reflexivity. }
    unfold Nav.initializeMobileNav, Nav.toggleMenu, Nav.outsideClick.
    rewrite Hc. clear Hc.
    destruct H as [H | H]; rewrite H.
    + repeat split; try reflexivity.
      destruct (negb _ && negb _); reflexivity.
    + destruct (navToggle nav); repeat split; try reflexivity;
        destruct (negb _ && negb _); reflexivity.
Qed.

(** C7. Each controller does nothing when the page lacks what it looks
    for, whatever else the page has.
    - The toast manager: without [toastClose] its initialization adds no
      listener; without [toast] or without [toastMessage], [show] leaves
      every page as it is, and without [toast] so does [hide].
    - The appointment form: without [appointmentForm] its constructor only
      obtains the toast manager, adds no listener of its own, and
      [handleSubmit] prevents the default action and leaves every page as
      it is; [validateField], whose [getFormData] would throw, is not
      registered, so on a page that had no listeners every event is
      dispatched without an exception.
    - The mobile navigation: without [navToggle] or without [navMenu] its
      constructor leaves the page as it is, and so do [toggleMenu],
      [closeMenu] and the outside-click handler.
    - The call-to-action bar: without [mobileCta] its constructor adds no
      listener and changes no element, [handleResize], [showCTA] and
      [hideCTA] leave every page as it is, and [handleScroll] only records
      the scroll position.
    None of these operations throws. And on a freshly loaded page that has
    none of the seven elements, start-up changes no element and adds no
    listener, so any event is dispatched with the page unchanged. *)
Theorem absent_elements_are_noops (env : Env) (pg : Page) :
  (let tm := fst (Toast.initializeToast pg) in
   (getElementById pg (js "toastClose") = None -> snd (Toast.initializeToast pg) = pg)
   /\ (getElementById pg (js "toast") = None \/ getElementById pg (js "toastMessage") = None ->
       forall opts p, Toast.show tm opts p = p)
   /\ (getElementById pg (js "toast") = None -> forall p, Toast.hide tm p = p))
  /\ (getElementById pg (js "appointmentForm") = None ->
      let self := fst (Appointment.newAppointmentForm env pg) in
      form self = None
      /\ snd (Appointment.newAppointmentForm env pg) = snd (Toast.getInstance pg)
      /\ (forall e p, Appointment.handleSubmit env self e p = Done (preventDefault e, p))
      /\ (listeners pg = [] ->
          forall later tg type e,
            listeners later = listeners (snd (Appointment.newAppointmentForm env pg)) ->
            exists r, Events.dispatchEvent env tg type e later = Done r))
  /\ (getElementById pg (js "navToggle") = None \/ getElementById pg (js "navMenu") = None ->
      let nav := fst (Nav.newMobileNavigation pg) in
      snd (Nav.newMobileNavigation pg) = pg
      /\ (forall p, Nav.toggleMenu nav p = p)
      /\ (forall p, Nav.closeMenu nav p = p)
      /\ (forall e p, Nav.outsideClick nav e p = p))
  /\ (getElementById pg (js "mobileCta") = None ->
      let mobileCTA := fst (CTA.newMobileCTAController pg) in
      snd (CTA.newMobileCTAController pg) = withLastScrollY 0 pg
      /\ (forall p, CTA.handleResize mobileCTA p = p)
      /\ (forall p, CTA.showCTA mobileCTA p = p)
      /\ (forall p, CTA.hideCTA mobileCTA p = p)
      /\ (forall p, CTA.handleScroll mobileCTA p = withLastScrollY (scrollY p) p))
  /\ (getElementById pg (js "toast") = None ->
      getElementById pg (js "toastMessage") = None ->
      getElementById pg (js "toastClose") = None ->
      getElementById pg (js "appointmentForm") = None ->
      getElementById pg (js "navToggle") = None ->
      getElementById pg (js "navMenu") = None ->
      getElementById pg (js "mobileCta") = None ->
      toastInstance pg = None ->
      setupControllers env pg
        = withLastScrollY 0 (withToastInstance (Some (mkToastManager None None None)) pg)
      /\ elements (setupControllers env pg) = elements pg
      /\ listeners (setupControllers env pg) = listeners pg
      /\ (listeners pg = [] ->
          forall tg type e,
            Events.dispatchEvent env tg type e (setupControllers env pg)
              = Done (e, setupControllers env pg))).
Proof.
  split; [|split; [|split; [|split]]].
  - cbv zeta. unfold Toast.initializeToast. split; [|split].
    + intros Hc. rewrite Hc. reflexivity.
    + intros H opts p.
      destruct (guards_with_one_element_missing
                  (fst (let tm := mkToastManager (getElementById pg (js "toast"))
                                    (getElementById pg (js "toastMessage"))
                                    (getElementById pg (js "toastClose")) in
                        match closeButton tm with
                        | Some b => (tm, addEventListener (OnElement b) (js "click") (HToastHide tm) pg)
                        | None => (tm, pg)
                        end))
                  (mkMobileNavigation None None)) as (Hs & _ & _).
      apply Hs. cbv zeta. cbn [closeButton].
      destruct (getElementById pg (js "toastClose")); exact H.
    + intros H p. cbv zeta. cbn [closeButton].
      destruct (getElementById pg (js "toastClose")); cbn [fst];
        unfold Toast.hide; cbn [toastElement]; rewrite H; reflexivity.
  - intros Hf. cbv zeta. unfold Appointment.newAppointmentForm. rewrite Hf.
    destruct (Toast.getInstance pg) as [tm pg1] eqn:Eg. cbn [fst snd form].
    split; [reflexivity|]. split; [reflexivity|]. split; [reflexivity|].
    intros Hl later tg type e Hlater. unfold Events.dispatchEvent. rewrite Hlater.
    cbn [Appointment.initializeForm form].
    assert (Hpg1 : pg1 = snd (Toast.getInstance pg)) by (rewrite Eg; reflexivity).
    rewrite Hpg1. unfold Toast.getInstance, Toast.initializeToast.
    destruct (toastInstance pg); cbn [snd].
    + rewrite Hl. eexists. reflexivity.
    + cbn [closeButton]. destruct (getElementById pg (js "toastClose")) as [b|];
        cbn [snd listeners withToastInstance addEventListener withListeners];
        rewrite Hl; cbn [app Events.runListeners l_target l_type l_handler].
      * destruct (Events.targetEqb (OnElement b) tg && streq (js "click") type);
          cbn [Events.runHandler bind fst snd Events.runListeners]; eexists; reflexivity.
      * eexists. reflexivity.
  - intros H. cbv zeta. unfold Nav.newMobileNavigation. cbn [fst snd].
    set (nav := mkMobileNavigation (getElementById pg (js "navToggle"))
                                   (getElementById pg (js "navMenu"))).
    destruct (guards_with_one_element_missing (mkToastManager None None None) nav)
      as (_ & _ & Hn).
    assert (Hnav : navToggle nav = None \/ navMenu nav = None) by exact H.
    split; [apply (Hn Hnav Sample.submitEvent pg)|].
    split; [intros p; apply (Hn Hnav Sample.submitEvent p)|].
    split; [intros p; apply (Hn Hnav Sample.submitEvent p)|].
    intros e p. apply (Hn Hnav e p).
  - intros H. cbv zeta. unfold CTA.newMobileCTAController.
    change (getElementById (withLastScrollY 0 pg) (js "mobileCta"))
      with (getElementById pg (js "mobileCta")).
    rewrite H. cbn [fst snd CTA.initializeCTAController].
    split; [reflexivity|]. split; [reflexivity|]. split; [reflexivity|].
    split; [reflexivity|].
    intros p. unfold CTA.handleScroll, CTA.hideCTA, CTA.showCTA.
    destruct (innerWidth p <=? 768)%Z; [|reflexivity].
    destruct ((scrollY p >? lastScrollY p)%Z
              && negb (innerHeight p + scrollY p >=? bodyOffsetHeight p - 100)%Z);
      reflexivity.
  - intros Ht Hm Hc Hf Hnt Hnm Hcta Hinst.
    set (tm := mkToastManager None None None).
    assert (Hform : Appointment.newAppointmentForm env pg
                    = (mkAppointmentForm None tm, withToastInstance (Some tm) pg)).
    { unfold Appointment.newAppointmentForm, Toast.getInstance, Toast.initializeToast.
      rewrite Hinst, Ht, Hm, Hc, Hf. reflexivity. }
    assert (Hids : forall p id, getElementById (withToastInstance (Some tm) p) id
                                = getElementById p id) by reflexivity.
    assert (Hnav : forall p, getElementById p (js "navToggle") = None ->
                             getElementById p (js "navMenu") = None ->
                             Nav.newMobileNavigation p = (mkMobileNavigation None None, p)).
    { intros p H1 H2. unfold Nav.newMobileNavigation. rewrite H1, H2. reflexivity. }
    assert (Hcta' : forall p, getElementById p (js "mobileCta") = None ->
                              CTA.newMobileCTAController p = (None, withLastScrollY 0 p)).
    { intros p H1. unfold CTA.newMobileCTAController.
      change (getElementById (withLastScrollY 0 p) (js "mobileCta"))
        with (getElementById p (js "mobileCta")).
      rewrite H1. reflexivity. }
    assert (Hsetup : setupControllers env pg
                     = withLastScrollY 0 (withToastInstance (Some tm) pg)).
    { unfold setupControllers. rewrite Hform.
      rewrite (Hnav (withToastInstance (Some tm) pg)) by (rewrite Hids; assumption).
      rewrite (Hcta' (withToastInstance (Some tm) pg)) by (rewrite Hids; assumption).
      reflexivity. }
    split; [exact Hsetup|]. rewrite Hsetup.
    split; [reflexivity|]. split; [reflexivity|].
    intros Hl tg type e. unfold Events.dispatchEvent.
    cbn [listeners withLastScrollY withToastInstance]. rewrite Hl. reflexivity.
Qed.

Lemma absent_elements_are_noops_witness :
  Appointment.handleSubmit Sample.india
    (fst (Appointment.newAppointmentForm Sample.india Sample.toastPage))
    Sample.submitEvent Sample.toastPage
  = Done (preventDefault Sample.submitEvent, Sample.toastPage)
  /\ snd (Nav.newMobileNavigation Sample.toastPage) = Sample.toastPage
  /\ elements (setupControllers Sample.india Sample.barePage) = elements Sample.barePage
  /\ listeners (setupControllers Sample.india Sample.barePage) = [].
Proof.
  destruct (absent_elements_are_noops Sample.india Sample.toastPage)
    as (_ & Hform & Hnav & _ & _).
  destruct (absent_elements_are_noops Sample.india Sample.barePage)
    as (_ & _ & _ & _ & Hall).
  split; [apply Hform; reflexivity|].
  split; [apply Hnav; left; reflexivity|].
  destruct Hall as (_ & Hel & Hls & _); try reflexivity.
  split; [exact Hel | exact Hls].
Defined.

End AbsentElements.

(** * Further properties of the code *)

(** ** The validators *)

Section ValidatorExtras.
Import Regex FormValidator DOM Appointment.

Lemma dropWhile_all p (ws rest : jsstring) :
  forallb p ws = true -> dropWhile p (ws ++ rest) = dropWhile p rest.
Proof.
  induction ws as [|c ws IH]; simpl; [reflexivity|].
  intros H. apply andb_true_iff in H as [Hc Hws]. rewrite Hc. auto.
Qed.

Lemma dropWhile_app p (a b : jsstring) :
  dropWhile p a <> [] -> dropWhile p (a ++ b) = dropWhile p a ++ b.
Proof.
  induction a as [|c a IH]; simpl; [congruence|].
  destruct (p c); auto.
Qed.

Lemma dropWhile_nil_all p (a : jsstring) : dropWhile p a = [] -> forallb p a = true.
Proof.
  induction a as [|c a IH]; simpl; [reflexivity|].
  destruct (p c); [auto | discriminate].
Qed.

Lemma trimEnd_all (a ws : jsstring) :
  forallb isWhiteSpace ws = true -> trimEnd (a ++ ws) = trimEnd a.
Proof.
  intros H. unfold trimEnd. rewrite rev_app_distr.
  rewrite dropWhile_all by (rewrite forallb_rev; exact H). reflexivity.
Qed.

Lemma trim_outer_space (ws name ws' : jsstring) :
  forallb isWhiteSpace ws = true -> forallb isWhiteSpace ws' = true ->
  trim (ws ++ name ++ ws') = trim name.
Proof.
  intros H H'. unfold trim, trimStart. rewrite dropWhile_all by exact H.
  destruct (dropWhile isWhiteSpace name) as [|c t] eqn:E.
  - apply dropWhile_nil_all in E.
    rewrite dropWhile_all by exact E.
    rewrite <- (app_nil_r ws') at 1.
    rewrite dropWhile_all by exact H'. reflexivity.
  - rewrite dropWhile_app by congruence. rewrite E. apply trimEnd_all, H'.
Qed.

(** X1. White space around a name never changes what [validateName]
    answers: the name is judged as trimmed, whatever white space precedes
    or follows it. *)
Theorem validateName_ignores_outer_space (ws name ws' : jsstring) :
  forallb isWhiteSpace ws = true ->
  forallb isWhiteSpace ws' = true ->
  validateName (ws ++ name ++ ws') = validateName name.
Proof.
  intros H H'. unfold validateName. rewrite trim_outer_space by assumption.
  reflexivity.
Qed.

Lemma validateName_ignores_outer_space_witness :
  validateName (js "  " ++ js "Jane Doe" ++ [9; 10]) = validateName (js "Jane Doe").
Proof.
  apply (validateName_ignores_outer_space (js "  ") (js "Jane Doe") [9; 10]); reflexivity.
Defined.

Lemma validatePhone_pass_iff (phone : jsstring) :
  validatePhone phone = js "" <-> mobileNumber (List.filter isDigit phone).
Proof.
  unfold validatePhone. rewrite stripNonDigits_filter.
  set (d := List.filter isDigit phone).
  destruct (jslength d =? 0)%Z eqn:Ez.
  - apply jslength_zero in Ez. split.
    + intros H. vm_compute in H. discriminate.
    + intros (c & t & Hc & _). congruence.
  - destruct (test PHONE_REGEX d) eqn:Et; simpl.
    + split; [intros _; apply test_PHONE_REGEX, Et | reflexivity].
    + split.
      * intros H. vm_compute in H. discriminate.
      * intros H. apply test_PHONE_REGEX in H. congruence.
Qed.

Lemma validatePhone_same_digits (a b : jsstring) :
  List.filter isDigit a = List.filter isDigit b -> validatePhone a = validatePhone b.
Proof.
  intros H. unfold validatePhone. rewrite !stripNonDigits_filter, H. reflexivity.
Qed.

(** X2. [validatePhone] looks at the digits only: two inputs with the same
    digits in the same order get the same answer, whatever spaces, dashes,
    signs or letters stand between them. *)
Theorem validatePhone_reads_digits_only (a b : jsstring) :
  List.filter isDigit a = List.filter isDigit b ->
  validatePhone a = validatePhone b.
Proof. apply validatePhone_same_digits. Qed.

Lemma validatePhone_reads_digits_only_witness :
  validatePhone (js "(98765) 432-10 ext") = validatePhone (js "9876543210").
Proof.
  apply (validatePhone_reads_digits_only (js "(98765) 432-10 ext") (js "9876543210")).
  reflexivity.
Defined.

Lemma formatPhoneValue_take (v : jsstring) :
  formatPhoneValue v = take 10 (List.filter isDigit v).
Proof.
  unfold formatPhoneValue, substring0, jslength. rewrite stripNonDigits_filter.
  destruct (Z.of_nat (length (List.filter isDigit v)) >? 10)%Z eqn:E; [reflexivity|].
  rewrite Z.gtb_ltb in E. apply Z.ltb_ge in E.
  symmetry. apply take_ge. lia.
Qed.

(** X3. After the input formatter, validation sees the first ten digits
    only: the formatted value passes [validatePhone] exactly when the first
    ten digits typed form a mobile number. So a value with more than ten
    digits that [validatePhone] rejects as typed can pass once formatted,
    as ["987654321012"] does. *)
Theorem validatePhone_after_formatting (v : jsstring) :
  (validatePhone (formatPhoneValue v) = js "" <->
     mobileNumber (take 10 (List.filter isDigit v)))
  /\ ((length (List.filter isDigit v) <= 10)%nat ->
      validatePhone (formatPhoneValue v) = validatePhone v)
  /\ validatePhone (js "987654321012") = msgPhoneInvalid
  /\ validatePhone (formatPhoneValue (js "987654321012")) = js "".
Proof.
  split; [|split; [|split; reflexivity]].
  - rewrite validatePhone_pass_iff, formatPhoneValue_take.
    rewrite filter_digits_id; [reflexivity|].
    apply forallb_take, forallb_filter_self.
  - intros Hl. apply validatePhone_same_digits.
    rewrite formatPhoneValue_take, take_ge by lia.
    apply filter_digits_id, forallb_filter_self.
Qed.

(** X4. [validateForm] declares the record valid exactly when the three
    validators all answer the empty string, which is exactly when [errors]
    has no entry; every entry of [errors] carries a non-empty message, the
    one the validator of its field gave; and a field whose validator gave a
    message has its entry. *)
Theorem validateForm_valid_iff (env : Env) (fd : AppointmentFormData) :
  (isValid (validateForm env fd) = true <->
     validateName (patientName fd) = js ""
     /\ validatePhone (phoneNumber fd) = js ""
     /\ validateDate env (preferredDate fd) = js "")
  /\ (isValid (validateForm env fd) = true <-> errors (validateForm env fd) = [])
  /\ (forall f, fieldMessage env f fd <> js "" <->
                In (fieldKey f, fieldMessage env f fd) (errors (validateForm env fd)))
  /\ (forall k m, In (k, m) (errors (validateForm env fd)) ->
                  m <> js "" /\ exists f, k = fieldKey f /\ m = fieldMessage env f fd).
Proof.
  assert (He : forall s : jsstring, isEmptyString s = true <-> s = js "").
  { intros s. destruct s; simpl; split; intros H; try reflexivity; discriminate. }
  assert (Hin : forall k m, In (k, m) (errors (validateForm env fd)) <->
            m <> js "" /\ exists f, k = fieldKey f /\ m = fieldMessage env f fd).
  { intros k m. unfold validateForm. cbn [errors]. rewrite filter_In. cbn [snd].
    rewrite negb_true_iff. split.
    - intros [H Hm]. split.
      + intros Hm'. apply He in Hm'. congruence.
      + destruct H as [[= <- <-]|[[= <- <-]|[[= <- <-]|[]]]];
          [exists FPatientName | exists FPhoneNumber | exists FPreferredDate];
          split; reflexivity.
    - intros (Hm & f & -> & ->). split.
      + destruct f; simpl; auto.
      + destruct (isEmptyString (fieldMessage env f fd)) eqn:E; [|reflexivity].
        apply He in E. congruence. }
  assert (Hv : isValid (validateForm env fd) = true <-> errors (validateForm env fd) = []).
  { unfold validateForm. cbn [isValid errors].
    destruct (List.filter _ _); simpl; split; intros H; try reflexivity; discriminate. }
  split; [|split; [exact Hv|split]].
  - rewrite Hv. split.
    + intros Hnil.
      assert (Hall : forall f, fieldMessage env f fd = js "").
      { intros f. destruct (fieldMessage env f fd) as [|c t] eqn:E; [reflexivity|].
        assert (Hi : In (fieldKey f, fieldMessage env f fd) (errors (validateForm env fd))).
        { apply Hin. split; [rewrite E; discriminate | eauto]. }
        rewrite Hnil in Hi. destruct Hi. }
      split; [apply (Hall FPatientName)|].
      split; [apply (Hall FPhoneNumber) | apply (Hall FPreferredDate)].
    + intros (H1 & H2 & H3).
      assert (Hno : forall k m, ~ In (k, m) (errors (validateForm env fd))).
      { intros k m Hi. apply Hin in Hi as (Hm & f & -> & ->).
        destruct f; simpl in Hm; congruence. }
      destruct (errors (validateForm env fd)) as [|[k m] rest]; [reflexivity|].
      exfalso. apply (Hno k m). left. reflexivity.
  - intros f. rewrite Hin. split.
    + intros H. split; eauto.
    + intros [H _]. exact H.
  - intros k m H. apply Hin, H.
Qed.

End ValidatorExtras.

(** ** Dates and time zones *)

Section DateExtras.
Import FormValidator.

(** X5. For a string [YYYY-MM-DD] that names the calendar day [d], the
    answer of [validateDate] depends on the side of UTC the browser is on:
    at UTC and east of it the day judged is [d] itself, west of it the day
    judged is the day before [d]. The day judged is rejected as past when
    it is before the local day of the clock, and otherwise rejected exactly
    when it is a Sunday. *)
Theorem validateDate_by_time_zone (env : Env) (s : jsstring) (d : Z) :
  (- msPerDay < LocalTZA env < msPerDay)%Z ->
  isoDateOnly s = Some d ->
  let judged := (if LocalTZA env <? 0 then d - 1 else d)%Z in
  validateDate env s =
    if (judged <? Day (now env + LocalTZA env))%Z then msgDatePast
    else if (WeekDay (judged * msPerDay) =? 0)%Z then msgDateSunday
    else js "".
Proof.
  intros Htz Hd judged. unfold judged.
  destruct (Z.ltb_spec (LocalTZA env) 0) as [Hw|He].
  - apply validateDate_west_judges_previous_day; [lia | exact Hd].
  - apply validateDate_east_of_UTC; [lia | exact Hd].
Qed.

Lemma validateDate_by_time_zone_witness :
  validateDate Sample.newYork (js "2026-11-03") =
    if (20760 - 1 <? Day (now Sample.newYork + LocalTZA Sample.newYork))%Z then msgDatePast
    else if (WeekDay ((20760 - 1) * msPerDay) =? 0)%Z then msgDateSunday
    else js "".
Proof.
  apply (validateDate_by_time_zone Sample.newYork (js "2026-11-03") 20760).
  - vm_compute. split; reflexivity.
  - vm_compute. reflexivity.
Defined.

(** X6. A date string the Date constructor cannot parse passes: with an
    invalid Date both comparisons of [validateDate] are false, so it
    answers the empty string, and the record is valid as soon as the name
    and the phone number are. *)
Theorem validateDate_unparsed_passes (env : Env) (fd : AppointmentFormData) :
  newDate env (preferredDate fd) = None ->
  validateDate env (preferredDate fd) = js ""
  /\ (isValid (validateForm env fd) = true <->
        validateName (patientName fd) = js "" /\ validatePhone (phoneNumber fd) = js "").
Proof.
  intros Hn.
  assert (Hd : validateDate env (preferredDate fd) = js "").
  { unfold validateDate. destruct (preferredDate fd); [reflexivity|].
    rewrite Hn. reflexivity. }
  split; [exact Hd|].
  unfold validateForm. cbn [isValid]. rewrite Hd. cbn [List.filter snd isEmptyString negb].
  destruct (validateName (patientName fd)) as [|a s1];
    destruct (validatePhone (phoneNumber fd)) as [|b s2]; simpl;
    split; intros H; try reflexivity; try discriminate; try (split; reflexivity);
    destruct H; discriminate.
Qed.

Lemma validateDate_unparsed_passes_witness :
  validateDate Sample.india (js "garbage") = js "".
Proof.
  destruct (validateDate_unparsed_passes Sample.india
              (mkFormData (js "Asha Rao") (js "9876543210") [] (js "garbage") [] []))
    as [H _].
  - vm_compute. reflexivity.
  - exact H.
Defined.

(** A day past the end of its month is a date for the sample browser: 30
    February 2026 is read as 2 March 2026, which is past. *)
Example validateDate_carried_day :
  newDate Sample.india (js "2026-02-30") = newDate Sample.india (js "2026-03-02")
  /\ validateDate Sample.india (js "2026-02-30") = msgDatePast.
Proof. split; vm_compute; reflexivity. Qed.

End DateExtras.

(** ** Encoding and the submission handler *)

Section EncodingExtras.
Import DOM FormValidator Appointment URI.

Lemma hexDigit_unescaped n : n < 16 -> isUnescaped (hexDigit n) = true.
Proof.
  intros H. unfold hexDigit, isUnescaped, isDigit.
  destruct (N.ltb_spec n 10).
  - replace ((48 <=? 48 + n) && (48 + n <=? 57)) with true.
    + rewrite !orb_true_r. reflexivity.
    + symmetry. apply andb_true_iff. split; apply N.leb_le; lia.
  - replace ((65 <=? 55 + n) && (55 + n <=? 90)) with true.
    + rewrite !orb_true_r. reflexivity.
    + symmetry. apply andb_true_iff. split; apply N.leb_le; lia.
Qed.

Lemma pct_safe b : b < 256 -> forallb uriSafe (pct b) = true.
Proof.
  intros H. unfold pct, uriSafe. cbn [forallb].
  rewrite !hexDigit_unescaped.
  - rewrite orb_true_r. reflexivity.
  - apply N.mod_lt. lia.
  - apply N.Div0.div_lt_upper_bound. lia.
Qed.

Lemma flat_map_pct_safe bytes :
  Forall (fun b => b < 256) bytes -> forallb uriSafe (flat_map pct bytes) = true.
Proof.
  induction 1 as [|b bytes Hb _ IH]; [reflexivity|].
  cbn [flat_map]. rewrite forallb_app, pct_safe by exact Hb. exact IH.
Qed.

Lemma escape_safe cp : cp < 1114112 -> forallb uriSafe (escape cp) = true.
Proof.
  intros H. unfold escape. apply flat_map_pct_safe. unfold utf8.
  assert (Hm : forall x, 128 + x mod 64 < 256)
    by (intros x; pose proof (N.mod_lt x 64); lia).
  destruct (N.ltb_spec cp 128); [|destruct (N.ltb_spec cp 2048); [|destruct (N.ltb_spec cp 65536)]];
    repeat (apply Forall_cons; split); try apply Forall_nil; auto.
  - lia.
  - assert (cp / 64 < 32) by (apply N.Div0.div_lt_upper_bound; lia). lia.
  - assert (cp / 4096 < 16) by (apply N.Div0.div_lt_upper_bound; lia). lia.
  - assert (cp / 262144 < 5) by (apply N.Div0.div_lt_upper_bound; lia). lia.
Qed.

Lemma codePoint_bound hi lo :
  isHighSurrogate hi = true -> isLowSurrogate lo = true -> codePoint hi lo < 1114112.
Proof.
  unfold isHighSurrogate, isLowSurrogate, codePoint. intros H1 H2.
  apply andb_true_iff in H1 as [Ha Hb]. apply andb_true_iff in H2 as [Hc Hd].
  apply N.leb_le in Ha, Hb, Hc, Hd. lia.
Qed.

Lemma encode_safe_bounded n : forall s enc,
  (length s <= n)%nat -> units16 s ->
  encodeURIComponent s = Some enc -> forallb uriSafe enc = true.
Proof.
  induction n as [|n IH]; intros s enc Hl Hu He.
  - destruct s; [|simpl in Hl; lia]. injection He as <-. reflexivity.
  - destruct s as [|c rest]; [injection He as <-; reflexivity|].
    simpl in Hl. apply Forall_cons in Hu as [Hc Hrest].
    cbn [encodeURIComponent] in He.
    destruct (isUnescaped c) eqn:Eu.
    { destruct (encodeURIComponent rest) as [er|] eqn:Er; [|discriminate].
      injection He as <-. cbn [forallb]. unfold uriSafe at 1. rewrite Eu. simpl.
      apply (IH rest); auto. lia. }
    destruct (isHighSurrogate c) eqn:Eh.
    { destruct rest as [|l rest']; [discriminate|].
      destruct (isLowSurrogate l) eqn:El; [|discriminate].
      destruct (encodeURIComponent rest') as [er|] eqn:Er; [|discriminate].
      injection He as <-. apply Forall_cons in Hrest as [_ Hrest'].
      rewrite forallb_app, escape_safe by (apply codePoint_bound; assumption).
      apply (IH rest'); auto. simpl in Hl. lia. }
    destruct (isLowSurrogate c); [discriminate|].
    destruct (encodeURIComponent rest) as [er|] eqn:Er; [|discriminate].
    injection He as <-.
    rewrite forallb_app, escape_safe by lia.
    apply (IH rest); auto. lia.
Qed.

Lemma units16_check s : forallb (fun c => c <? 65536) s = true -> units16 s.
Proof.
  intros H. unfold units16. rewrite List.Forall_forall. intros c Hc.
  rewrite forallb_forall in H. apply N.ltb_lt. apply H, Hc.
Qed.

(** X7. What [generateEmailContent] and [generateWhatsAppMessage] return
    is made of letters, digits, [- _ . ! ~ * ' ( )] and [%] only, whatever
    the visitor typed: no quote, angle bracket, ampersand, space or line
    break of the input reaches the links that are written into the
    dialog's markup. *)
Theorem generated_content_is_uri_safe (env : Env) (fd : AppointmentFormData) :
  units16 (emailText env fd) ->
  units16 (whatsAppText fd) ->
  (forall content, generateEmailContent env fd = Some content ->
                   forallb uriSafe content = true
                   /\ ~ In 34 content /\ ~ In 60 content /\ ~ In 62 content
                   /\ ~ In 38 content /\ ~ In 32 content /\ ~ In 10 content)
  /\ (forall content, generateWhatsAppMessage fd = Some content ->
                      forallb uriSafe content = true
                      /\ ~ In 34 content /\ ~ In 60 content /\ ~ In 62 content
                      /\ ~ In 38 content /\ ~ In 32 content /\ ~ In 10 content).
Proof.
  intros Hue Huw.
  assert (Hnot : forall content c, forallb uriSafe content = true ->
                                   uriSafe c = false -> ~ In c content).
  { intros content c Hs Hc Hin. rewrite forallb_forall in Hs.
    rewrite (Hs c Hin) in Hc. discriminate. }
  assert (Hgen : forall text content, units16 text ->
            encodeURIComponent text = Some content ->
            forallb uriSafe content = true
            /\ ~ In 34 content /\ ~ In 60 content /\ ~ In 62 content
            /\ ~ In 38 content /\ ~ In 32 content /\ ~ In 10 content).
  { intros text content Hu He.
    pose proof (encode_safe_bounded (length text) text content (le_n _) Hu He) as Hs.
    split; [exact Hs|]. repeat split; apply (Hnot content _ Hs); reflexivity. }
  split; intros content He.
  - apply (Hgen (emailText env fd)); assumption.
  - apply (Hgen (whatsAppText fd)); assumption.
Qed.

Lemma generated_content_is_uri_safe_witness :
  match generateWhatsAppMessage
          (mkFormData (js "<b>Asha</b> & co" ++ [34]) (js "98765 43210") [] [] [] []) with
  | Some content => forallb uriSafe content = true
  | None => False
  end.
Proof.
  destruct (generated_content_is_uri_safe Sample.india
              (mkFormData (js "<b>Asha</b> & co" ++ [34]) (js "98765 43210") [] [] [] []))
    as [_ Hw].
  - apply units16_check. vm_compute. reflexivity.
  - apply units16_check. vm_compute. reflexivity.
  - destruct (generateWhatsAppMessage
                (mkFormData (js "<b>Asha</b> & co" ++ [34]) (js "98765 43210") [] [] [] []))
      as [content|] eqn:E.
    + apply (Hw content eq_refl).
    + vm_compute in E. discriminate E.
Defined.

End EncodingExtras.

(** ** The submission handler and the error display *)

Section SubmitExtras.
Import DOM FormValidator Appointment URI.



Lemma fold_update_lookup (f : Element -> Element) (L : list nat) pg j :
  (forall x, f (f x) = f x) ->
  elements (fold_left (fun acc i => updateElement i f acc) L pg) !! j =
    if existsb (Nat.eqb j) L then f <$> elements pg !! j else elements pg !! j.
Proof.
  intros Hf. revert pg. induction L as [|i L IH]; intros pg; [reflexivity|].
  cbn [fold_left existsb]. rewrite IH, lookup_updateElement.
  destruct (Nat.eqb_spec j i) as [->|Hne].
  - destruct (decide (i = i)); [|congruence]. simpl.
    destruct (existsb (Nat.eqb i) L); [|reflexivity].
    destruct (elements pg !! i); simpl; [rewrite Hf|]; reflexivity.
  - destruct (decide (i = j)); [congruence|]. reflexivity.
Qed.

Lemma indicesFrom_In {A} (p : A -> bool) k (l : list A) i :
  In i (indicesFrom p k l) <->
  (k <= i)%nat /\ exists x, l !! (i - k)%nat = Some x /\ p x = true.
Proof.
  revert k. induction l as [|y l IH]; intros k; simpl.
  - split; [tauto | intros (_ & x & Hx & _); discriminate].
  - assert (Hrest : In i (indicesFrom p (S k) l) <->
                    (k < i)%nat /\ exists x, (y :: l) !! (i - k)%nat = Some x /\ p x = true).
    { rewrite IH. split.
      - intros (Hle & x & Hx & Hp). split; [lia|]. exists x. split; [|exact Hp].
        replace (i - k)%nat with (S (i - S k)) by lia. exact Hx.
      - intros (Hlt & x & Hx & Hp). split; [lia|]. exists x. split; [|exact Hp].
        replace (i - k)%nat with (S (i - S k)) in Hx by lia. exact Hx. }
    destruct (p y) eqn:Ey.
    + simpl. rewrite Hrest. split.
      * intros [<-|(Hlt & x & Hx & Hp)].
        -- split; [lia|]. exists y. rewrite Nat.sub_diag. auto.
        -- split; [lia|]. eauto.
      * intros (Hle & x & Hx & Hp).
        destruct (decide (k = i)) as [->|Hne]; [left; reflexivity|].
        right. split; [lia|]. eauto.
    + rewrite Hrest. split.
      * intros (Hlt & x & Hx & Hp). split; [lia|]. eauto.
      * intros (Hle & x & Hx & Hp).
        destruct (decide (k = i)) as [->|Hne].
        -- rewrite Nat.sub_diag in Hx. injection Hx as <-. congruence.
        -- split; [lia|]. eauto.
Qed.

Lemma querySelectorAll_hasClass pg cls i :
  existsb (Nat.eqb i) (querySelectorAll pg cls) = hasClass pg i cls.
Proof.
  unfold hasClass.
  destruct (existsb (Nat.eqb i) (querySelectorAll pg cls)) eqn:E.
  - apply existsb_exists in E as (j & Hin & Hj). apply Nat.eqb_eq in Hj. subst j.
    apply indicesFrom_In in Hin as (_ & x & Hx & Hp).
    rewrite Nat.sub_0_r in Hx. rewrite Hx. symmetry. exact Hp.
  - destruct (elements pg !! i) as [x|] eqn:Hx; [|reflexivity].
    destruct (elemHasClass cls x) eqn:Hp; [|reflexivity].
    rewrite <- E. apply existsb_exists. exists i.
    split; [|apply Nat.eqb_refl].
    apply indicesFrom_In. split; [lia|]. exists x. rewrite Nat.sub_0_r. auto.
Qed.

Lemma elemHasClass_classRemove r c e :
  elemHasClass c (classRemove r e) = elemHasClass c e && negb (streq r c).
Proof.
  unfold elemHasClass, classRemove. cbn [el_classes setClasses].
  induction (el_classes e) as [|x l IH]; [reflexivity|].
  cbn [List.filter existsb].
  destruct (streq r x) eqn:Erx; cbn [negb].
  - rewrite IH. apply streq_eq in Erx. subst x.
    destruct (streq c r) eqn:Ecr; [|reflexivity].
    apply streq_eq in Ecr. subst c. rewrite streq_refl. simpl.
    rewrite andb_false_r. reflexivity.
  - cbn [existsb]. rewrite IH.
    destruct (streq c x) eqn:Ecx; [|reflexivity].
    apply streq_eq in Ecx. subst x. rewrite Erx. reflexivity.
Qed.

Lemma filter_idem {A} (p : A -> bool) l : List.filter p (List.filter p l) = List.filter p l.
Proof.
  induction l as [|y l IH]; [reflexivity|].
  cbn [List.filter]. destruct (p y) eqn:E; cbn [List.filter]; [rewrite E, IH|]; auto.
Qed.

Lemma classRemove_idem c x : classRemove c (classRemove c x) = classRemove c x.
Proof.
  destruct x. unfold classRemove, setClasses. cbn -[List.filter streq].
  rewrite filter_idem. reflexivity.
Qed.

Lemma clearFormErrors_effect (pg : Page) :
  (forall i, textContent (clearFormErrors pg) i =
               if hasClass pg i (js "error-message")
               then (fun _ => js "") <$> textContent pg i
               else textContent pg i)
  /\ (forall i c, hasClass (clearFormErrors pg) i c =
                    if hasClass pg i (js "form-input")
                    then hasClass pg i c && negb (streq (js "error") c)
                    else hasClass pg i c)
  /\ formState (clearFormErrors pg) = formState pg.
Proof.
  set (pg1 := fold_left (fun acc i => setTextContent i (js "") acc)
                        (querySelectorAll pg (js "error-message")) pg).
  assert (Hshape : clearFormErrors pg =
            fold_left (fun acc i => updateElement i (classRemove (js "error")) acc)
                      (querySelectorAll pg1 (js "form-input")) pg1) by reflexivity.
  assert (H1 : forall j, elements pg1 !! j =
                 if hasClass pg j (js "error-message")
                 then setText (js "") <$> elements pg !! j else elements pg !! j).
  { intros j. unfold pg1.
    rewrite <- querySelectorAll_hasClass.
    apply (fold_update_lookup (setText (js ""))). reflexivity. }
  assert (Hq : querySelectorAll pg1 (js "form-input") = querySelectorAll pg (js "form-input")).
  { apply querySelectorAll_keeps. unfold pg1.
    apply (keeps_fold structureOf (fun acc i => setTextContent i (js "") acc)).
    intros acc x. apply keeps_updateElement. reflexivity. }
  assert (H2 : forall j, elements (clearFormErrors pg) !! j =
                 if hasClass pg j (js "form-input")
                 then classRemove (js "error") <$> elements pg1 !! j
                 else elements pg1 !! j).
  { intros j. rewrite Hshape, Hq, <- querySelectorAll_hasClass.
    apply fold_update_lookup. intros x. apply classRemove_idem. }
  split; [|split; [|apply keeps_clearFormErrors]].
  - intros i. unfold textContent. rewrite H2, H1.
    destruct (hasClass pg i (js "form-input")), (hasClass pg i (js "error-message")),
      (elements pg !! i); reflexivity.
  - intros i c. unfold hasClass at 1. rewrite H2, H1. unfold hasClass.
    destruct (elements pg !! i) as [x|] eqn:Hx.
    + destruct (elemHasClass (js "form-input") x), (elemHasClass (js "error-message") x);
        unfold fmap, option_fmap, option_map; cbv beta iota;
        rewrite ?elemHasClass_classRemove; reflexivity.
    + reflexivity.
Qed.

(** X9. [clearFormErrors] empties the text of every element of class
    [error-message] and of no other element, takes the class [error] from
    every element of class [form-input] and changes no other class, and
    leaves identifiers, names, values and default values as they are. *)
Theorem clearFormErrors_clears (pg : Page) :
  (forall i, textContent (clearFormErrors pg) i =
               if hasClass pg i (js "error-message")
               then (fun _ => js "") <$> textContent pg i
               else textContent pg i)
  /\ (forall i c, hasClass (clearFormErrors pg) i c =
                    if hasClass pg i (js "form-input")
                    then hasClass pg i c && negb (streq (js "error") c)
                    else hasClass pg i c)
  /\ formState (clearFormErrors pg) = formState pg.
Proof. apply clearFormErrors_effect. Qed.

End SubmitExtras.

(** ** Validation of one field while the visitor types *)

Section FieldExtras.
Import DOM FormValidator Appointment.

Lemma assoc_errors env f fd :
  assoc (fieldKey f) (errors (validateForm env fd)) =
    if isEmptyString (fieldMessage env f fd) then None else Some (fieldMessage env f fd).
Proof.
  unfold validateForm, fieldMessage. cbn [errors].
  generalize (validateName (patientName fd)) as m1.
  generalize (validatePhone (phoneNumber fd)) as m2.
  generalize (validateDate env (preferredDate fd)) as m3.
  intros [|c3 t3] [|c2 t2] [|c1 t1]; destruct f; vm_compute; reflexivity.
Qed.

Lemma hasClass_update j f pg i c :
  hasClass (updateElement j f pg) i c =
    if decide (j = i)
    then match elements pg !! i with
         | Some e => elemHasClass c (f e)
         | None => false
         end
    else hasClass pg i c.
Proof.
  unfold hasClass. rewrite lookup_updateElement.
  destruct (decide (j = i)); [|reflexivity].
  destruct (elements pg !! i); reflexivity.
Qed.

Lemma elemHasClass_classAdd_other c c0 e :
  c <> c0 -> elemHasClass c (classAdd c0 e) = elemHasClass c e.
Proof.
  intros H. unfold classAdd. destruct (elemHasClass c0 e); [reflexivity|].
  unfold elemHasClass. cbn [el_classes setClasses]. rewrite existsb_app.
  cbn [existsb]. replace (streq c c0) with false; [rewrite !orb_false_r; reflexivity|].
  symmetry. destruct (streq c c0) eqn:E; [apply streq_eq in E; congruence | reflexivity].
Qed.

Lemma error_element_is_not_input f pg ee ie :
  getElementById pg (errorElementId (fieldKey f)) = Some ee ->
  getElementById pg (fieldKey f) = Some ie ->
  ee <> ie.
Proof.
  intros He Hi ->. pose proof (getElementById_inj pg _ _ ie He Hi) as H.
  destruct f; vm_compute in H; discriminate.
Qed.

(** X10. [validateField], run for one field on a page that has the form,
    the field's input and its error element, returns normally and shows
    the verdict of that field alone: the error element holds the message
    of the field's validator (the empty string when it passes), the input
    carries the class [error] exactly when the field fails, no other text
    and no other class changes, and the values of the form stay as they
    are. *)
Theorem validateField_shows_one_field
        (env : Env) (self : AppointmentForm) (f : FieldName) (pg : Page) (ee ie : nat) :
  form self <> None ->
  getElementById pg (errorElementId (fieldKey f)) = Some ee ->
  getElementById pg (fieldKey f) = Some ie ->
  exists pg',
    validateField env self f pg = Done pg'
    /\ textContent pg' ee = Some (fieldMessage env f (readFields pg))
    /\ hasClass pg' ie (js "error") = negb (isEmptyString (fieldMessage env f (readFields pg)))
    /\ (forall j, j <> ee -> textContent pg' j = textContent pg j)
    /\ (forall j c, j <> ie \/ c <> js "error" -> hasClass pg' j c = hasClass pg j c)
    /\ formState pg' = formState pg.
Proof.
  intros Hform Hee Hie.
  destruct (form self) as [fm|] eqn:Hf; [clear Hform | congruence].
  pose proof (error_element_is_not_input f pg ee ie Hee Hie) as Hne.
  destruct (getElementById_Some pg _ ee Hee) as (xe & Hxe & _).
  destruct (getElementById_Some pg _ ie Hie) as (xi & Hxi & _).
  set (msg := fieldMessage env f (readFields pg)).
  assert (Hrun : validateField env self f pg =
            Done (if isEmptyString msg
                  then removeClass ie (js "error") (setTextContent ee (js "") pg)
                  else addClass ie (js "error") (setTextContent ee msg pg))).
  { unfold validateField, getFormData. rewrite Hf. cbn [bind].
    rewrite Hee, Hie, assoc_errors. fold msg.
    destruct (isEmptyString msg) eqn:E; cbv beta iota zeta; rewrite ?E; reflexivity. }
  rewrite Hrun. eexists. split; [reflexivity|].
  assert (Hempty : isEmptyString msg = true -> msg = js "")
    by (destruct msg; [reflexivity | discriminate]).
  destruct (isEmptyString msg) eqn:Em.
  - rewrite (Hempty eq_refl).
    split; [|split; [|split; [|split]]].
    + unfold removeClass. rewrite textContent_update_keep by reflexivity.
      apply textContent_setTextContent. eauto.
    + unfold removeClass, setTextContent. rewrite hasClass_update.
      destruct (decide (ie = ie)); [|congruence].
      rewrite lookup_updateElement. destruct (decide (ee = ie)); [congruence|].
      rewrite Hxi, elemHasClass_classRemove, streq_refl. apply andb_false_r.
    + intros j Hj. unfold removeClass. rewrite textContent_update_keep by reflexivity.
      apply textContent_update_ne. congruence.
    + intros j c Hjc. unfold removeClass, setTextContent. rewrite hasClass_update.
      destruct (decide (ie = j)) as [->|Hij].
      * rewrite lookup_updateElement. destruct (decide (ee = j)); [congruence|].
        unfold hasClass. destruct (elements pg !! j); [|reflexivity].
        rewrite elemHasClass_classRemove.
        destruct Hjc as [Hjc|Hc]; [congruence|].
        replace (streq (js "error") c) with false; [apply andb_true_r|].
        symmetry. destruct (streq (js "error") c) eqn:E; [|reflexivity].
        apply streq_eq in E. congruence.
      * rewrite hasClass_update. destruct (decide (ee = j)); [|reflexivity].
        unfold hasClass. destruct (elements pg !! j); reflexivity.
    + eapply keeps_trans; [apply keeps_setTextContent | apply keeps_removeClass].
  - split; [|split; [|split; [|split]]].
    + unfold addClass. rewrite textContent_update_keep by apply el_text_classAdd.
      apply textContent_setTextContent. eauto.
    + apply hasClass_addClass. unfold setTextContent. rewrite lookup_updateElement.
      destruct (decide (ee = ie)); [congruence|]. eauto.
    + intros j Hj. unfold addClass. rewrite textContent_update_keep by apply el_text_classAdd.
      apply textContent_update_ne. congruence.
    + intros j c Hjc. unfold addClass, setTextContent. rewrite hasClass_update.
      destruct (decide (ie = j)) as [->|Hij].
      * rewrite lookup_updateElement. destruct (decide (ee = j)); [congruence|].
        unfold hasClass. destruct (elements pg !! j); [|reflexivity].
        destruct Hjc as [Hjc|Hc]; [congruence|].
        apply elemHasClass_classAdd_other, Hc.
      * rewrite hasClass_update. destruct (decide (ee = j)); [|reflexivity].
        unfold hasClass. destruct (elements pg !! j); reflexivity.
    + eapply keeps_trans; [apply keeps_setTextContent | apply keeps_addClass].
Qed.

Lemma validateField_shows_one_field_witness :
  exists pg',
    validateField Sample.india (Sample.controller Sample.invalidPage) FPhoneNumber
                  Sample.invalidPage = Done pg'
    /\ textContent pg' 4 = Some msgPhoneInvalid
    /\ textContent pg' 2 = Some (js "")
    /\ hasClass pg' 3 (js "error") = true.
Proof.
  destruct (validateField_shows_one_field Sample.india
              (Sample.controller Sample.invalidPage) FPhoneNumber Sample.invalidPage 4 3)
    as (pg' & Hrun & Ht & Hc & Hother & _).
  - vm_compute. discriminate.
  - reflexivity.
  - reflexivity.
  - exists pg'. split; [exact Hrun|]. split; [exact Ht|]. split; [|exact Hc].
    rewrite Hother by discriminate. reflexivity.
Defined.

End FieldExtras.

(** ** The toast and its timers *)

Section ToastExtras.
Import DOM Toast.

Lemma lookup_show_is_Some tm opts pg j :
  is_Some (elements (show tm opts pg) !! j) <-> is_Some (elements pg !! j).
Proof.
  rewrite !lookup_lt_is_Some.
  pose proof (keeps_show tm opts pg) as H. unfold keeps in H.
  rewrite <- (length_map fieldsOf (elements (show tm opts pg))),
          <- (length_map fieldsOf (elements pg)), H.
  reflexivity.
Qed.

Lemma timers_show tm opts pg te me :
  toastElement tm = Some te -> messageElement tm = Some me ->
  timers (show tm opts pg) = timers pg ++ [(toastDuration opts, HToastHide tm)].
Proof. intros Ht Hm. unfold show. rewrite Ht, Hm. reflexivity. Qed.

(** X11. [show] never cancels a timer. When a toast is shown while the
    timer of an earlier one is pending, both timers are pending afterwards,
    each with its own delay (5000 ms when no duration or the duration 0 is
    given), and the toast shows the later message; when the earlier timer
    fires it hides the toast, although the later toast has not been shown
    for its own delay. *)
Theorem toast_hidden_by_earlier_timer
        (env : FormValidator.Env) (tm : ToastManager) (first second : ToastOptions)
        (pg : Page) (te me : nat) (ev : Event) :
  toastElement tm = Some te ->
  messageElement tm = Some me ->
  is_Some (elements pg !! te) ->
  is_Some (elements pg !! me) ->
  let shown := show tm second (show tm first pg) in
  timers shown = timers pg ++ [(toastDuration first, HToastHide tm);
                               (toastDuration second, HToastHide tm)]
  /\ textContent shown me = Some (t_message second)
  /\ hasClass shown te (js "show") = true
  /\ exists after,
       Events.runHandler env (HToastHide tm) ev shown = Done (ev, after)
       /\ hasClass after te (js "show") = false
       /\ textContent after me = Some (t_message second)
       /\ timers after = timers shown.
Proof.
  intros Ht Hm Hte Hme shown.
  assert (Hte1 : is_Some (elements (show tm first pg) !! te))
    by (apply lookup_show_is_Some; exact Hte).
  assert (Hme1 : is_Some (elements (show tm first pg) !! me))
    by (apply lookup_show_is_Some; exact Hme).
  destruct (show_shows tm second (show tm first pg) te me Ht Hm Hte1 Hme1) as (Htx & Hcl & _).
  split; [|split; [exact Htx|split; [exact Hcl|]]].
  - unfold shown. rewrite (timers_show tm second _ te me Ht Hm),
      (timers_show tm first pg te me Ht Hm), <- app_assoc. reflexivity.
  - exists (hide tm shown). split; [reflexivity|].
    unfold hide. rewrite Ht.
    split; [|split; [|reflexivity]].
    + unfold removeClass. rewrite hasClass_update.
      destruct (decide (te = te)); [|congruence].
      destruct (elements shown !! te); [|reflexivity].
      rewrite elemHasClass_classRemove, streq_refl. apply andb_false_r.
    + unfold removeClass. rewrite textContent_update_keep by reflexivity. exact Htx.
Qed.

Lemma toast_hidden_by_earlier_timer_witness :
  timers (show (toastManager (Sample.controller Sample.validPage))
            (mkToastOptions (js "second") error (Some 0%Z))
            (show (toastManager (Sample.controller Sample.validPage))
               (mkToastOptions (js "first") success (Some 800%Z)) Sample.validPage))
  = [(800%Z, HToastHide (toastManager (Sample.controller Sample.validPage)));
     (5000%Z, HToastHide (toastManager (Sample.controller Sample.validPage)))].
Proof.
  destruct (toast_hidden_by_earlier_timer Sample.india
              (toastManager (Sample.controller Sample.validPage))
              (mkToastOptions (js "first") success (Some 800%Z))
              (mkToastOptions (js "second") error (Some 0%Z))
              Sample.validPage 10 11 Sample.submitEvent)
    as (H & _).
  - reflexivity.
  - reflexivity.
  - vm_compute. eauto.
  - vm_compute. eauto.
  - exact H.
Defined.

End ToastExtras.

(** ** The mobile menu *)

Section MenuExtras.
Import DOM Nav.

Lemma elemHasClass_classToggle c c0 e :
  elemHasClass c (classToggle c0 e) =
    if streq c c0 then negb (elemHasClass c e) else elemHasClass c e.
Proof.
  unfold classToggle. destruct (elemHasClass c0 e) eqn:E0.
  - rewrite elemHasClass_classRemove.
    destruct (streq c c0) eqn:E.
    + apply streq_eq in E. subst c. rewrite streq_refl, E0. reflexivity.
    + replace (streq c0 c) with false; [apply andb_true_r|].
      symmetry. destruct (streq c0 c) eqn:E'; [|reflexivity].
      apply streq_eq in E'. subst c. rewrite streq_refl in E. discriminate.
  - destruct (streq c c0) eqn:E.
    + apply streq_eq in E. subst c. rewrite E0. apply elemHasClass_classAdd.
    + apply elemHasClass_classAdd_other. intros ->. rewrite streq_refl in E. discriminate.
Qed.

Lemma hasClass_toggleClass j c0 pg i c :
  hasClass (toggleClass j c0 pg) i c =
    if decide (j = i)
    then (if streq c c0 then negb (hasClass pg i c) && bool_decide (is_Some (elements pg !! i))
          else hasClass pg i c)
    else hasClass pg i c.
Proof.
  unfold toggleClass. rewrite hasClass_update.
  destruct (decide (j = i)); [|reflexivity].
  unfold hasClass. destruct (elements pg !! i) as [x|].
  - rewrite elemHasClass_classToggle.
    destruct (streq c c0); [|reflexivity].
    rewrite bool_decide_eq_true_2 by eauto. rewrite andb_true_r. reflexivity.
  - destruct (streq c c0); reflexivity.
Qed.

Lemma hasClass_removeClass j c0 pg i c :
  hasClass (removeClass j c0 pg) i c =
    if decide (j = i) then hasClass pg i c && negb (streq c0 c) else hasClass pg i c.
Proof.
  unfold removeClass. rewrite hasClass_update.
  destruct (decide (j = i)); [|reflexivity].
  unfold hasClass. destruct (elements pg !! i); [apply elemHasClass_classRemove | reflexivity].
Qed.

Lemma lookup_update_is_Some j f pg i :
  is_Some (elements (updateElement j f pg) !! i) <-> is_Some (elements pg !! i).
Proof.
  rewrite lookup_updateElement. destruct (decide (j = i)); [|reflexivity].
  destruct (elements pg !! i); simpl; split; intros [? ?]; eauto; discriminate.
Qed.

Lemma exists_after_toggle j c0 pg i :
  bool_decide (is_Some (elements (toggleClass j c0 pg) !! i))
  = bool_decide (is_Some (elements pg !! i)).
Proof. apply bool_decide_ext, lookup_update_is_Some. Qed.

Lemma menuStep_exists nav pg a i :
  is_Some (elements (menuStep nav pg a) !! i) <-> is_Some (elements pg !! i).
Proof.
  assert (Hc : is_Some (elements (closeMenu nav pg) !! i) <-> is_Some (elements pg !! i)).
  { unfold closeMenu. destruct (navToggle nav), (navMenu nav); try reflexivity.
    unfold removeClass. rewrite !lookup_update_is_Some. reflexivity. }
  destruct a; cbn [menuStep].
  - unfold toggleMenu. destruct (navToggle nav), (navMenu nav); try reflexivity.
    unfold toggleClass. rewrite !lookup_update_is_Some. reflexivity.
  - exact Hc.
  - unfold outsideClick. destruct (negb _ && negb _); [exact Hc | reflexivity].
Qed.

Lemma menuStep_sync nav t m pg a :
  navToggle nav = Some t -> navMenu nav = Some m ->
  is_Some (elements pg !! t) -> is_Some (elements pg !! m) ->
  hasClass pg t (js "active") = hasClass pg m (js "active") ->
  hasClass (menuStep nav pg a) t (js "active") = hasClass (menuStep nav pg a) m (js "active").
Proof.
  intros Ht Hm Het Hem Hs.
  destruct (decide (t = m)) as [->|Hne]; [reflexivity|].
  assert (Hc : hasClass (closeMenu nav pg) t (js "active")
               = hasClass (closeMenu nav pg) m (js "active")).
  { unfold closeMenu. rewrite Ht, Hm. rewrite !hasClass_removeClass.
    destruct (decide (t = t)); [|congruence].
    destruct (decide (m = m)); [|congruence].
    destruct (decide (t = m)); [congruence|].
    destruct (decide (m = t)); [congruence|].
    rewrite streq_refl, !andb_false_r. reflexivity. }
  destruct a; cbn [menuStep].
  - unfold toggleMenu. rewrite Ht, Hm. rewrite !hasClass_toggleClass.
    destruct (decide (t = t)); [|congruence].
    destruct (decide (m = m)); [|congruence].
    destruct (decide (t = m)); [congruence|].
    destruct (decide (m = t)); [congruence|].
    rewrite streq_refl.
    unfold toggleClass. rewrite !bool_decide_eq_true_2; auto.
    + rewrite Hs. reflexivity.
    + apply lookup_update_is_Some. exact Het.
  - exact Hc.
  - unfold outsideClick. destruct (negb _ && negb _); [exact Hc | exact Hs].
Qed.

(** X12. The toggle button and the menu stay in step: when both carry the
    class [active] or both lack it, the same holds after any sequence of
    presses on the button, on links of the menu and anywhere else on the
    page. *)
Theorem menu_and_button_stay_in_step
        (nav : MobileNavigation) (t m : nat) (actions : list MenuAction) (pg : Page) :
  navToggle nav = Some t ->
  navMenu nav = Some m ->
  is_Some (elements pg !! t) ->
  is_Some (elements pg !! m) ->
  hasClass pg t (js "active") = hasClass pg m (js "active") ->
  hasClass (menuRun nav actions pg) t (js "active")
    = hasClass (menuRun nav actions pg) m (js "active").
Proof.
  intros Ht Hm. revert pg.
  induction actions as [|a actions IH]; intros pg Het Hem Hs; [exact Hs|].
  unfold menuRun. cbn [fold_left]. apply IH.
  - apply menuStep_exists, Het.
  - apply menuStep_exists, Hem.
  - apply (menuStep_sync nav t m pg a); assumption.
Qed.

Lemma menu_and_button_stay_in_step_witness :
  hasClass (menuRun Sample2.menu [PressToggle; PressAt 3; PressToggle; PressToggle; PressLink]
              Sample2.mobilePage) 0 (js "active")
  = hasClass (menuRun Sample2.menu [PressToggle; PressAt 3; PressToggle; PressToggle; PressLink]
                Sample2.mobilePage) 1 (js "active").
Proof.
  apply (menu_and_button_stay_in_step Sample2.menu 0 1); try reflexivity;
    vm_compute; eauto.
Defined.

(** X13. Pressing the toggle button twice gives every element the classes
    it had; [closeMenu] leaves the button and the menu without the class
    [active] whatever they had, and changes no other class of any
    element. *)
Theorem toggle_twice_and_close
        (nav : MobileNavigation) (t m : nat) (pg : Page) :
  navToggle nav = Some t ->
  navMenu nav = Some m ->
  is_Some (elements pg !! t) ->
  is_Some (elements pg !! m) ->
  (forall i c, hasClass (toggleMenu nav (toggleMenu nav pg)) i c = hasClass pg i c)
  /\ hasClass (closeMenu nav pg) t (js "active") = false
  /\ hasClass (closeMenu nav pg) m (js "active") = false
  /\ (forall i c, c <> js "active" \/ (i <> t /\ i <> m) ->
                  hasClass (closeMenu nav pg) i c = hasClass pg i c).
Proof.
  intros Ht Hm Het Hem.
  split; [|split; [|split]].
  - intros i c. unfold toggleMenu. rewrite Ht, Hm.
    rewrite !hasClass_toggleClass.
    assert (Hex : forall j, j = t \/ j = m ->
              bool_decide (is_Some (elements pg !! j)) = true)
      by (intros j [->| ->]; apply bool_decide_eq_true_2; assumption).
    rewrite !exists_after_toggle.
    destruct (decide (t = i)) as [Hti|Hti]; destruct (decide (m = i)) as [Hmi|Hmi];
      destruct (streq c (js "active")); try reflexivity;
      rewrite ?(Hex i) by auto; destruct (hasClass pg i c); reflexivity.
  - unfold closeMenu. rewrite Ht, Hm, !hasClass_removeClass.
    destruct (decide (t = t)); [|congruence].
    rewrite streq_refl, andb_false_r. reflexivity.
  - unfold closeMenu. rewrite Ht, Hm, !hasClass_removeClass.
    destruct (decide (t = m)); destruct (decide (m = m)); try congruence;
      rewrite streq_refl, ?andb_false_r; reflexivity.
  - intros i c H. unfold closeMenu. rewrite Ht, Hm, !hasClass_removeClass.
    destruct H as [Hc|[Hit Him]].
    + replace (streq (js "active") c) with false.
      * destruct (decide (t = i)), (decide (m = i)); rewrite ?andb_true_r; reflexivity.
      * symmetry. destruct (streq (js "active") c) eqn:E; [|reflexivity].
        apply streq_eq in E. congruence.
    + destruct (decide (t = i)); [congruence|].
      destruct (decide (m = i)); [congruence|]. reflexivity.
Qed.

Lemma toggle_twice_and_close_witness :
  hasClass (closeMenu Sample2.menu (toggleMenu Sample2.menu Sample2.mobilePage)) 1 (js "active")
  = false.
Proof.
  destruct (toggle_twice_and_close Sample2.menu 0 1
              (toggleMenu Sample2.menu Sample2.mobilePage))
    as (_ & _ & H & _).
  - reflexivity.
  - reflexivity.
  - vm_compute. eauto.
  - vm_compute. eauto.
  - exact H.
Defined.

End MenuExtras.

(** ** The call-to-action bar *)

Section CtaExtras.
Import DOM CTA.

Lemma handleScroll_narrow c p :
  (innerWidth p <=? 768)%Z = true ->
  handleScroll (Some c) p =
    withLastScrollY (scrollY p)
      (setStyle c (js "transform")
         (if (scrollY p >? lastScrollY p)%Z
             && negb (innerHeight p + scrollY p >=? bodyOffsetHeight p - 100)%Z
          then ctaHidden else ctaShown) p).
Proof.
  intros H. unfold handleScroll, hideCTA, showCTA. rewrite H.
  destruct ((scrollY p >? lastScrollY p)%Z
            && negb (innerHeight p + scrollY p >=? bodyOffsetHeight p - 100)%Z);
    reflexivity.
Qed.

Lemma handleScroll_wide c p :
  (innerWidth p <=? 768)%Z = false ->
  handleScroll (Some c) p = withLastScrollY (scrollY p) p.
Proof. intros H. unfold handleScroll. rewrite H. reflexivity. Qed.

(** X14. The bar follows the direction of the last two scroll positions.
    After scroll events at [y1] and then at [y2], the position remembered
    is [y2]; on a window at most 768 wide the bar is moved out of view
    exactly when [y2] is below [y1] and the bottom of the page is more than
    100 away, and is in view otherwise; on a wider window the scroll events
    change no element. *)
Theorem cta_follows_scroll_direction (c : nat) (pg : Page) (y1 y2 : Z) :
  is_Some (elements pg !! c) ->
  let pg1 := handleScroll (Some c) (windowScrolledTo y1 pg) in
  let pg2 := handleScroll (Some c) (windowScrolledTo y2 pg1) in
  lastScrollY pg2 = y2
  /\ ((innerWidth pg <= 768)%Z ->
      getStyle pg2 c (js "transform") =
        Some (if (y2 >? y1)%Z && negb (innerHeight pg + y2 >=? bodyOffsetHeight pg - 100)%Z
              then ctaHidden else ctaShown))
  /\ ((768 < innerWidth pg)%Z -> elements pg2 = elements pg).
Proof.
  intros Hex pg1 pg2.
  destruct (innerWidth pg <=? 768)%Z eqn:Ew.
  - assert (H1 : pg1 = withLastScrollY y1
                   (setStyle c (js "transform")
                      (if (y1 >? lastScrollY pg)%Z
                          && negb (innerHeight pg + y1 >=? bodyOffsetHeight pg - 100)%Z
                       then ctaHidden else ctaShown) (windowScrolledTo y1 pg)))
      by (apply handleScroll_narrow; exact Ew).
    assert (H2 : pg2 = withLastScrollY y2
                   (setStyle c (js "transform")
                      (if (y2 >? y1)%Z
                          && negb (innerHeight pg + y2 >=? bodyOffsetHeight pg - 100)%Z
                       then ctaHidden else ctaShown) (windowScrolledTo y2 pg1))).
    { unfold pg2. rewrite handleScroll_narrow by (rewrite H1; exact Ew).
      rewrite H1. reflexivity. }
    split; [rewrite H2; reflexivity|]. split.
    + intros _. rewrite H2.
      change (getStyle (withLastScrollY y2 ?p) c (js "transform"))
        with (getStyle p c (js "transform")).
      apply getStyle_setStyle_eq.
      change (elements (windowScrolledTo y2 pg1)) with (elements pg1).
      rewrite H1.
      change (elements (withLastScrollY y1 ?p)) with (elements p).
      apply lookup_update_is_Some. exact Hex.
    + intros Hw. apply Z.leb_le in Ew. lia.
  - assert (H1 : pg1 = withLastScrollY y1 (windowScrolledTo y1 pg))
      by (apply handleScroll_wide; exact Ew).
    assert (H2 : pg2 = withLastScrollY y2 (windowScrolledTo y2 pg1))
      by (apply handleScroll_wide; rewrite H1; exact Ew).
    split; [rewrite H2; reflexivity|]. split.
    + intros Hn. apply Z.leb_gt in Ew. lia.
    + intros _. rewrite H2, H1. reflexivity.
Qed.

Lemma cta_follows_scroll_direction_witness :
  getStyle (handleScroll (Some 2%nat)
              (windowScrolledTo 300
                 (handleScroll (Some 2%nat) (windowScrolledTo 900 Sample2.mobilePage))))
           2 (js "transform")
  = Some ctaShown.
Proof.
  destruct (cta_follows_scroll_direction 2 Sample2.mobilePage 900 300) as (_ & H & _).
  - vm_compute. eauto.
  - apply H. vm_compute. discriminate.
Defined.

End CtaExtras.

(** ** More on the accordion *)

Section AccordionExtras.
Import DOM FAQ.

Lemma listeners_fold_add (type : jsstring) (h : Handler) (qs : list nat) pg :
  listeners (fold_left (fun acc q => addEventListener (OnElement q) type h acc) qs pg)
  = listeners pg ++ List.map (fun q => mkListener (OnElement q) type h) qs.
Proof.
  revert pg. induction qs as [|q qs IH]; intros pg; cbn [fold_left List.map].
  - rewrite app_nil_r. reflexivity.
  - rewrite IH. cbn [listeners addEventListener withListeners].
    rewrite <- app_assoc. reflexivity.
Qed.

Lemma runListeners_faq_other env (qs sub : list nat) q e p :
  ~ In q sub ->
  Events.runListeners env
    (List.map (fun x => mkListener (OnElement x) (js "click") (HToggleFAQ qs)) sub)
    (OnElement q) (js "click") e p = Done (e, p).
Proof.
  revert e p. induction sub as [|x sub IH]; intros e p Hn; [reflexivity|].
  cbn [List.map Events.runListeners l_target l_type Events.targetEqb].
  destruct (Nat.eqb_spec x q) as [->|Hne]; [exfalso; apply Hn; left; reflexivity|].
  cbn [andb]. apply IH. intros H. apply Hn. right. exact H.
Qed.

Lemma runListeners_faq_one env (qs sub : list nat) q e p :
  NoDup sub -> In q sub ->
  Events.runListeners env
    (List.map (fun x => mkListener (OnElement x) (js "click") (HToggleFAQ qs)) sub)
    (OnElement q) (js "click") e p
  = Done (mkEvent (target e) (OnElement q) (defaultPrevented e), toggleFAQ qs q p).
Proof.
  revert e p. induction sub as [|x sub IH]; intros e p Hnd Hin; [destruct Hin|].
  apply NoDup_cons in Hnd as [Hx Hnd]. rewrite list_elem_of_In in Hx.
  cbn [List.map Events.runListeners l_target l_type l_handler Events.targetEqb].
  destruct (Nat.eqb_spec x q) as [->|Hne].
  - rewrite streq_refl. cbn [andb Events.runHandler currentTarget bind fst snd].
    apply runListeners_faq_other. exact Hx.
  - cbn [andb]. apply IH; [exact Hnd|].
    destruct Hin as [->|Hin]; [congruence | exact Hin].
Qed.

(** X15. On a page that had no listeners, the accordion adds one click
    listener per question: a click that reaches a question runs
    [toggleFAQ] for it exactly once, in whatever state the page is by
    then, and a click that reaches any other element runs nothing. *)
Theorem click_toggles_exactly_once
        (env : FormValidator.Env) (pg later : Page) (q : nat) (e : Event) :
  listeners pg = [] ->
  listeners later = listeners (snd (newFAQAccordion pg)) ->
  let faqQuestions := fst (newFAQAccordion pg) in
  (In q faqQuestions ->
   Events.dispatchEvent env (OnElement q) (js "click") e later
   = Done (mkEvent (target e) (OnElement q) (defaultPrevented e),
           toggleFAQ faqQuestions q later))
  /\ (~ In q faqQuestions ->
      Events.dispatchEvent env (OnElement q) (js "click") e later = Done (e, later)).
Proof.
  intros Hl Hlater faqQuestions.
  assert (Hls : listeners later =
            List.map (fun x => mkListener (OnElement x) (js "click") (HToggleFAQ faqQuestions))
                     faqQuestions).
  { rewrite Hlater. unfold newFAQAccordion. cbn [snd].
    rewrite listeners_fold_add, Hl. reflexivity. }
  unfold Events.dispatchEvent. rewrite Hls. split.
  - intros Hin. apply runListeners_faq_one; [|exact Hin].
    unfold faqQuestions, newFAQAccordion. cbn [fst].
    unfold querySelectorAll. apply indicesFrom_NoDup.
  - intros Hn. apply runListeners_faq_other. exact Hn.
Qed.

Lemma click_toggles_exactly_once_witness :
  Events.dispatchEvent Sample.india (OnElement 4) (js "click") Sample.submitEvent
                       (snd (newFAQAccordion Sample.faqPage))
  = Done (mkEvent 0 (OnElement 4) false,
          toggleFAQ (fst (newFAQAccordion Sample.faqPage)) 4
                    (snd (newFAQAccordion Sample.faqPage))).
Proof.
  destruct (click_toggles_exactly_once Sample.india Sample.faqPage
              (snd (newFAQAccordion Sample.faqPage)) 4 Sample.submitEvent) as [H _].
  - reflexivity.
  - reflexivity.
  - apply H. vm_compute. auto.
Defined.

Lemma assoc_assocSet_ne {A} k k' (v : A) l : k <> k' -> assoc k' (assocSet k v l) = assoc k' l.
Proof.
  intros Hne. induction l as [|[k0 v0] l IH]; cbn [assocSet assoc].
  - replace (streq k' k) with false; [reflexivity|].
    symmetry. destruct (streq k' k) eqn:E; [apply streq_eq in E; congruence | reflexivity].
  - destruct (streq k k0) eqn:E; cbn [assoc].
    + apply streq_eq in E. subst k0.
      replace (streq k' k) with false; [reflexivity|].
      symmetry. destruct (streq k' k) eqn:E'; [apply streq_eq in E'; congruence | reflexivity].
    + rewrite IH. reflexivity.
Qed.

Lemma touchesOnly_refl ka ks pg : touchesOnly ka ks pg pg.
Proof. repeat split; reflexivity. Qed.

Lemma touchesOnly_trans ka ks pg1 pg2 pg3 :
  touchesOnly ka ks pg1 pg2 -> touchesOnly ka ks pg2 pg3 -> touchesOnly ka ks pg1 pg3.
Proof.
  intros (K1 & B1 & A1 & S1) (K2 & B2 & A2 & S2). split; [|split; [|split]].
  - eapply keeps_trans; eauto.
  - congruence.
  - intros i k Hk. rewrite A2, A1 by assumption. reflexivity.
  - intros i k Hk. rewrite S2, S1 by assumption. reflexivity.
Qed.

Lemma touchesOnly_setAttribute ka ks i v pg : touchesOnly ka ks pg (setAttribute i ka v pg).
Proof.
  split; [|split; [|split]].
  - apply keeps_updateElement. reflexivity.
  - reflexivity.
  - intros j k Hk. unfold getAttribute, setAttribute. rewrite lookup_updateElement.
    destruct (decide (i = j)); [|reflexivity].
    destruct (elements pg !! j); [|reflexivity].
    simpl. apply assoc_assocSet_ne. congruence.
  - intros j k _. apply getStyle_setAttribute.
Qed.

Lemma touchesOnly_setStyle ka ks i v pg : touchesOnly ka ks pg (setStyle i ks v pg).
Proof.
  split; [|split; [|split]].
  - apply keeps_updateElement. reflexivity.
  - reflexivity.
  - intros j k _. apply getAttribute_setStyle.
  - intros j k Hk. unfold getStyle, setStyle. rewrite lookup_updateElement.
    destruct (decide (i = j)); [|reflexivity].
    destruct (elements pg !! j); [|reflexivity].
    simpl. apply assoc_assocSet_ne. congruence.
Qed.

Lemma touchesOnly_closeOther b acc q :
  touchesOnly ariaExpanded (js "maxHeight") acc (closeOther b acc q).
Proof.
  unfold closeOther. destruct (Nat.eqb q b); [apply touchesOnly_refl|].
  destruct (answerOf _ q).
  - eapply touchesOnly_trans; [apply touchesOnly_setAttribute | apply touchesOnly_setStyle].
  - apply touchesOnly_setAttribute.
Qed.

Lemma touchesOnly_closeAll b qs pg :
  touchesOnly ariaExpanded (js "maxHeight") pg (fold_left (closeOther b) qs pg).
Proof.
  revert pg. induction qs as [|q qs IH]; intros pg; [apply touchesOnly_refl|].
  cbn [fold_left]. eapply touchesOnly_trans; [apply touchesOnly_closeOther | apply IH].
Qed.

Lemma touchesOnly_toggle qs b pg :
  touchesOnly ariaExpanded (js "maxHeight") pg (toggleFAQ qs b pg).
Proof.
  unfold toggleFAQ. destruct (answerOf pg b) as [a|]; [|apply touchesOnly_refl].
  destruct (match getAttribute pg b ariaExpanded with
            | Some v => streq v (js "true")
            | None => false
            end);
    (eapply touchesOnly_trans; [apply touchesOnly_closeAll|]);
    (eapply touchesOnly_trans; [apply touchesOnly_setAttribute | apply touchesOnly_setStyle]).
Qed.

Lemma touchesOnly_scrollHeight ka ks pg pg' i :
  touchesOnly ka ks pg pg' -> scrollHeight pg' i = scrollHeight pg i.
Proof.
  intros (K & _).
  apply (keeps_compose besidesAttrsAndStyle
           (fun t => let '(_, _, _, _, _, _, _, _, h) := t in h)) in K.
  apply (keeps_lookup _ pg pg' i) in K. unfold scrollHeight.
  destruct (elements pg' !! i), (elements pg !! i); simpl in K; congruence.
Qed.

(** X16. A click on a question whose item has an answer sets the
    [maxHeight] of that answer: to its scroll height in pixels when the
    question was collapsed, and to ["0"] when it was expanded. *)
Theorem toggleFAQ_sets_answer_height (qs : list nat) (button a : nat) (pg : Page) :
  answerOf pg button = Some a ->
  getStyle (toggleFAQ qs button pg) a (js "maxHeight") =
    Some (if isExpanded pg button then js "0"
          else numberToString (scrollHeight pg a) ++ js "px").
Proof.
  intros Ha. unfold toggleFAQ. rewrite Ha. fold (isExpanded pg button).
  set (pg1 := fold_left (closeOther button) qs pg).
  assert (Hex : forall v, is_Some (elements (setAttribute button ariaExpanded v pg1) !! a)).
  { intros v. apply lookup_setAttribute_is_Some, closeAll_lookup_is_Some.
    eapply answerOf_valid, Ha. }
  destruct (isExpanded pg button).
  - apply getStyle_setStyle_eq, Hex.
  - rewrite getStyle_setStyle_eq by apply Hex.
    rewrite (touchesOnly_scrollHeight ariaExpanded (js "maxHeight") pg).
    + reflexivity.
    + eapply touchesOnly_trans; [apply touchesOnly_closeAll | apply touchesOnly_setAttribute].
Qed.

Lemma toggleFAQ_sets_answer_height_witness :
  getStyle (toggleFAQ [1; 4; 7]%nat 7 Sample.faqPage) 8 (js "maxHeight") = Some (js "120px").
Proof.
  apply (toggleFAQ_sets_answer_height [1; 4; 7]%nat 7 8 Sample.faqPage).
  reflexivity.
Defined.

(** X17. [toggleFAQ] writes nothing but [aria-expanded] attributes and
    [maxHeight] styles: identifiers, classes, texts, form values and the
    place of every element in the tree, every other attribute and style,
    the focus, the dialogs, the timers and the listeners are as before. *)
Theorem toggleFAQ_touches_only_aria_and_height (qs : list nat) (button : nat) (pg : Page) :
  touchesOnly ariaExpanded (js "maxHeight") pg (toggleFAQ qs button pg).
Proof. apply touchesOnly_toggle. Qed.

End AccordionExtras.

(** ** The router *)

Section RouterExtras.
Import DOM Router.

Lemma streq_sym a b : streq a b = streq b a.
Proof.
  destruct (streq a b) eqn:E1, (streq b a) eqn:E2; try reflexivity.
  - apply streq_eq in E1. subst b. rewrite streq_refl in E2. discriminate.
  - apply streq_eq in E2. subst b. rewrite streq_refl in E1. discriminate.
Qed.

Lemma elemHasClass_classAdd_or c c' e :
  elemHasClass c (classAdd c' e) = elemHasClass c e || streq c' c.
Proof.
  unfold classAdd. destruct (elemHasClass c' e) eqn:E.
  - destruct (streq c' c) eqn:Ec.
    + apply streq_eq in Ec. subst c'. rewrite E. reflexivity.
    + rewrite orb_false_r. reflexivity.
  - unfold elemHasClass. cbn [el_classes setClasses].
    rewrite existsb_app. cbn [existsb]. rewrite orb_false_r, (streq_sym c c').
    reflexivity.
Qed.

Lemma getAttribute_updateElement i f pg j k :
  (forall e, el_attrs (f e) = el_attrs e) ->
  getAttribute (updateElement i f pg) j k = getAttribute pg j k.
Proof.
  intros Hf. unfold getAttribute. rewrite lookup_updateElement.
  destruct (decide (i = j)); [|reflexivity].
  destruct (elements pg !! j); [|reflexivity].
  simpl. rewrite Hf. reflexivity.
Qed.

Lemma el_attrs_classAdd c e : el_attrs (classAdd c e) = el_attrs e.
Proof. unfold classAdd. destruct (elemHasClass c e); reflexivity. Qed.

Lemma linksTo_updateLink id pg q j id' :
  linksTo (updateLink id pg q) j id' = linksTo pg j id'.
Proof.
  unfold linksTo, updateLink.
  destruct (match getAttribute pg q (js "href") with
            | Some h => streq h (js "#" ++ id)
            | None => false
            end);
    unfold addClass, removeClass; rewrite getAttribute_updateElement;
    auto using el_attrs_classAdd.
Qed.

Lemma hasClass_updateLink id pg q j c :
  hasClass (updateLink id pg q) j c =
    if Nat.eqb j q && streq (js "active") c then linksTo pg j id else hasClass pg j c.
Proof.
  unfold updateLink. fold (linksTo pg q id).
  destruct (Nat.eqb_spec j q) as [->|Hne]; cbn [andb].
  - unfold linksTo, getAttribute, hasClass, addClass, removeClass.
    destruct (elements pg !! q) as [x|] eqn:Ex; cbn [fmap option_fmap option_map].
    + destruct (match assoc (js "href") (el_attrs x) with
                | Some h => streq h (js "#" ++ id)
                | None => false
                end) eqn:El;
        rewrite lookup_updateElement; destruct (decide (q = q)); try congruence;
        rewrite Ex; cbn [fmap option_fmap option_map].
      * rewrite elemHasClass_classAdd_or.
        destruct (streq (js "active") c); [apply orb_true_r | apply orb_false_r].
      * rewrite elemHasClass_classRemove.
        destruct (streq (js "active") c); [apply andb_false_r | apply andb_true_r].
    + destruct (streq (js "active") c);
        rewrite lookup_updateElement; destruct (decide (q = q)); try congruence;
        rewrite Ex; reflexivity.
  - unfold hasClass, addClass, removeClass.
    destruct (linksTo pg q id); rewrite lookup_updateElement;
      destruct (decide (q = j)); congruence.
Qed.

Lemma hasClass_updateActiveNavLink navLinks id pg j c :
  hasClass (updateActiveNavLink navLinks id pg) j c =
    if existsb (Nat.eqb j) navLinks && streq (js "active") c
    then linksTo pg j id else hasClass pg j c.
Proof.
  unfold updateActiveNavLink. revert pg.
  induction navLinks as [|q qs IH]; intros pg; [reflexivity|].
  cbn [fold_left existsb]. rewrite IH, linksTo_updateLink, hasClass_updateLink.
  destruct (Nat.eqb j q), (existsb (Nat.eqb j) qs), (streq (js "active") c); reflexivity.
Qed.

Lemma keeps_updateActiveNavLink {B} (g : Element -> B) navLinks id pg :
  (forall c e, g (classAdd c e) = g e) -> (forall c e, g (classRemove c e) = g e) ->
  keeps g pg (updateActiveNavLink navLinks id pg).
Proof.
  intros Ha Hr. unfold updateActiveNavLink. apply keeps_fold. intros acc q.
  unfold updateLink.
  destruct (match getAttribute acc q (js "href") with
            | Some h => streq h (js "#" ++ id)
            | None => false
            end); apply keeps_updateElement; auto.
Qed.

(** X18. After [updateActiveNavLink(id)] a navigation link carries the
    class [active] exactly when its [href] is [#id]; the other classes of
    the links, and every class of every other element, are as before. *)
Theorem updateActiveNavLink_marks_matching_links
        (navLinks : list nat) (id : jsstring) (pg : Page) (j : nat) (c : jsstring) :
  hasClass (updateActiveNavLink navLinks id pg) j c =
    if existsb (Nat.eqb j) navLinks && streq (js "active") c
    then linksTo pg j id
    else hasClass pg j c.
Proof. apply hasClass_updateActiveNavLink. Qed.

Lemma startsWithHash_cons c t : startsWithHash (c :: t) = (c =? 35).
Proof.
  destruct (N.eqb_spec c 35) as [->|Hne]; [reflexivity|].
  unfold startsWithHash. destruct c as [|p]; [reflexivity|].
  do 6 (try (destruct p as [p|p|]; try reflexivity)).
  congruence.
Qed.

Lemma existsb_eqb_In j l : In j l -> existsb (Nat.eqb j) l = true.
Proof. intros H. apply existsb_exists. exists j. split; [exact H | apply Nat.eqb_refl]. Qed.

(** X19. A click on a navigation link is always cancelled, and only a
    link to a fragment is acted on: when the [href] of the link is missing
    or does not start with [#], the click scrolls nothing, marks nothing
    and adds nothing to the history. *)
Theorem nav_click_elsewhere_is_cancelled
        (offsetTop : nat -> Z) (navLinks : list nat) (link : nat) (e : Event) (b : Browser) :
  (forall id, getAttribute (page b) link (js "href") <> Some (js "#" ++ id)) ->
  handleNavClick offsetTop navLinks link e b = (preventDefault e, b)
  /\ defaultPrevented (fst (handleNavClick offsetTop navLinks link e b)) = true.
Proof.
  intros Hno. unfold handleNavClick.
  destruct (getAttribute (page b) link (js "href")) as [[|c h]|]; try (split; reflexivity).
  rewrite startsWithHash_cons. destruct (N.eqb_spec c 35) as [->|Hne].
  - exfalso. apply (Hno h). reflexivity.
  - rewrite andb_false_r. split; reflexivity.
Qed.

Lemma nav_click_elsewhere_is_cancelled_witness :
  handleNavClick Sample2.layout [0; 1; 2]%nat 2 Sample.submitEvent Sample2.navBrowser
  = (preventDefault Sample.submitEvent, Sample2.navBrowser)
  /\ defaultPrevented (fst (handleNavClick Sample2.layout [0; 1; 2]%nat 2
                                           Sample.submitEvent Sample2.navBrowser)) = true.
Proof.
  apply (nav_click_elsewhere_is_cancelled Sample2.layout [0; 1; 2]%nat 2
           Sample.submitEvent Sample2.navBrowser).
  intros id H. vm_compute in H. discriminate H.
Defined.

(** X20. A click on a navigation link to [#id] is cancelled and puts
    [#id] on the history, whether or not the page has an element [id].
    When it has one, the window is scrolled to 80 pixels above it, the
    navigation links with that same [href] (the clicked link among them)
    are [active] and no other navigation link is. When it has none,
    neither the page nor the scroll position changes. *)
Theorem nav_click_on_fragment
        (offsetTop : nat -> Z) (navLinks : list nat) (link : nat) (id : jsstring)
        (e : Event) (b : Browser) :
  getAttribute (page b) link (js "href") = Some (js "#" ++ id) ->
  let e' := fst (handleNavClick offsetTop navLinks link e b) in
  let b' := snd (handleNavClick offsetTop navLinks link e b) in
  defaultPrevented e' = true
  /\ pushed b' = pushed b ++ [js "#" ++ id]
  /\ match getElementById (page b) id with
     | Some t =>
         scrollTop b' = Some (offsetTop t - 80)%Z
         /\ (forall j, In j navLinks ->
                       hasClass (page b') j (js "active") = linksTo (page b) j id)
         /\ (In link navLinks -> hasClass (page b') link (js "active") = true)
     | None => page b' = page b /\ scrollTop b' = scrollTop b
     end.
Proof.
  intros Hh. unfold handleNavClick. rewrite Hh.
  change (js "#" ++ id) with (35 :: id). rewrite startsWithHash_cons.
  cbn [FormValidator.isEmptyString negb andb N.eqb Pos.eqb fst snd].
  change (substring1 (35 :: id)) with id.
  unfold navigateToSection, scrollToSection. cbn [page scrollTop pushed].
  destruct (getElementById (page b) id) as [t|]; cbn [page scrollTop pushed].
  - split; [reflexivity|]. split; [reflexivity|]. split; [reflexivity|]. split.
    + intros j Hj. rewrite hasClass_updateActiveNavLink, (existsb_eqb_In j navLinks Hj).
      reflexivity.
    + intros Hj. rewrite hasClass_updateActiveNavLink, (existsb_eqb_In link navLinks Hj).
      cbn [andb]. change (streq (js "active") (js "active")) with true. cbv iota.
      unfold linksTo. rewrite Hh. apply streq_refl.
  - repeat split.
Qed.

Lemma nav_click_on_fragment_witness :
  scrollTop (snd (handleNavClick Sample2.layout [0; 1; 2]%nat 1
                                 Sample.submitEvent Sample2.navBrowser)) = Some 2320%Z.
Proof.
  pose proof (nav_click_on_fragment Sample2.layout [0; 1; 2]%nat 1 (js "services")
                Sample.submitEvent Sample2.navBrowser) as H.
  specialize (H eq_refl). cbv zeta in H.
  destruct H as (_ & _ & H).
  change (getElementById (page Sample2.navBrowser) (js "services")) with (Some 4%nat) in H.
  destruct H as (H & _). exact H.
Defined.

(** X21. A change of the location hash (back or forward in the history)
    scrolls and marks the links just as a click on a link with that
    [href] does, and unlike the click adds nothing to the history. *)
Theorem hash_change_is_click_without_history
        (offsetTop : nat -> Z) (navLinks : list nat) (link : nat) (hash : jsstring)
        (e : Event) (b : Browser) :
  getAttribute (page b) link (js "href") = Some hash ->
  startsWithHash hash = true ->
  let b' := snd (handleNavClick offsetTop navLinks link e b) in
  handleHashChange offsetTop navLinks hash b
  = mkBrowser (page b') (scrollTop b') (pushed b).
Proof.
  intros Hh Hs. unfold handleNavClick, handleHashChange. rewrite Hh, Hs.
  destruct hash as [|c id]; [discriminate Hs|].
  cbn [FormValidator.isEmptyString negb andb fst snd].
  change (substring1 (c :: id)) with id.
  unfold navigateToSection, scrollToSection. cbn [page scrollTop pushed].
  destruct id as [|c' id'].
  - cbn [FormValidator.isEmptyString getElementById]. destruct b; reflexivity.
  - cbn [FormValidator.isEmptyString].
    destruct (getElementById (page b) (c' :: id')); [reflexivity | destruct b; reflexivity].
Qed.

Lemma hash_change_is_click_without_history_witness :
  handleHashChange Sample2.layout [0; 1; 2]%nat (js "#services") Sample2.navBrowser
  = mkBrowser
      (page (snd (handleNavClick Sample2.layout [0; 1; 2]%nat 1
                                 Sample.submitEvent Sample2.navBrowser)))
      (Some 2320%Z) [].
Proof.
  apply (hash_change_is_click_without_history Sample2.layout [0; 1; 2]%nat 1
           (js "#services") Sample.submitEvent Sample2.navBrowser).
  - reflexivity.
  - reflexivity.
Defined.

End RouterExtras.

(** ** Closing the contact dialog *)

Section DialogExtras.
Import ContactDialog.

Lemma without_In x id l : In x (without id l) <-> In x l /\ x <> id.
Proof.
  unfold without. rewrite filter_In. split; intros [H1 H2]; split; auto.
  - intros ->. rewrite Nat.eqb_refl in H2. discriminate.
  - destruct (Nat.eqb_spec x id); [contradiction | reflexivity].
Qed.

Lemma existsb_eqb_iff id l : existsb (Nat.eqb id) l = true <-> In id l.
Proof.
  rewrite existsb_exists. split.
  - intros (x & Hx & E). apply Nat.eqb_eq in E. subst x. exact Hx.
  - intros H. exists id. split; [exact H | apply Nat.eqb_refl].
Qed.

Lemma closeModal_attached id d :
  In id (attached d) ->
  closeModal id d = Done (mkDialogs (without id (attached d)) (escapeListeners d) (created d)).
Proof.
  intros H. unfold closeModal. apply existsb_eqb_iff in H. rewrite H. reflexivity.
Qed.

Lemma closeModal_detached id d : ~ In id (attached d) -> closeModal id d = Throw notFoundError.
Proof.
  intros H. unfold closeModal.
  destruct (existsb (Nat.eqb id) (attached d)) eqn:E; [|reflexivity].
  apply existsb_eqb_iff in E. contradiction.
Qed.

(** The overlays of [l] that are not in [ls]. *)
Lemma without_all_cons id ls l :
  List.filter (fun x => negb (existsb (Nat.eqb x) ls)) (without id l)
  = List.filter (fun x => negb (existsb (Nat.eqb x) (id :: ls))) l.
Proof.
  unfold without. induction l as [|y l IH]; [reflexivity|].
  cbn [List.filter existsb].
  destruct (Nat.eqb y id); cbn [negb orb List.filter]; rewrite IH; reflexivity.
Qed.

Lemma filter_none_of_itself l :
  List.filter (fun x => negb (existsb (Nat.eqb x) l)) l = [].
Proof.
  assert (H : forall m, (forall x, In x m -> In x l) ->
                        List.filter (fun x => negb (existsb (Nat.eqb x) l)) m = []).
  { induction m as [|y m IH]; intros Hm; [reflexivity|].
    cbn [List.filter]. rewrite (proj2 (existsb_eqb_iff y l)) by (apply Hm; left; reflexivity).
    cbn [negb]. apply IH. intros x Hx. apply Hm. right. exact Hx. }
  apply H. auto.
Qed.

Lemma filter_all_true {A} (l : list A) : List.filter (fun _ => true) l = l.
Proof. induction l as [|y l IH]; [reflexivity|]. cbn [List.filter]. rewrite IH. reflexivity. Qed.

Lemma runEscape_attached ls : forall d reported,
  NoDup ls -> (forall x, In x ls -> In x (attached d)) ->
  runEscapeListeners (js "Escape") ls d reported
  = (mkDialogs (List.filter (fun x => negb (existsb (Nat.eqb x) ls)) (attached d))
               (List.filter (fun x => negb (existsb (Nat.eqb x) ls)) (escapeListeners d))
               (created d),
     reported).
Proof.
  induction ls as [|id ls IH]; intros d reported Hnd Hin.
  - cbn [runEscapeListeners existsb negb]. rewrite !filter_all_true. destruct d; reflexivity.
  - apply NoDup_cons in Hnd as [Hid Hnd]. rewrite list_elem_of_In in Hid.
    cbn [runEscapeListeners]. unfold handleEscape.
    change (DOM.streq (js "Escape") (js "Escape")) with true. cbv iota.
    rewrite closeModal_attached by (apply Hin; left; reflexivity).
    cbn [bind attached escapeListeners created].
    rewrite IH; [|exact Hnd|].
    + cbn [attached escapeListeners created]. rewrite !without_all_cons. reflexivity.
    + intros x Hx. cbn [attached]. apply without_In. split.
      * apply Hin. right. exact Hx.
      * intros ->. contradiction.
Qed.

Lemma runEscape_other_key key ls : forall d reported,
  DOM.streq key (js "Escape") = false ->
  runEscapeListeners key ls d reported = (d, reported).
Proof.
  induction ls as [|id ls IH]; intros d reported Hk; [reflexivity|].
  cbn [runEscapeListeners]. unfold handleEscape. rewrite Hk. apply IH, Hk.
Qed.

(** What a run of the listeners keeps, with the overlay [id] detached. *)
Lemma runEscape_detached id ls : forall d reported,
  ~ In id (attached d) -> In id (escapeListeners d) ->
  let r := runEscapeListeners (js "Escape") ls d reported in
  ~ In id (attached (fst r)) /\ In id (escapeListeners (fst r))
  /\ (forall err, In err reported -> In err (snd r))
  /\ (In id ls -> In notFoundError (snd r)).
Proof.
  induction ls as [|x ls IH]; intros d reported Hna Hl; cbn zeta.
  - cbn [runEscapeListeners fst snd]. repeat split; auto. intros [].
  - cbn [runEscapeListeners]. unfold handleEscape.
    change (DOM.streq (js "Escape") (js "Escape")) with true. cbv iota.
    destruct (in_dec Nat.eq_dec x (attached d)) as [Hx|Hx].
    + rewrite closeModal_attached by exact Hx. cbn [bind attached escapeListeners created].
      assert (Hne : id <> x) by (intros ->; contradiction).
      match goal with
      | |- context [runEscapeListeners _ ls ?d1 _] =>
          destruct (IH d1 reported) as (H1 & H2 & H3 & H4)
      end.
      * cbn [attached]. rewrite without_In. tauto.
      * cbn [escapeListeners]. apply without_In. auto.
      * repeat split; auto. intros [->|Hin]; [congruence | auto].
    + rewrite closeModal_detached by exact Hx. cbn [bind].
      destruct (IH d (reported ++ [notFoundError]) Hna Hl) as (H1 & H2 & H3 & H4).
      repeat split; auto.
      * intros err He. apply H3, in_or_app. left. exact He.
      * intros _. apply H3, in_or_app. right. left. reflexivity.
Qed.

(** X22. With every open dialog listening for the keyboard, one press of
    Escape closes all of them, however many there are, removes all their
    listeners and raises no exception; any other key changes nothing. *)
Theorem escape_closes_every_dialog (d : Dialogs) (key : jsstring) :
  NoDup (attached d) ->
  escapeListeners d = attached d ->
  keydown key d =
    if DOM.streq key (js "Escape") then (mkDialogs [] [] (created d), []) else (d, []).
Proof.
  intros Hnd Hl. unfold keydown. destruct (DOM.streq key (js "Escape")) eqn:E.
  - apply streq_eq in E. subst key. rewrite Hl.
    rewrite runEscape_attached by auto. rewrite Hl, filter_none_of_itself. reflexivity.
  - apply runEscape_other_key, E.
Qed.

Lemma escape_closes_every_dialog_witness :
  keydown (js "Escape") (openDialog (openDialog (mkDialogs [] [] 0)))
  = (mkDialogs [] [] 2, []).
Proof.
  apply (escape_closes_every_dialog (openDialog (openDialog (mkDialogs [] [] 0)))
                                    (js "Escape")).
  - apply NoDup_ListNoDup. simpl.
    constructor; [simpl; lia|]. constructor; [simpl; tauto|]. constructor.
  - reflexivity.
Defined.

(** X23. A dialog closed by its Close button or by a click on the
    overlay leaves its keyboard listener behind: from then on every press
    of Escape raises [NotFoundError] from [removeChild], and the listener
    is still there afterwards. *)
Theorem escape_after_close_button_throws (id : nat) (d : Dialogs) :
  In id (attached d) ->
  In id (escapeListeners d) ->
  exists d1, closeModal id d = Done d1
    /\ ~ In id (attached d1)
    /\ forall d2, ~ In id (attached d2) -> In id (escapeListeners d2) ->
         In notFoundError (snd (keydown (js "Escape") d2))
         /\ ~ In id (attached (fst (keydown (js "Escape") d2)))
         /\ In id (escapeListeners (fst (keydown (js "Escape") d2))).
Proof.
  intros Ha Hl. eexists. split; [apply closeModal_attached, Ha|]. split.
  - cbn [attached]. rewrite without_In. tauto.
  - intros d2 Hna2 Hl2. unfold keydown.
    destruct (runEscape_detached id (escapeListeners d2) d2 [] Hna2 Hl2) as (H1 & H2 & _ & H4).
    auto.
Qed.

Lemma escape_after_close_button_throws_witness :
  exists d1, closeModal 0 (openDialog (mkDialogs [] [] 0)) = Done d1
    /\ ~ In 0%nat (attached d1)
    /\ forall d2, ~ In 0%nat (attached d2) -> In 0%nat (escapeListeners d2) ->
         In notFoundError (snd (keydown (js "Escape") d2))
         /\ ~ In 0%nat (attached (fst (keydown (js "Escape") d2)))
         /\ In 0%nat (escapeListeners (fst (keydown (js "Escape") d2))).
Proof.
  apply (escape_after_close_button_throws 0 (openDialog (mkDialogs [] [] 0))).
  - simpl. auto.
  - simpl. auto.
Defined.

End DialogExtras.

(** ** The events of the form reach their handlers *)

Section WiringExtras.
Import DOM Appointment.

Lemma runListeners_by_type env ls tg type e pg :
  Events.runListeners env ls tg type e pg
  = Events.runListeners env (List.filter (fun l => streq (l_type l) type) ls) tg type e pg.
Proof.
  revert e pg. induction ls as [|l ls IH]; intros e pg; [reflexivity|].
  cbn [Events.runListeners List.filter].
  destruct (streq (l_type l) type) eqn:E.
  - cbn [Events.runListeners]. rewrite E.
    destruct (Events.targetEqb (l_target l) tg); cbn [andb]; [|apply IH].
    destruct (Events.runHandler env (l_handler l) _ pg) as [r|err]; cbn [bind];
      [apply IH | reflexivity].
  - rewrite andb_false_r. apply IH.
Qed.

Lemma getElementById_setAttribute i k v pg id :
  getElementById (setAttribute i k v pg) id = getElementById pg id.
Proof. apply getElementById_keeps, keeps_updateElement. reflexivity. Qed.

Ltac decide_types :=
  repeat match goal with
         | |- context [streq (js ?a) (js ?b)] =>
             let v := eval vm_compute in (streq (js a) (js b)) in
             change (streq (js a) (js b)) with v
         end.

Ltac norm_lookup :=
  repeat match goal with
         | |- context [getElementById (setAttribute ?i ?k ?v ?p) ?id] =>
             rewrite (getElementById_setAttribute i k v p id)
         | |- context [getElementById (addEventListener ?t ?ty ?h ?p) ?id] =>
             change (getElementById (addEventListener t ty h p) id) with (getElementById p id)
         end.

Lemma filter_listeners_getInstance type pg :
  streq (js "click") type = false ->
  List.filter (fun l => streq (l_type l) type) (listeners (snd (Toast.getInstance pg)))
  = List.filter (fun l => streq (l_type l) type) (listeners pg).
Proof.
  intros Ht. unfold Toast.getInstance, Toast.initializeToast.
  destruct (toastInstance pg); [reflexivity|].
  cbn [closeButton]. destruct (getElementById pg (js "toastClose")); [|reflexivity].
  cbn [snd listeners withToastInstance addEventListener withListeners].
  rewrite List.filter_app. cbn [List.filter l_type]. rewrite Ht. apply app_nil_r.
Qed.

Lemma getElementById_getInstance pg id :
  getElementById (snd (Toast.getInstance pg)) id = getElementById pg id.
Proof.
  unfold Toast.getInstance, Toast.initializeToast.
  destruct (toastInstance pg); [reflexivity|].
  cbn [closeButton]. destruct (getElementById pg (js "toastClose")); reflexivity.
Qed.

Lemma filter_listeners_initializeForm env self pg f type :
  form self = Some f ->
  type = js "submit" \/ type = js "input" ->
  List.filter (fun l => streq (l_type l) type) (listeners (initializeForm env self pg))
  = List.filter (fun l => streq (l_type l) type) (listeners pg)
    ++ (if streq (js "submit") type
        then [mkListener (OnElement f) (js "submit") (HSubmit self)] else [])
    ++ (if streq (js "input") type
        then match getElementById pg (js "phoneNumber") with
             | Some i => [mkListener (OnElement i) (js "input") (HFormatPhone self)]
             | None => []
             end
        else []).
Proof.
  intros Hform Htype. unfold initializeForm, addRealTimeValidation. rewrite Hform.
  norm_lookup. destruct (getElementById pg (js "preferredDate")) eqn:Ed;
    norm_lookup; rewrite ?Ed;
    destruct (getElementById pg (js "phoneNumber"));
    destruct (getElementById pg (js "patientName"));
    cbn [listeners addEventListener withListeners setAttribute updateElement withElements];
    rewrite !List.filter_app; cbn [List.filter l_type];
    destruct Htype; subst type; decide_types; cbv iota;
    rewrite ?app_nil_r, <- ?app_assoc; reflexivity.
Qed.

(** X24. On a page that had no listeners, once the form controller is
    built a [submit] event that reaches the form runs [handleSubmit], and
    an [input] event that reaches the phone field runs [formatPhoneInput],
    each exactly once and in whatever state the page is by then. *)
Theorem form_events_reach_their_handlers
        (env : FormValidator.Env) (pg later : Page) (f : nat) (e : Event) :
  listeners pg = [] ->
  getElementById pg (js "appointmentForm") = Some f ->
  listeners later = listeners (snd (newAppointmentForm env pg)) ->
  let self := fst (newAppointmentForm env pg) in
  Events.dispatchEvent env (OnElement f) (js "submit") e later
  = handleSubmit env self (mkEvent (target e) (OnElement f) (defaultPrevented e)) later
  /\ forall i, getElementById pg (js "phoneNumber") = Some i ->
       Events.dispatchEvent env (OnElement i) (js "input") e later
       = Done (mkEvent (target e) (OnElement i) (defaultPrevented e),
               formatPhoneInput (mkEvent (target e) (OnElement i) (defaultPrevented e)) later).
Proof.
  intros Hl Hf Hlater self.
  assert (Hfilter : forall type, type = js "submit" \/ type = js "input" ->
            List.filter (fun l => streq (l_type l) type) (listeners later)
            = (if streq (js "submit") type
               then [mkListener (OnElement f) (js "submit") (HSubmit self)] else [])
              ++ (if streq (js "input") type
                  then match getElementById pg (js "phoneNumber") with
                       | Some i => [mkListener (OnElement i) (js "input") (HFormatPhone self)]
                       | None => []
                       end
                  else [])).
  { intros type Htype. rewrite Hlater. unfold self, newAppointmentForm. rewrite Hf.
    destruct (Toast.getInstance pg) as [tm pg0] eqn:Eg. cbn [fst snd].
    assert (Hpg0 : pg0 = snd (Toast.getInstance pg)) by (rewrite Eg; reflexivity).
    rewrite (filter_listeners_initializeForm env (mkAppointmentForm (Some f) tm) pg0 f type eq_refl Htype).
    rewrite Hpg0, filter_listeners_getInstance, Hl, getElementById_getInstance.
    - reflexivity.
    - destruct Htype; subst type; reflexivity. }
  unfold Events.dispatchEvent. split.
  - rewrite runListeners_by_type, Hfilter by auto.
    decide_types. cbv iota. cbn [app Events.runListeners l_target l_type l_handler Events.targetEqb].
    rewrite Nat.eqb_refl, streq_refl. cbn [andb Events.runHandler].
    destruct (handleSubmit env self _ later) as [[e1 p1]|err]; reflexivity.
  - intros i Hi. rewrite runListeners_by_type, Hfilter, Hi by auto.
    decide_types. cbv iota. cbn [app Events.runListeners l_target l_type l_handler Events.targetEqb].
    rewrite Nat.eqb_refl, streq_refl. cbn [andb Events.runHandler bind fst snd Events.runListeners].
    reflexivity.
Qed.

Lemma form_events_reach_their_handlers_witness :
  Events.dispatchEvent Sample.india (OnElement 0) (js "submit") Sample.submitEvent
                       (snd (newAppointmentForm Sample.india Sample.invalidPage))
  = handleSubmit Sample.india (fst (newAppointmentForm Sample.india Sample.invalidPage))
                 Sample.submitEvent
                 (snd (newAppointmentForm Sample.india Sample.invalidPage)).
Proof.
  destruct (form_events_reach_their_handlers Sample.india Sample.invalidPage
              (snd (newAppointmentForm Sample.india Sample.invalidPage)) 0
              Sample.submitEvent) as [H _].
  - reflexivity.
  - reflexivity.
  - reflexivity.
  - exact H.
Defined.

End WiringExtras.

(** ** Only the failing fields are marked *)

Section MarkExtras.
Import DOM FormValidator Appointment.

Lemma displayError_class_other pg k m i c :
  getElementById pg k <> Some i ->
  hasClass (displayError pg (k, m)) i c = hasClass pg i c.
Proof.
  intros H. unfold displayError.
  assert (Hs : forall ee, hasClass (setTextContent ee m pg) i c = hasClass pg i c).
  { intros ee. unfold setTextContent. rewrite hasClass_update.
    destruct (decide (ee = i)); [|reflexivity].
    unfold hasClass. destruct (elements pg !! i); reflexivity. }
  assert (Ha : forall ie p, ie <> i -> hasClass (addClass ie (js "error") p) i c = hasClass p i c).
  { intros ie p Hne. unfold addClass. rewrite hasClass_update.
    destruct (decide (ie = i)); [contradiction | reflexivity]. }
  destruct (getElementById pg (errorElementId k)) as [ee|];
    destruct (getElementById pg k) as [ie|]; rewrite ?Ha, ?Hs by congruence; reflexivity.
Qed.

Lemma displayErrors_text_untouched errs : forall pg id i,
  getElementById pg id = Some i ->
  ~ In id (List.map (fun kv => errorElementId (fst kv)) errs) ->
  textContent (displayErrors errs pg) i = textContent pg i.
Proof.
  induction errs as [|[k m] errs IH]; intros pg id i Hi Hnot; [reflexivity|].
  rewrite displayErrors_cons. rewrite (IH _ id).
  - apply displayError_text_other. intros Heq. apply Hnot. left. cbn [fst].
    eapply getElementById_inj; eauto.
  - rewrite <- Hi. apply getElementById_keeps, keeps_fields_ids, keeps_displayError.
  - intros Hin. apply Hnot. right. exact Hin.
Qed.

Lemma displayErrors_class_untouched errs : forall pg id i c,
  getElementById pg id = Some i ->
  ~ In id (List.map fst errs) ->
  hasClass (displayErrors errs pg) i c = hasClass pg i c.
Proof.
  induction errs as [|[k m] errs IH]; intros pg id i c Hi Hnot; [reflexivity|].
  rewrite displayErrors_cons. rewrite (IH _ id).
  - apply displayError_class_other. intros Heq. apply Hnot. left. cbn [fst].
    eapply getElementById_inj; eauto.
  - rewrite <- Hi. apply getElementById_keeps, keeps_fields_ids, keeps_displayError.
  - intros Hin. apply Hnot. right. exact Hin.
Qed.

Lemma passing_field_not_reported env f fd :
  fieldMessage env f fd = [] ->
  ~ In (fieldKey f) (List.map fst (errors (validateForm env fd)))
  /\ ~ In (errorElementId (fieldKey f))
          (List.map (fun kv => errorElementId (fst kv)) (errors (validateForm env fd))).
Proof.
  unfold validateForm, fieldMessage. cbn [errors List.filter snd].
  destruct f; intros ->; cbn [isEmptyString negb];
    repeat match goal with
           | |- context [negb (isEmptyString ?m)] => destruct (negb (isEmptyString m))
           end;
    cbn [List.map fst fieldKey]; split; vm_compute; intuition discriminate.
Qed.

Lemma show_class_other tm opts pg i c :
  c <> js "show" -> hasClass (Toast.show tm opts pg) i c = hasClass pg i c.
Proof.
  intros Hc. unfold Toast.show.
  destruct (toastElement tm) as [te|]; [|reflexivity].
  destruct (messageElement tm) as [me|]; [|reflexivity].
  unfold setTimeout, hasClass. cbn [elements withTimers].
  fold (hasClass (addClass te (js "show")
                    (setStyle te (js "background")
                       match Toast.t_type opts with
                       | Toast.error => js "var(--color-error)"
                       | _ => js "var(--color-success)"
                       end (setTextContent me (Toast.t_message opts) pg))) i c).
  unfold addClass, setStyle, setTextContent. rewrite !hasClass_update.
  unfold hasClass. rewrite !lookup_updateElement.
  destruct (decide (te = i)), (decide (me = i)), (elements pg !! i);
    cbn [fmap option_fmap option_map]; try reflexivity;
    rewrite elemHasClass_classAdd_other by exact Hc; reflexivity.
Qed.

(** X25. A failed submission marks the failing fields only. For a field
    whose own check passes, the error element (of class [error-message])
    is empty afterwards and the input (of class [form-input]) does not
    carry the class [error], whatever an earlier submission left there. *)
Theorem handleSubmit_clears_passing_fields
        (env : Env) (self : AppointmentForm) (e : Event) (pg : Page) (f : FieldName) :
  boundTo self pg ->
  form self <> None ->
  isValid (validateForm env (readFields pg)) = false ->
  fieldMessage env f (readFields pg) = [] ->
  exists pg',
    handleSubmit env self e pg = Done (preventDefault e, pg')
    /\ (forall i, getElementById pg (errorElementId (fieldKey f)) = Some i ->
                  hasClass pg i (js "error-message") = true ->
                  textContent pg' i = Some [])
    /\ (forall i, getElementById pg (fieldKey f) = Some i ->
                  hasClass pg i (js "form-input") = true ->
                  hasClass pg' i (js "error") = false).
Proof.
  intros (Hbf & Hbt & Hbm) Hform Hv Hpass.
  destruct (form self) as [fm|] eqn:Hf; [clear Hform | congruence].
  set (errs := errors (validateForm env (readFields pg))).
  destruct (passing_field_not_reported env f (readFields pg) Hpass) as [Hk Hke].
  fold errs in Hk, Hke.
  exists (afterInvalid self errs pg).
  split; [apply (handleSubmit_invalid env self e pg fm Hf Hv)|].
  destruct (clearFormErrors_effect pg) as (Ht0 & Hc0 & _).
  set (pg0 := clearFormErrors pg) in *.
  assert (Hid0 : forall id, getElementById pg0 id = getElementById pg id).
  { intros id. apply getElementById_keeps, keeps_fields_ids, keeps_clearFormErrors. }
  set (pg1 := displayErrors errs pg0).
  set (first := match errs with (k, _) :: _ => k | [] => js "undefined" end).
  set (pg2 := match getElementById pg1 first with
              | Some fe => focus fe pg1
              | None => pg1
              end).
  assert (Hel2 : elements pg2 = elements pg1).
  { unfold pg2. destruct (getElementById pg1 first); reflexivity. }
  change (afterInvalid self errs pg) with
    (Toast.show (toastManager self)
       (Toast.mkToastOptions (js "Please fix the errors below") Toast.error None) pg2).
  split.
  - intros i Hi Hcls. rewrite show_text_other.
    + unfold textContent. rewrite Hel2. fold (textContent pg1 i). unfold pg1.
      rewrite (displayErrors_text_untouched errs pg0 (errorElementId (fieldKey f)) i)
        by (rewrite ?Hid0; assumption).
      rewrite Ht0, Hcls.
      apply getElementById_Some in Hi as (x & Hx & _).
      unfold textContent. rewrite Hx. reflexivity.
    + rewrite Hbm. intros Hme.
      pose proof (getElementById_inj _ _ _ _ Hme Hi) as Heq.
      destruct f; vm_compute in Heq; discriminate Heq.
  - intros i Hi Hcls. rewrite show_class_other by (vm_compute; discriminate).
    unfold hasClass. rewrite Hel2. fold (hasClass pg1 i (js "error")). unfold pg1.
    rewrite (displayErrors_class_untouched errs pg0 (fieldKey f) i)
      by (rewrite ?Hid0; assumption).
    rewrite Hc0, Hcls. rewrite streq_refl. apply andb_false_r.
Qed.

Lemma handleSubmit_clears_passing_fields_witness :
  exists pg',
    handleSubmit Sample.india (Sample.controller Sample.invalidPage)
                 Sample.submitEvent Sample.invalidPage
      = Done (preventDefault Sample.submitEvent, pg')
    /\ textContent pg' 7 = Some []
    /\ hasClass pg' 6 (js "error") = false.
Proof.
  destruct (handleSubmit_clears_passing_fields Sample.india
              (Sample.controller Sample.invalidPage) Sample.submitEvent
              Sample.invalidPage FPreferredDate)
    as (pg' & Hrun & Htext & Hclass).
  - repeat split.
  - vm_compute. discriminate.
  - vm_compute. reflexivity.
  - vm_compute. reflexivity.
  - exists pg'. split; [exact Hrun|]. split.
    + apply Htext; vm_compute; reflexivity.
    + apply Hclass; vm_compute; reflexivity.
Defined.

End MarkExtras.
